(** * aacgmv2.wrapper: the validation and dispatch layer in front of the
      native AACGM-v2 engine

    A shallow embedding of [aacgmv2/wrapper.py] and the properties of its
    specification that concern it.

    - Python floats and the elements of numpy float arrays are IEEE-754
      binary64 values: [spec_float] at precision 53 and maximal exponent
      1024, with the rounding of the standard library's [SpecFloat].
    - The native module [c_aacgmv2] is an opaque collaborator: its four
      primitives are the fields of a record, they may raise and they share
      a state (the epoch register).
    - A call of the wrapper is a computation on a world made of the engine
      state and a trace; the trace records every call of a primitive, with
      its outcome, and every record given to the logger.
    - Definitions come first (the model, then what the proofs need), then
      the facts, then the properties of the specification, C1 to C10. *)

From Stdlib Require Import ZArith List String Ascii Bool Lia Permutation.
From Stdlib Require Import Floats.SpecFloat.
Import ListNotations.

Local Open Scope Z_scope.

(** ** Binary64 arithmetic as Python and numpy expose it *)

Module F64.

Definition prec : Z := 53.
Definition emax : Z := 1024.

Definition float : Type := spec_float.

Definition nan : float := S754_nan.
Definition zero : float := S754_zero false.

(** The double nearest to an integer (exact for the small literals of the
    source). *)
Definition of_Z (z : Z) : float := binary_normalize prec emax z 0 false.

Definition add : float -> float -> float := SFadd prec emax.
Definition sub : float -> float -> float := SFsub prec emax.
Definition mul : float -> float -> float := SFmul prec emax.
Definition div : float -> float -> float := SFdiv prec emax.
Definition abs : float -> float := SFabs.

(** [a < b], [a > b], [a >= b], [a <= b] and [a == b]; every comparison
    with NaN is false. *)
Definition ltb : float -> float -> bool := SFltb.
Definition gtb (a b : float) : bool := SFltb b a.
Definition geb (a b : float) : bool := SFleb b a.
Definition leb : float -> float -> bool := SFleb.
Definition eqb : float -> float -> bool := SFeqb.

Definition is_nan (x : float) : bool :=
  match x with S754_nan => true | _ => false end.

(** C's [fmod]: the exact remainder of the division truncated towards
    zero, with the sign of the dividend.  The remainder of two doubles is
    a double, so the final normalisation never rounds. *)
Definition fmod (x y : float) : float :=
  match x, y with
  | S754_nan, _ | _, S754_nan => S754_nan
  | S754_infinity _, _ => S754_nan
  | _, S754_zero _ => S754_nan
  | S754_zero _, _ => x
  | S754_finite _ _ _, S754_infinity _ => x
  | S754_finite sx mx ex, S754_finite _ my ey =>
      let e := Z.min ex ey in
      let r := Z.rem (cond_Zopp sx (Zpos mx * 2 ^ (ex - e)))
                     (Zpos my * 2 ^ (ey - e)) in
      binary_normalize prec emax r e sx
  end.

Definition copysign_zero (y : float) : float :=
  match y with
  | S754_zero s | S754_infinity s | S754_finite s _ _ => S754_zero s
  | S754_nan => S754_zero false
  end.

(** The [%] of Python floats and of numpy ([float_rem], [npy_divmod]) for
    a divisor that is not zero: [fmod], moved by one divisor when its sign
    differs from the divisor's.  That last addition is an ordinary rounded
    addition.  (For a zero divisor Python raises and numpy yields NaN; the
    source only divides by the literal 360.0.) *)
Definition py_mod (vx wx : float) : float :=
  let m := fmod vx wx in
  if eqb m zero then copysign_zero wx
  else if xorb (ltb wx zero) (ltb m zero) then add m wx
  else m.

(** [np.sign]. *)
Definition np_sign (x : float) : float :=
  if gtb x zero then of_Z 1
  else if ltb x zero then of_Z (-1)
  else if eqb x zero then zero
  else x.

(** [np.clip(x, lo, hi)] on one element: NaN is kept. *)
Definition np_clip (x lo hi : float) : float :=
  let y := if is_nan x then x else if gtb x lo then x else lo in
  if is_nan y then y else if ltb y hi then y else hi.

(** [np.maximum], the step of [ndarray.max]: NaN wins. *)
Definition np_maximum (a b : float) : float :=
  if geb a b || is_nan a then a else b.

(** [np.fmax], the step of [np.nanmax]: NaN loses. *)
Definition np_fmax (a b : float) : float :=
  if geb a b || is_nan b then a else b.

End F64.

Abbreviation float := F64.float.

(** The float literals of the source. *)
Definition f0 : float := F64.zero.
Definition f90 : float := Eval vm_compute in F64.of_Z 90.
Definition fm90 : float := Eval vm_compute in F64.of_Z (-90).
Definition f180 : float := Eval vm_compute in F64.of_Z 180.
Definition f360 : float := Eval vm_compute in F64.of_Z 360.
(** [90.1]: the double nearest to 901/10. *)
Definition f90_1 : float :=
  Eval vm_compute in F64.div (F64.of_Z 901) (F64.of_Z 10).



(** ** Exceptions, log records and time values *)

(** The class of an exception: one of the four built-in classes the
    wrapper raises or catches by name, a class derived from another class
    ([Subclass name base]: [NotImplementedError] derives from
    [RuntimeError]), or a class that derives from none of them. *)
Inductive exn_class :=
| ValueError | NameError | TypeError | RuntimeError
| Subclass (name : string) (base : exn_class)
| OtherException (name : string).

(** What [except TypeError] and [except RuntimeError] catch: the class
    itself and every class derived from it. *)
Fixpoint is_type_error (c : exn_class) : bool :=
  match c with
  | TypeError => true
  | Subclass _ base => is_type_error base
  | _ => false
  end.

Fixpoint is_runtime_error (c : exn_class) : bool :=
  match c with
  | RuntimeError => true
  | Subclass _ base => is_runtime_error base
  | _ => false
  end.

Record datetime := mk_datetime {
  year : Z; month : Z; day : Z; hour : Z; minute : Z; second : Z }.

(** The text of an exception: a literal of the source, or one of its two
    formatted messages. *)
Inductive text :=
| Lit (s : string)
| UnknownMethodCode
| UnableToSetTime (d : datetime) (inner : text).

Inductive exn := Exn (cls : exn_class) (msg : text).

(** What the Python caller sees: a returned value or a raised exception. *)
Inductive res (A : Type) :=
| Ret (a : A)
| Raise (e : exn).
Arguments Ret {A} a.
Arguments Raise {A} e.

(** The [dtime] argument as the caller passes it: a [dt.date], a
    [dt.datetime], or any other object. *)
Inductive pytime :=
| PyDate (y m d : Z)
| PyDatetime (d : datetime)
| PyNoTime.

Definition test_time (dtime : pytime) : res datetime :=
  match dtime with
  | PyDate y m d => Ret (mk_datetime y m d 0 0 0)
  | PyDatetime d => Ret d
  | PyNoTime =>
      Raise (Exn ValueError
               (Lit "time variable (dtime) must be a datetime object"))
  end.

(** ** Method codes *)

(** Modelled from the spec: the flag constants of the native module
    [c_aacgmv2], which is not part of the Python source.  The spec fixes
    [G2A] to 0 and describes the others as the independent bits of a mask;
    the values are those of the AACGM-v2 C library. *)
Module c_aacgmv2.
Definition G2A : Z := 0.
Definition A2G : Z := 1.
Definition TRACE : Z := 2.
Definition ALLOWTRACE : Z := 4.
Definition BADIDEA : Z := 8.
Definition GEOCENTRIC : Z := 16.
End c_aacgmv2.
Import c_aacgmv2.

Local Open Scope string_scope.
Local Open Scope list_scope.
Local Open Scope Z_scope.

(** [str.upper] on the ASCII letters; other characters are kept. *)
Definition upper_char (c : ascii) : ascii :=
  let n := nat_of_ascii c in
  if (97 <=? n)%nat && (n <=? 122)%nat then ascii_of_nat (n - 32) else c.

Fixpoint upper (s : string) : string :=
  match s with
  | EmptyString => EmptyString
  | String c s' => String (upper_char c) (upper s')
  end.

(** [s.replace(" ", "")]. *)
Fixpoint remove_spaces (s : string) : string :=
  match s with
  | EmptyString => EmptyString
  | String c s' =>
      if Ascii.eqb c " " then remove_spaces s' else String c (remove_spaces s')
  end.

(** [s.split("|")]: never empty, the empty string splits to one empty
    token. *)
Fixpoint split_pipe (s : string) : list string :=
  match s with
  | EmptyString => [EmptyString]
  | String c s' =>
      if Ascii.eqb c "|" then EmptyString :: split_pipe s'
      else match split_pipe s' with
           | t :: ts => String c t :: ts
           | [] => [String c EmptyString]
           end
  end.

(** The dict [convert_code], in the order of its literal. *)
Definition convert_code : list (string * Z) :=
  [("G2A", G2A); ("A2G", A2G); ("TRACE", TRACE); ("BADIDEA", BADIDEA);
   ("GEOCENTRIC", GEOCENTRIC); ("ALLOWTRACE", ALLOWTRACE)].

Fixpoint lookup (k : string) (d : list (string * Z)) : option Z :=
  match d with
  | [] => None
  | (k', v) :: d' => if String.eqb k k' then Some v else lookup k d'
  end.

(** [sum([convert_code[k] for k in method_codes if k in convert_code])]. *)
Fixpoint sum_codes (method_codes : list string) : Z :=
  match method_codes with
  | [] => 0
  | k :: ks =>
      match lookup k convert_code with
      | Some v => v + sum_codes ks
      | None => sum_codes ks
      end
  end.

Definition convert_str_to_bit (method_code : string) : Z :=
  let method_codes := split_pipe (remove_spaces (upper method_code)) in
  sum_codes method_codes.

Definition convert_bool_to_bit (a2g trace allowtrace badidea geocentric : bool)
  : Z :=
  let bit_code := if a2g then A2G else G2A in
  let bit_code := if trace then bit_code + TRACE else bit_code in
  let bit_code := if allowtrace then bit_code + ALLOWTRACE else bit_code in
  let bit_code := if badidea then bit_code + BADIDEA else bit_code in
  let bit_code := if geocentric then bit_code + GEOCENTRIC else bit_code in
  bit_code.

(** The decoding as the specification words it: split on the pipe, then
    upper-case every token and take its spaces out, keep the recognised
    tokens, add their flags. *)
Definition norm_token (t : string) : string := remove_spaces (upper t).

Definition recognised (t : string) : bool :=
  match lookup t convert_code with Some _ => true | None => false end.

Definition decode_spec (s : string) : Z :=
  let tokens := map norm_token (split_pipe s) in
  fold_right Z.add 0
    (map (fun t => match lookup t convert_code with
                   | Some v => v
                   | None => 0
                   end)
       (filter recognised tokens)).

(** The [method_code] argument: a [str], an [int], or any other object
    (one without [upper], which is not an [int] either). *)
Inductive method_arg :=
| MStr (s : string)
| MInt (n : Z)
| MOther.

(** The block "Set the coordinate coversion method code in bits", shared by
    both converters. *)
Definition method_bits (method_code : method_arg) : res Z :=
  match method_code with
  | MStr s => Ret (convert_str_to_bit (upper s))
  | MInt n => Ret n
  | MOther => Raise (Exn ValueError UnknownMethodCode)
  end.

(** ** The native engine, the logger, and the trace of a call *)

(** The four primitives of [c_aacgmv2].  The engine keeps a process-wide
    state (its epoch register); a primitive returns or raises, and may
    change that state. *)
Record Engine := {
  estate : Type;
  set_datetime : datetime -> estate -> res unit * estate;
  convert : float -> float -> float -> Z -> estate
            -> res (float * float * float) * estate;
  mlt_convert : datetime -> float -> estate -> res float * estate;
  inv_mlt_convert : datetime -> float -> estate -> res float * estate }.

Inductive call :=
| CSetDatetime (d : datetime)
| CConvert (lat lon height : float) (bit_code : Z)
| CMltConvert (d : datetime) (mlon : float)
| CInvMltConvert (d : datetime) (mlt : float).

Inductive level := Warning | Error.

(** The records handed to [aacgmv2.logger]. *)
Inductive message :=
| MsgNegativeAltitude
| MsgCoeffAltitude
| MsgTraceAltitude
| MsgSingleLocation
| MsgConversionFailed (lat lon height : float) (d : datetime)
    (bit_code : Z) (err : exn_class)
| MsgVectorFailed (d : datetime) (bit_code : Z) (err : exn_class).

(** A trace records every call of a primitive, with whether it returned
    ([true]) or raised ([false]), and every log record. *)
Inductive event :=
| EvCall (c : call) (returned : bool)
| EvLog (l : level) (m : message).

Definition is_call (e : event) : bool :=
  match e with EvCall _ _ => true | EvLog _ _ => false end.

Definition is_mlt_call (e : event) : bool :=
  match e with
  | EvCall (CMltConvert _ _) _ | EvCall (CInvMltConvert _ _) _ => true
  | _ => false
  end.

Definition returned {A} (r : res A) : bool :=
  match r with Ret _ => true | Raise _ => false end.

(** The calls to the native engine recorded in a trace. *)
Definition engine_calls (t : list event) : list event := filter is_call t.

Definition exn_cls (e : exn) : exn_class := let 'Exn c _ := e in c.

(** Modelled from the spec: the package attribute [aacgmv2.high_alt_coeff]
    (defined in the package's [__init__], not in the wrapper); the spec
    gives the high-altitude coefficient threshold as 2000 km. *)
Definition high_alt_coeff : float := Eval vm_compute in F64.of_Z 2000.

(** ** numpy arrays *)

(** An [ndarray] of floats: its shape and its elements in row-major order.
    A Python float passed where an array is accepted becomes the 0-d array
    of shape [()]. *)
Record ndarray := mk_ndarray {
  shape : list nat;
  data : list float }.

Definition size (s : list nat) : nat := fold_right Nat.mul 1%nat s.

Definition scalar (x : float) : ndarray := mk_ndarray [] [x].

Definition rank (a : ndarray) : nat := List.length (shape a).

Definition shape_eqb (s t : list nat) : bool :=
  if list_eq_dec Nat.eq_dec s t then true else false.

(** [np.full(shape=s, fill_value=x)] for a float [x]. *)
Definition np_full (s : list nat) (x : float) : ndarray :=
  mk_ndarray s (repeat x (size s)).

(** [np.full(shape=s, fill_value=a)] for a 0-d array [a]. *)
Definition np_full_of (s : list nat) (a : ndarray) : ndarray :=
  mk_ndarray s (List.concat (repeat (data a) (size s))).

(** [np.array([a])] for a 0-d array [a]. *)
Definition np_array1 (a : ndarray) : ndarray := mk_ndarray [1%nat] (data a).

(** numpy's broadcasting: shapes are aligned at their last axis; two
    lengths agree when they are equal or one of them is 1. *)
Fixpoint broadcast_rev (a b : list nat) : option (list nat) :=
  match a, b with
  | [], _ => Some b
  | _, [] => Some a
  | x :: a', y :: b' =>
      match broadcast_rev a' b' with
      | None => None
      | Some r =>
          if Nat.eqb x y then Some (x :: r)
          else if Nat.eqb x 1 then Some (y :: r)
          else if Nat.eqb y 1 then Some (x :: r)
          else None
      end
  end.

Definition broadcast_shapes (a b : list nat) : option (list nat) :=
  option_map (@rev nat) (broadcast_rev (rev a) (rev b)).

Fixpoint chunks {A} (n k : nat) (d : list A) : list (list A) :=
  match n with
  | O => []
  | S n' => firstn k d :: chunks n' k (skipn k d)
  end.

(** The elements of an array of shape [s] seen at shape [t], both of the
    same rank: an axis of length 1 is repeated. *)
Fixpoint expand (s t : list nat) (d : list float) : list float :=
  match s, t with
  | ns :: s', nt :: t' =>
      if Nat.eqb ns nt
      then List.concat (map (expand s' t') (chunks ns (size s') d))
      else List.concat (repeat (expand s' t' d) nt)
  | _, _ => d
  end.

Definition broadcast_to (a : ndarray) (t : list nat) : ndarray :=
  mk_ndarray t
    (expand (repeat 1%nat (List.length t - rank a) ++ shape a)%list t (data a)).

Fixpoint zip3 {A B C} (la : list A) (lb : list B) (lc : list C)
  : list (A * B * C) :=
  match la, lb, lc with
  | a :: la', b :: lb', c :: lc' => (a, b, c) :: zip3 la' lb' lc'
  | _, _, _ => []
  end.

(** The points a vectorised call runs over: the three arrays broadcast
    against each other, element by element. *)
Definition points (in_lat in_lon height : ndarray)
  : option (list nat * list (float * float * float)) :=
  match broadcast_shapes (shape in_lat) (shape in_lon) with
  | None => None
  | Some t1 =>
      match broadcast_shapes t1 (shape height) with
      | None => None
      | Some t =>
          Some (t, zip3 (data (broadcast_to in_lat t))
                     (data (broadcast_to in_lon t))
                     (data (broadcast_to height t)))
      end
  end.

Definition zero_size (reduction : string) : exn :=
  Exn ValueError
    (Lit ("zero-size array to reduction operation " ++ reduction
          ++ " which has no identity")%string).

(** [np.nanmax(a)]: NaN elements are skipped; an empty array raises. *)
Definition np_nanmax (a : ndarray) : res float :=
  match data a with
  | [] => Raise (zero_size "fmax")
  | x :: xs => Ret (fold_left F64.np_fmax xs x)
  end.

(** [np.abs(a).max()]: a NaN element makes the maximum NaN; an empty array
    raises. *)
Definition np_abs_max (a : ndarray) : res float :=
  match map F64.abs (data a) with
  | [] => Raise (zero_size "maximum")
  | x :: xs => Ret (fold_left F64.np_maximum xs x)
  end.

(** What [convert_mlt] hands back: a float, or an array. *)
Inductive value :=
| VFloat (x : float)
| VArray (a : ndarray).

Section Wrapper.

Variable E : Engine.

(** [aacgmv2.high_alt_trace], the ceiling of the tracing method: a
    package attribute whose value the wrapper does not fix. *)
Variable high_alt_trace : float.

Record world := mk_world {
  engine_state : estate E;
  trace : list event }.

(** Computations of the wrapper: they read and write the engine and the
    trace, and return or raise. *)
Definition M (A : Type) : Type := world -> res A * world.

Definition ret {A} (a : A) : M A := fun w => (Ret a, w).
Definition raise {A} (e : exn) : M A := fun w => (Raise e, w).
Definition bind {A B} (m : M A) (k : A -> M B) : M B :=
  fun w => match m w with
           | (Ret a, w') => k a w'
           | (Raise e, w') => (Raise e, w')
           end.
Definition lift {A} (r : res A) : M A := fun w => (r, w).

(** [try: m except: h]. *)
Definition try_except {A} (m : M A) (h : exn -> M A) : M A :=
  fun w => match m w with
           | (Ret a, w') => (Ret a, w')
           | (Raise e, w') => h e w'
           end.

Definition emit (ev : event) : M unit :=
  fun w => (Ret tt, mk_world (engine_state w) (trace w ++ [ev])%list).

Definition log (l : level) (m : message) : M unit := emit (EvLog l m).

(** A call of a primitive: recorded, then run on the engine state. *)
Definition native {A} (c : call) (f : estate E -> res A * estate E) : M A :=
  fun w => let '(r, st) := f (engine_state w) in
           (r, mk_world st (trace w ++ [EvCall c (returned r)])%list).

Notation "x <- c1 ;; c2" := (bind c1 (fun x => c2))
  (at level 61, c1 at next level, right associativity).
Notation "c1 ;;; c2" := (bind c1 (fun _ => c2))
  (at level 61, right associativity).

Definition truthy (n : Z) : bool := negb (Z.eqb n 0).

Definition test_height (height : float) (bit_code : Z) : M bool :=
  (if F64.ltb height f0 then log Warning MsgNegativeAltitude else ret tt) ;;;
  if F64.gtb height high_alt_coeff
     && negb (truthy (Z.land bit_code
                        (Z.lor (Z.lor TRACE ALLOWTRACE) BADIDEA)))
  then log Error MsgCoeffAltitude ;;; ret false
  else if F64.gtb height high_alt_trace
          && negb (truthy (Z.land bit_code BADIDEA))
  then log Error MsgTraceAltitude ;;; ret false
  else ret true.

(** "Test latitude range" of [convert_latlon]. *)
Definition check_lat (in_lat : float) : res float :=
  if F64.gtb (F64.abs in_lat) f90 then
    if F64.gtb (F64.abs in_lat) f90_1
    then Raise (Exn ValueError (Lit "unrealistic latitude"))
    else Ret (F64.mul (F64.np_sign in_lat) f90)
  else Ret in_lat.

(** "Constrain longitudes between -180 and 180". *)
Definition wrap_lon (in_lon : float) : float :=
  F64.sub (F64.py_mod (F64.add in_lon f180) f360) f180.

(** "Set current date and time": an exception of the engine that is a
    [TypeError] or a [RuntimeError] (of the class or of a class derived
    from it; the [TypeError] clause comes first) is raised again as a plain
    [TypeError] or [RuntimeError] with the wrapper's text, anything else
    propagates as it is. *)
Definition set_time (dtime : datetime) : M unit :=
  try_except (native (CSetDatetime dtime) (set_datetime E dtime))
    (fun e =>
       let 'Exn cls t := e in
       if is_type_error cls
       then raise (Exn TypeError (UnableToSetTime dtime t))
       else if is_runtime_error cls
       then raise (Exn RuntimeError (UnableToSetTime dtime t))
       else raise e).

Definition convert_latlon (in_lat in_lon height : float) (dtime : pytime)
    (method_code : method_arg) : M (float * float * float) :=
  dtime <- lift (test_time dtime) ;;
  let lat_out := F64.nan in
  let lon_out := F64.nan in
  let r_out := F64.nan in
  bit_code <- lift (method_bits method_code) ;;
  good <- test_height height bit_code ;;
  if negb good then ret (lat_out, lon_out, r_out) else
  in_lat <- lift (check_lat in_lat) ;;
  let in_lon := wrap_lon in_lon in
  set_time dtime ;;;
  try_except
    (native (CConvert in_lat in_lon height bit_code)
       (convert E in_lat in_lon height bit_code))
    (fun err =>
       log Warning (MsgConversionFailed in_lat in_lon height dtime bit_code
                      (exn_cls err)) ;;;
       ret (lat_out, lon_out, r_out)).

(** *** The array converter *)

(** "If one or two of these elements is a float or int, create an
    array". *)
Definition broadcast_inputs (in_lat in_lon height : ndarray)
  : M (ndarray * ndarray * ndarray) :=
  let r0 := rank in_lat in
  let r1 := rank in_lon in
  let r2 := rank height in
  if Nat.eqb (Nat.min r0 (Nat.min r1 r2)) 0 then
    if Nat.eqb (Nat.max r0 (Nat.max r1 r2)) 0 then
      log Warning MsgSingleLocation ;;;
      ret (np_array1 in_lat, np_array1 in_lon, np_array1 height)
    else
      let imax := if Nat.leb r1 r0 && Nat.leb r2 r0 then 0%nat
                  else if Nat.leb r2 r1 then 1%nat else 2%nat in
      let max_shape := if Nat.eqb imax 0 then shape in_lat
                       else if Nat.eqb imax 1 then shape in_lon
                       else shape height in
      let in_lat := if Nat.eqb r0 0 then np_full_of max_shape in_lat
                    else in_lat in
      let in_lon := if Nat.eqb r1 0 then np_full_of max_shape in_lon
                    else in_lon in
      let height := if Nat.eqb r2 0 then np_full_of max_shape height
                    else height in
      ret (in_lat, in_lon, height)
  else ret (in_lat, in_lon, height).

(** "Ensure that lat, lon, and height are the same length or if the
    lengths differ that the different ones contain only a single value".
    With two keys left the test reads the name [array_dict], which is not
    bound: looking it up raises before the comparison is made.  ([ulen]
    is computed and never used.) *)
Definition check_shapes (in_lat in_lon height : ndarray) : res unit :=
  if negb (shape_eqb (shape in_lat) (shape in_lon)
           && shape_eqb (shape in_lat) (shape height)) then
    let shape_dict := [("lat", shape in_lat); ("lon", shape in_lon);
                       ("height", shape height)] in
    let array_key :=
      map fst (filter (fun kv => negb (shape_eqb (snd kv) [1%nat]))
                 shape_dict) in
    if Nat.eqb (List.length array_key) 3 then
      Raise (Exn ValueError (Lit "lat, lon, and height arrays are mismatched"))
    else if Nat.eqb (List.length array_key) 2 then
      Raise (Exn NameError (Lit "name 'array_dict' is not defined"))
    else Ret tt
  else Ret tt.

(** "Test latitude range" of [convert_latlon_arr]. *)
Definition check_lat_arr (in_lat : ndarray) : res ndarray :=
  match np_abs_max in_lat with
  | Raise e => Raise e
  | Ret m =>
      if F64.gtb m f90 then
        if F64.gtb m f90_1
        then Raise (Exn ValueError (Lit "unrealistic latitude"))
        else Ret (mk_ndarray (shape in_lat)
                    (map (fun x => F64.np_clip x fm90 f90) (data in_lat)))
      else Ret in_lat
  end.

Definition wrap_lon_arr (in_lon : ndarray) : ndarray :=
  mk_ndarray (shape in_lon) (map wrap_lon (data in_lon)).

(** The loop of a ufunc built from [c_aacgmv2.convert]: one call per
    point, in order; the first call that raises ends it. *)
Fixpoint convert_each (pts : list (float * float * float)) (bit_code : Z)
  : M (list (float * float * float)) :=
  match pts with
  | [] => ret []
  | (a, b, c) :: rest =>
      r <- native (CConvert a b c bit_code) (convert E a b c bit_code) ;;
      rs <- convert_each rest bit_code ;;
      ret (r :: rs)
  end.

(** [np.vectorize(c_aacgmv2.convert)(in_lat, in_lon, height, bit_code)].
    Without [otypes], [np.vectorize] refuses empty inputs, calls the
    function once on the first elements to learn the number and types of
    the outputs, and then runs the ufunc over the broadcast inputs. *)
Definition convert_vectorised (in_lat in_lon height : ndarray)
    (bit_code : Z) : M (ndarray * ndarray * ndarray) :=
  match data in_lat, data in_lon, data height with
  | a :: _, b :: _, c :: _ =>
      native (CConvert a b c bit_code) (convert E a b c bit_code) ;;;
      match points in_lat in_lon height with
      | None =>
          raise (Exn ValueError
                   (Lit "operands could not be broadcast together"))
      | Some (t, pts) =>
          rs <- convert_each pts bit_code ;;
          ret (mk_ndarray t (map (fun r => fst (fst r)) rs),
               mk_ndarray t (map (fun r => snd (fst r)) rs),
               mk_ndarray t (map snd rs))
      end
  | _, _, _ =>
      raise (Exn ValueError
               (Lit "cannot call `vectorize` on size 0 inputs unless `otypes` is set"))
  end.

(** The array converter, in the order of the source: broadcast, shape
    test, time test, initial outputs, method code, height test on the
    maximum, latitude test, longitude wrap, epoch, vectorised call under
    [try]/[except].  The arguments arrive already recast by [np.array]. *)
Definition convert_latlon_arr (in_lat in_lon height : ndarray)
    (dtime : pytime) (method_code : method_arg)
  : M (ndarray * ndarray * ndarray) :=
  arrs <- broadcast_inputs in_lat in_lon height ;;
  let '(in_lat, in_lon, height) := arrs in
  lift (check_shapes in_lat in_lon height) ;;;
  dtime <- lift (test_time dtime) ;;
  let lat_out := np_full (shape in_lat) F64.nan in
  let lon_out := np_full (shape in_lon) F64.nan in
  let r_out := np_full (shape height) F64.nan in
  bit_code <- lift (method_bits method_code) ;;
  hmax <- lift (np_nanmax height) ;;
  good <- test_height hmax bit_code ;;
  if negb good then ret (lat_out, lon_out, r_out) else
  in_lat <- lift (check_lat_arr in_lat) ;;
  let in_lon := wrap_lon_arr in_lon in
  set_time dtime ;;;
  try_except
    (convert_vectorised in_lat in_lon height bit_code)
    (fun err =>
       log Warning (MsgVectorFailed dtime bit_code (exn_cls err)) ;;;
       ret (lat_out, lon_out, r_out)).

(** *** Magnetic local time *)

Fixpoint mlt_each (m2a : bool) (dtime : datetime) (xs : list float)
  : M (list float) :=
  match xs with
  | [] => ret []
  | x :: rest =>
      r <- (if m2a
            then native (CInvMltConvert dtime x) (inv_mlt_convert E dtime x)
            else native (CMltConvert dtime x) (mlt_convert E dtime x)) ;;
      rs <- mlt_each m2a dtime rest ;;
      ret (r :: rs)
  end.

Definition convert_mlt (arr : ndarray) (dtime : pytime) (m2a : bool)
  : M value :=
  dtime <- lift (test_time dtime) ;;
  match data arr with
  | [] =>
      raise (Exn ValueError
               (Lit "cannot call `vectorize` on size 0 inputs unless `otypes` is set"))
  | x :: _ =>
      (if m2a
       then native (CInvMltConvert dtime x) (inv_mlt_convert E dtime x)
       else native (CMltConvert dtime x) (mlt_convert E dtime x)) ;;;
      out <- mlt_each m2a dtime (data arr) ;;
      match shape arr, out with
      | [], v :: _ => ret (VFloat v)
      | _, _ => ret (VArray (mk_ndarray (shape arr) out))
      end
  end.

(** *** The coordinate facade *)

Definition get_aacgm_coord (glat glon height : float) (dtime : pytime)
    (method : string) : M (float * float * value) :=
  let method_code := ("G2A|" ++ method)%string in
  r <- convert_latlon glat glon height dtime (MStr method_code) ;;
  let '(mlat, mlon, _) := r in
  mlt <- (if F64.is_nan mlon then ret (VFloat F64.nan)
          else convert_mlt (scalar mlon) dtime false) ;;
  ret (mlat, mlon, mlt).

Definition get_aacgm_coord_arr (glat glon height : ndarray)
    (dtime : pytime) (method : string)
  : M (ndarray * ndarray * value) :=
  let method_code := ("G2A|" ++ method)%string in
  r <- convert_latlon_arr glat glon height dtime (MStr method_code) ;;
  let '(mlat, mlon, _) := r in
  mlt <- (if forallb F64.is_nan (data mlon)
          then ret (VArray (np_full (shape mlat) F64.nan))
          else convert_mlt mlon dtime false) ;;
  ret (mlat, mlon, mlt).

End Wrapper.

Arguments mk_world {E} _ _.
Arguments engine_state {E} _.
Arguments trace {E} _.
Arguments ret {E A} a w.
Arguments raise {E A} e w.
Arguments bind {E A B} m k w.
Arguments lift {E A} r w.
Arguments try_except {E A} m h w.
Arguments emit {E} ev w.
Arguments log {E} l m w.
Arguments native {E A} c f w.

(** ** Test doubles for the native engine *)

(** An engine that remembers the epoch it was given, echoes the point it is
    asked to convert, and raises on every latitude equal to [bad_lat]. *)
Definition stub_engine (bad_lat : float) : Engine := {|
  estate := option datetime;
  set_datetime := fun d _ => (Ret tt, Some d);
  convert := fun lat lon h _ st =>
    if F64.eqb lat bad_lat
    then (Raise (Exn RuntimeError (Lit "convert failed")), st)
    else (Ret (lat, lon, h), st);
  mlt_convert := fun _ mlon st => (Ret mlon, st);
  inv_mlt_convert := fun _ mlt st => (Ret mlt, st) |}.

(** The echoing engine that never raises (no latitude is NaN-equal). *)
Definition echo_engine : Engine := stub_engine F64.nan.

(** An engine whose conversion yields a missing longitude. *)
Definition nan_lon_engine : Engine := {|
  estate := option datetime;
  set_datetime := fun d _ => (Ret tt, Some d);
  convert := fun lat lon h _ st => (Ret (lat, F64.nan, h), st);
  mlt_convert := fun _ mlon st => (Ret mlon, st);
  inv_mlt_convert := fun _ mlt st => (Ret mlt, st) |}.

(** A call starts from an engine state and an empty trace. *)
Definition w0 (E : Engine) (st : estate E) : world E := mk_world st [].

Definition t2015 : pytime := PyDatetime (mk_datetime 2015 1 1 0 0 0).
Definition vec (l : list Z) : ndarray :=
  mk_ndarray [List.length l] (map F64.of_Z l).
Definition trace_lim : float := F64.of_Z 6378.

(** -180.00000000000003, the double just below -180: -(180 + 2^-45). *)
Definition lon_edge : float := S754_finite true 6333186975989761 (-45).
Definition fm180 : float := Eval vm_compute in F64.of_Z (-180).

(** 95.0 and 90.05. *)
Definition f95 : float := Eval vm_compute in F64.of_Z 95.
Definition f90_05 : float :=
  Eval vm_compute in F64.div (F64.of_Z 9005) (F64.of_Z 100).

(** The latitude array [[nan, 95.0]]. *)
Definition lat_nan_95 : ndarray := mk_ndarray [2%nat] [F64.nan; f95].

(** The height policy as the specification states it: a height above the
    coefficient threshold is blocked unless one of TRACE, ALLOWTRACE and
    BADIDEA is set, a height above the tracing ceiling is blocked unless
    BADIDEA is set. *)
Definition height_policy (high_alt_trace height : float) (bit_code : Z)
  : bool :=
  negb (F64.gtb height high_alt_coeff
        && (Z.eqb (Z.land bit_code TRACE) 0
            && Z.eqb (Z.land bit_code ALLOWTRACE) 0
            && Z.eqb (Z.land bit_code BADIDEA) 0))
  && negb (F64.gtb height high_alt_trace
           && Z.eqb (Z.land bit_code BADIDEA) 0).

Definition is_raised_call (e : event) : bool :=
  match e with EvCall _ false => true | _ => false end.

(** ** Specifications of runs, for the proofs *)

(** [run_spec Q m]: every run of [m] appends to the trace some events [evs]
    and ends in a result [r] with [Q evs r]. *)
Definition run_spec {E A} (Q : list event -> res A -> Prop) (m : M E A)
  : Prop :=
  forall w r w', m w = (r, w') ->
    exists evs, trace w' = trace w ++ evs /\ Q evs r.

(** Runs that only add events of one kind. *)
Definition only {E A} (P : event -> Prop) (m : M E A) : Prop :=
  run_spec (fun evs _ => Forall P evs) m.

(** A convert call that raised. *)
Definition is_failed_convert (e : event) : bool :=
  match e with
  | EvCall (CConvert _ _ _ _) false => true
  | _ => false
  end.

Definition all_nan (a : ndarray) : Prop :=
  Forall (fun x => F64.is_nan x = true) (data a).

(** The outcome "all three outputs returned, every element NaN". *)
Definition nan_result (r : res (ndarray * ndarray * ndarray)) : Prop :=
  exists lat_out lon_out r_out,
    r = Ret (lat_out, lon_out, r_out)
    /\ all_nan lat_out /\ all_nan lon_out /\ all_nan r_out.

(** Runs that, when they return, have only added events of one kind. *)
Definition ok_only {E A} (P : event -> Prop) (m : M E A) : Prop :=
  run_spec (fun evs r => returned r = true -> Forall P evs) m.

(** The warning of the array converter about a failed vectorised call. *)
Definition is_vector_warning (e : event) : bool :=
  match e with
  | EvLog Warning (MsgVectorFailed _ _ _) => true
  | _ => false
  end.

(** Runs in which a failed convert call forces the all-NaN outcome and the
    warning. *)
Definition failed_then_nan {E}
    (m : M E (ndarray * ndarray * ndarray)) : Prop :=
  run_spec (fun evs r =>
              Exists (fun ev => is_failed_convert ev = true) evs ->
              nan_result r
              /\ Exists (fun ev => is_vector_warning ev = true) evs) m.

(** Whether the text of an exception mentions a name. *)
Definition mentions (name : string) (e : exn) : bool :=
  match e with
  | Exn _ (Lit msg) =>
      match index 0 name msg with Some _ => true | None => false end
  | _ => false
  end.

(** ** The order of the floats, for the proofs *)

(** Every value that is not NaN has a key in [Z * Z * Z]; [SFcompare] is the
    lexicographic comparison of keys. *)
Module F64Order.

Definition key (x : float) : Z * Z * Z :=
  match x with
  | S754_nan => (0, 0, 0)
  | S754_zero _ => (0, 0, 0)
  | S754_infinity true => (-2, 0, 0)
  | S754_infinity false => (2, 0, 0)
  | S754_finite true m e => (-1, - e, Zneg m)
  | S754_finite false m e => (1, e, Zpos m)
  end.

Definition klt (a b : Z * Z * Z) : Prop :=
  let '(a1, a2, a3) := a in
  let '(b1, b2, b3) := b in
  a1 < b1 \/ (a1 = b1 /\ (a2 < b2 \/ (a2 = b2 /\ a3 < b3))).

Definition kle (a b : Z * Z * Z) : Prop := klt a b \/ a = b.

End F64Order.

(** ** Definitions for the further properties *)

(** The method string that names the flags of [convert_bool_to_bit]. *)
Definition flags_string (a2g trace allowtrace badidea geocentric : bool)
  : string :=
  ((if a2g then "A2G" else "G2A")
     ++ (if trace then "|TRACE" else "")
     ++ (if allowtrace then "|ALLOWTRACE" else "")
     ++ (if badidea then "|BADIDEA" else "")
     ++ (if geocentric then "|GEOCENTRIC" else ""))%string.

(** The one-element array [[x]], of shape [(1,)]. *)
Definition vec1 (x : float) : ndarray := mk_ndarray [1%nat] [x].

(** How many of the three shapes are not the one-element shape. *)
Definition array_keys (in_lat in_lon height : ndarray) : nat :=
  List.length
    (filter (fun s => negb (shape_eqb s [1%nat]))
       [shape in_lat; shape in_lon; shape height]).

(** A call of the convert primitive, whatever its outcome. *)
Definition is_convert_call (e : event) : bool :=
  match e with EvCall (CConvert _ _ _ _) _ => true | _ => false end.

(** Whether two floats are the same value, bit for bit (NaN is the same as
    NaN, and +0 is not -0). *)
Definition float_same (x y : float) : bool :=
  match x, y with
  | S754_zero s, S754_zero s' => Bool.eqb s s'
  | S754_infinity s, S754_infinity s' => Bool.eqb s s'
  | S754_nan, S754_nan => true
  | S754_finite s m e, S754_finite s' m' e' =>
      Bool.eqb s s' && Pos.eqb m m' && Z.eqb e e'
  | _, _ => false
  end.

(** The whole numbers from [-k] to [k]. *)
Definition whole_numbers (k : nat) : list Z :=
  map (fun i => Z.of_nat i - Z.of_nat k) (seq 0 (2 * k + 1)).

(** On the whole-degree longitude [n]: the wrap is the mathematical one,
    lands in [-180, 180) and is a fixed point of the wrap. *)
Definition wrap_lon_exact_at (n : Z) : bool :=
  let y := wrap_lon (F64.of_Z n) in
  float_same y (F64.of_Z ((n + 180) mod 360 - 180))
  && F64.leb fm180 y && F64.ltb y f180
  && float_same (wrap_lon y) y.


(** ** The decoding of a method string, worded independently

    The reading of the specification, written without the functions of the
    decoder: a method string is a list of tokens joined by pipes; a token
    reads as a flag name when, its spaces left out, it spells the name
    letter by letter in either case; the code is the sum of the values of
    the flags its tokens read as, a token that reads as no flag counting
    for nothing. *)

(** The flags and their values. *)
Definition flag_values : list (string * Z) :=
  [("G2A", 0); ("A2G", 1); ("TRACE", 2); ("ALLOWTRACE", 4); ("BADIDEA", 8);
   ("GEOCENTRIC", 16)].

(** [c] is the character [d], or [d] is a capital letter and [c] the small
    one. *)
Definition same_letter (c d : ascii) : bool :=
  Ascii.eqb c d
  || ((65 <=? nat_of_ascii d)%nat && (nat_of_ascii d <=? 90)%nat
      && (nat_of_ascii c =? nat_of_ascii d + 32)%nat).

Fixpoint reads_as (t name : string) : bool :=
  match t with
  | EmptyString => match name with EmptyString => true | _ => false end
  | String c t' =>
      if Ascii.eqb c " " then reads_as t' name
      else match name with
           | EmptyString => false
           | String d name' => same_letter c d && reads_as t' name'
           end
  end.

Definition flag_of_token (t : string) : Z :=
  match find (fun nv => reads_as t (fst nv)) flag_values with
  | Some nv => snd nv
  | None => 0
  end.

Definition decode_tokens (ts : list string) : Z :=
  fold_right Z.add 0 (map flag_of_token ts).

(** A token holds no pipe. *)
Fixpoint no_pipe (t : string) : bool :=
  match t with
  | EmptyString => true
  | String c t' => negb (Ascii.eqb c "|") && no_pipe t'
  end.

(** A character that is neither a space nor a small letter, and a name made
    of such characters. *)
Definition plain_char (d : ascii) : bool :=
  negb (Ascii.eqb d " ")
  && negb ((97 <=? nat_of_ascii d)%nat && (nat_of_ascii d <=? 122)%nat).

Fixpoint plain (name : string) : bool :=
  match name with
  | EmptyString => true
  | String d name' => plain_char d && plain name'
  end.

(** All the characters. *)
Definition all_ascii : list ascii := map ascii_of_nat (seq 0 256).

(** ** The points of a batch, worded independently

    After the shape test the three arrays have one common shape, but for
    those of shape [(1,)], whose one element serves every point. *)

(** An array holds as many elements as its shape says, as every numpy
    array does. *)
Definition well_formed (a : ndarray) : Prop :=
  List.length (data a) = size (shape a).

(** The shape of the batch: that of the first array that is not of shape
    [(1,)], if there is one. *)
Definition batch_shape (in_lat in_lon height : ndarray) : list nat :=
  if negb (shape_eqb (shape in_lat) [1%nat]) then shape in_lat
  else if negb (shape_eqb (shape in_lon) [1%nat]) then shape in_lon
  else shape height.

(** The element of [a] that belongs to the point of index [i]. *)
Definition elt (a : ndarray) (i : nat) : float :=
  nth (if shape_eqb (shape a) [1%nat] then 0%nat else i) (data a) F64.nan.

Definition batch_points (in_lat in_lon height : ndarray)
  : list (float * float * float) :=
  map (fun i => (elt in_lat i, elt in_lon i, elt height i))
    (seq 0 (size (batch_shape in_lat in_lon height))).

(** The points a vectorised call asks the engine about, in order: the
    first point once more in front, as the probe of [np.vectorize]. *)
Definition attempts {A} (pts : list A) : list A :=
  match pts with
  | [] => []
  | p :: _ => p :: pts
  end.

(** The record of a call of [convert] on a point. *)
Definition convert_call (bit_code : Z) (ok : bool)
    (p : float * float * float) : event :=
  let '(a, b, c) := p in EvCall (CConvert a b c bit_code) ok.

(** * Facts about the float comparisons *)

(** *** The embedding on known values *)

Example f90_1_bits : f90_1 = S754_finite false 6340223850407526 (-46).
Proof. reflexivity. Qed.

(** [((x + 180.0) % 360.0) - 180.0] at 190, 180, 725 and -700.1 gives
    -170, -180, 5 and 19.899999999999977. *)
Example wrap_lon_values :
  wrap_lon (F64.of_Z 190) = F64.of_Z (-170)
  /\ wrap_lon (F64.of_Z 180) = F64.of_Z (-180)
  /\ wrap_lon (F64.of_Z 725) = F64.of_Z 5
  /\ wrap_lon (F64.div (F64.of_Z (-7001)) (F64.of_Z 10))
     = S754_finite false 5601352036542048 (-48).
Proof. repeat split; vm_compute; reflexivity. Qed.

(** A benign point goes through the scalar converter untouched: with the
    echoing engine the call returns the triple it was given. *)
Example convert_latlon_echo :
  fst (convert_latlon echo_engine trace_lim (F64.of_Z 45) (F64.of_Z (-70))
         (F64.of_Z 300) t2015 (MStr "G2A") (w0 echo_engine None))
  = Ret (F64.of_Z 45, F64.of_Z (-70), F64.of_Z 300).
Proof. vm_compute. reflexivity. Qed.

(** Broadcasting lat = 5.0, lon = [10, 20, 30], height = 100.0 gives three
    arrays of length 3. *)
Example broadcast_inputs_fill :
  fst (broadcast_inputs echo_engine (scalar (F64.of_Z 5)) (vec [10; 20; 30])
         (scalar (F64.of_Z 100)) (w0 echo_engine None))
  = Ret (vec [5; 5; 5], vec [10; 20; 30], vec [100; 100; 100]).
Proof. vm_compute. reflexivity. Qed.

(** numpy's broadcasting of a column against a row. *)
Example broadcast_column_row :
  broadcast_shapes [2; 1]%nat [3%nat] = Some [2; 3]%nat
  /\ data (broadcast_to (mk_ndarray [2; 1]%nat [F64.of_Z 1; F64.of_Z 2])
             [2; 3]%nat)
     = map F64.of_Z [1; 1; 1; 2; 2; 2]
  /\ data (broadcast_to (vec [1; 2; 3]) [2; 3]%nat)
     = map F64.of_Z [1; 2; 3; 1; 2; 3].
Proof. repeat split. Qed.

Module F64Facts.
Import F64Order.

Lemma compare_finite_pos m1 e1 m2 e2 :
  SFcompare (S754_finite false m1 e1) (S754_finite false m2 e2)
  = Some (match e1 ?= e2 with
          | Eq => Z.pos m1 ?= Z.pos m2
          | c => c
          end).
Proof. simpl. destruct (e1 ?= e2); reflexivity. Qed.

Lemma compare_finite_neg m1 e1 m2 e2 :
  SFcompare (S754_finite true m1 e1) (S754_finite true m2 e2)
  = Some (match - e1 ?= - e2 with
          | Eq => Z.neg m1 ?= Z.neg m2
          | c => c
          end).
Proof.
  simpl. rewrite Z.compare_opp, (Z.compare_antisym e1 e2).
  destruct (e1 ?= e2); reflexivity.
Qed.

Lemma ltb_key x y :
  F64.is_nan x = false -> F64.is_nan y = false ->
  (F64.ltb x y = true <-> klt (key x) (key y)).
Proof.
  intros Hx Hy. unfold F64.ltb, SFltb.
  destruct x as [sx|sx| |sx mx ex]; try discriminate;
    destruct y as [sy|sy| |sy my ey]; try discriminate;
    try destruct sx; try destruct sy;
    try rewrite compare_finite_pos; try rewrite compare_finite_neg;
    try (simpl; split; [discriminate | lia]);
    try (simpl; split; [lia | reflexivity]).
  - unfold key, klt.
    destruct (Z.compare_spec (- ex) (- ey));
      [destruct (Z.compare_spec (Z.neg mx) (Z.neg my))| |];
      split; try discriminate; try reflexivity; lia.
  - unfold key, klt.
    destruct (Z.compare_spec ex ey);
      [destruct (Z.compare_spec (Z.pos mx) (Z.pos my))| |];
      split; try discriminate; try reflexivity; lia.
Qed.

Lemma leb_key x y :
  F64.is_nan x = false -> F64.is_nan y = false ->
  (SFleb x y = true <-> kle (key x) (key y)).
Proof.
  intros Hx Hy. unfold SFleb, kle.
  destruct x as [sx|sx| |sx mx ex]; try discriminate;
    destruct y as [sy|sy| |sy my ey]; try discriminate;
    try destruct sx; try destruct sy;
    try rewrite compare_finite_pos; try rewrite compare_finite_neg;
    try (simpl; split; [discriminate | intros [?|?]; [lia|discriminate]]);
    try (simpl; split; [intros _; left; lia | reflexivity]);
    try (simpl; split; [intros _; right; reflexivity | reflexivity]).
  - unfold key, klt.
    destruct (Z.compare_spec (- ex) (- ey));
      [destruct (Z.compare_spec (Z.neg mx) (Z.neg my))| |];
      split; try discriminate; try reflexivity;
      try (intros _; left; lia);
      try (intros _; right; f_equal; [f_equal; lia | congruence]);
      intros [?|Heq]; try lia; inversion Heq; lia.
  - unfold key, klt.
    destruct (Z.compare_spec ex ey);
      [destruct (Z.compare_spec (Z.pos mx) (Z.pos my))| |];
      split; try discriminate; try reflexivity;
      try (intros _; left; lia);
      try (intros _; right; f_equal; [f_equal; lia | congruence]);
      intros [?|Heq]; try lia; inversion Heq; lia.
Qed.

End F64Facts.

(** * The latitude test *)

Section Latitude.
Import F64Order F64Facts.

Lemma abs_not_nan x : F64.is_nan (F64.abs x) = F64.is_nan x.
Proof. destruct x; reflexivity. Qed.

Lemma gtb_nan_l x : F64.gtb F64.nan x = false.
Proof. destruct x; reflexivity. Qed.

Lemma gtb_not_nan x c : F64.gtb x c = true -> F64.is_nan x = false.
Proof. destruct x; try reflexivity. destruct c; discriminate. Qed.

Lemma leb_not_nan x c : SFleb x c = true -> F64.is_nan x = false.
Proof. destruct x; try reflexivity. discriminate. Qed.

(** Above 90.1 is above 90. *)
Lemma above_tolerance_above_90 x :
  F64.gtb x f90_1 = true -> F64.gtb x f90 = true.
Proof.
  intros H. pose proof (gtb_not_nan _ _ H) as Hn.
  unfold F64.gtb in *.
  apply (ltb_key f90_1 x eq_refl Hn) in H.
  apply (ltb_key f90 x eq_refl Hn).
  change (key f90_1) with (1, -46, 6340223850407526) in H.
  change (key f90) with (1, -46, 6333186975989760).
  unfold klt in *. destruct (key x) as [[k1 k2] k3]. lia.
Qed.

(** [np.sign] of a value beyond 90 in magnitude. *)
Lemma sign_times_90 x :
  F64.gtb (F64.abs x) f90 = true ->
  F64.mul (F64.np_sign x) f90 = if F64.ltb x f0 then fm90 else f90.
Proof.
  destruct x as [s|s| |s m e]; try discriminate; destruct s; intros _;
    reflexivity.
Qed.

Lemma check_lat_reject x :
  F64.gtb (F64.abs x) f90_1 = true ->
  check_lat x = Raise (Exn ValueError (Lit "unrealistic latitude")).
Proof.
  intros H. unfold check_lat.
  rewrite (above_tolerance_above_90 _ H), H. reflexivity.
Qed.

Lemma check_lat_clamp x :
  F64.gtb (F64.abs x) f90 = true ->
  F64.gtb (F64.abs x) f90_1 = false ->
  check_lat x = Ret (if F64.ltb x f0 then fm90 else f90).
Proof.
  intros H1 H2. unfold check_lat. rewrite H1, H2.
  now rewrite sign_times_90.
Qed.

Lemma check_lat_pass x :
  F64.gtb (F64.abs x) f90 = false -> check_lat x = Ret x.
Proof. intros H. unfold check_lat. now rewrite H. Qed.

Lemma check_lat_idempotent x y :
  check_lat x = Ret y -> check_lat y = Ret y.
Proof.
  unfold check_lat at 1.
  destruct (F64.gtb (F64.abs x) f90) eqn:H1.
  - destruct (F64.gtb (F64.abs x) f90_1) eqn:H2; [discriminate|].
    rewrite sign_times_90 by assumption.
    intros [= <-]. destruct (F64.ltb x f0); reflexivity.
  - intros [= <-]. now apply check_lat_pass.
Qed.

Lemma ltb_true_key a b :
  F64.ltb a b = true -> klt (key a) (key b).
Proof.
  intros H. apply ltb_key; trivial.
  - destruct a; try reflexivity; discriminate.
  - destruct a, b; try reflexivity; discriminate.
Qed.

Lemma ltb_false_key a b :
  F64.is_nan a = false -> F64.is_nan b = false ->
  F64.ltb a b = false -> ~ klt (key a) (key b).
Proof.
  intros Ha Hb H K. apply (ltb_key a b Ha Hb) in K. congruence.
Qed.

Lemma key_f90 : key f90 = (1, -46, 6333186975989760).
Proof. reflexivity. Qed.
Lemma key_fm90 : key fm90 = (-1, 46, -6333186975989760).
Proof. reflexivity. Qed.
Lemma key_f90_1 : key f90_1 = (1, -46, 6340223850407526).
Proof. reflexivity. Qed.

(** On a latitude of magnitude at most 90.1 the scalar test and the
    element-wise clip agree. *)
Lemma check_lat_is_clip x :
  SFleb (F64.abs x) f90_1 = true ->
  check_lat x = Ret (F64.np_clip x fm90 f90).
Proof.
  intros Hle.
  assert (Hn : F64.is_nan x = false)
    by (rewrite <- abs_not_nan; eapply leb_not_nan; eassumption).
  assert (H2 : F64.gtb (F64.abs x) f90_1 = false).
  { destruct (F64.gtb (F64.abs x) f90_1) eqn:G; trivial.
    apply ltb_true_key in G.
    apply leb_key in Hle; [|now rewrite abs_not_nan|reflexivity].
    rewrite key_f90_1 in *. unfold kle, klt in *.
    destruct (key (F64.abs x)) as [[k1 k2] k3].
    destruct Hle as [?|[= -> -> ->]]; lia. }
  destruct (F64.gtb (F64.abs x) f90) eqn:H1.
  - rewrite (check_lat_clamp _ H1 H2). f_equal.
    apply ltb_true_key in H1. rewrite key_f90 in H1.
    unfold F64.np_clip. rewrite Hn.
    destruct x as [s|s| |s m e]; try discriminate; destruct s;
      try (simpl in H1; lia); try discriminate.
    + (* negative: at or below -90 *)
      replace (F64.gtb (S754_finite true m e) fm90) with false.
      * reflexivity.
      * symmetry. destruct (F64.gtb (S754_finite true m e) fm90) eqn:G;
          trivial.
        apply ltb_true_key in G. rewrite key_fm90 in G.
        simpl in H1, G. lia.
    + (* positive: at or above 90 *)
      change (F64.gtb (S754_finite false m e) fm90) with true.
      cbv beta iota zeta.
      change (F64.is_nan (S754_finite false m e)) with false.
      destruct (F64.ltb (S754_finite false m e) f90) eqn:G.
      * apply ltb_true_key in G. rewrite key_f90 in G.
        simpl in H1, G. lia.
      * reflexivity.
  - rewrite (check_lat_pass _ H1). f_equal.
    apply ltb_false_key in H1; [|reflexivity|now rewrite abs_not_nan].
    rewrite key_f90 in H1.
    unfold F64.np_clip. rewrite Hn.
    destruct x as [s|s| |s m e]; try discriminate; try reflexivity;
      destruct s; try (exfalso; apply H1; simpl; lia).
    + (* negative, not below -90 *)
      destruct (F64.gtb (S754_finite true m e) fm90) eqn:G.
      * reflexivity.
      * apply ltb_false_key in G; try reflexivity.
        rewrite key_fm90 in G. simpl in H1, G.
        assert (e = -46) by lia. subst e.
        assert (m = 6333186975989760%positive) by lia. subst m.
        reflexivity.
    + change (F64.gtb (S754_finite false m e) fm90) with true.
      cbv beta iota zeta.
      change (F64.is_nan (S754_finite false m e)) with false.
      destruct (F64.ltb (S754_finite false m e) f90) eqn:G.
      * reflexivity.
      * apply ltb_false_key in G; try reflexivity.
        rewrite key_f90 in G. simpl in H1, G.
        assert (e = -46) by lia. subst e.
        assert (m = 6333186975989760%positive) by lia. subst m.
        reflexivity.
Qed.

(** *** The maximum of the magnitudes *)

Lemma maximum_cases a b :
  F64.is_nan a = false -> F64.is_nan b = false ->
  (F64.np_maximum a b = a /\ SFleb b a = true)
  \/ (F64.np_maximum a b = b /\ F64.ltb a b = true).
Proof.
  intros Ha Hb. unfold F64.np_maximum, F64.geb. rewrite Ha, orb_false_r.
  destruct (SFleb b a) eqn:L; [now left | right; split; trivial].
  apply ltb_key; trivial.
  assert (N : ~ kle (key b) (key a))
    by (intros K; apply (leb_key b a Hb Ha) in K; congruence).
  unfold kle, klt in *.
  destruct (key a) as [[a1 a2] a3], (key b) as [[b1 b2] b3].
  assert ((b1, b2, b3) <> (a1, a2, a3)) by tauto.
  assert (b1 <> a1 \/ b2 <> a2 \/ b3 <> a3)
    by (destruct (Z.eq_dec b1 a1), (Z.eq_dec b2 a2), (Z.eq_dec b3 a3);
        subst; tauto).
  lia.
Qed.

Lemma gtb_maximum c a b :
  F64.is_nan c = false -> F64.is_nan a = false -> F64.is_nan b = false ->
  F64.gtb (F64.np_maximum a b) c = F64.gtb a c || F64.gtb b c.
Proof.
  intros Hc Ha Hb.
  assert (T : forall x y, F64.is_nan x = false -> F64.is_nan y = false ->
                kle (key x) (key y) -> F64.gtb x c = true ->
                F64.gtb y c = true).
  { intros x y Hx Hy K G. unfold F64.gtb in *.
    apply ltb_true_key in G. apply ltb_key; trivial.
    unfold kle, klt in *.
    destruct (key x) as [[x1 x2] x3], (key y) as [[y1 y2] y3],
      (key c) as [[c1 c2] c3].
    destruct K as [K|[= -> -> ->]]; lia. }
  destruct (maximum_cases a b Ha Hb) as [[-> L]|[-> L]].
  - apply (leb_key b a Hb Ha) in L.
    destruct (F64.gtb b c) eqn:G; [|now rewrite orb_false_r].
    now rewrite (T b a Hb Ha L G).
  - apply ltb_true_key in L.
    destruct (F64.gtb a c) eqn:G; [|reflexivity].
    apply (T a b Ha Hb (or_introl L) G).
Qed.

Lemma maximum_not_nan a b :
  F64.is_nan a = false -> F64.is_nan b = false ->
  F64.is_nan (F64.np_maximum a b) = false.
Proof.
  intros Ha Hb. now destruct (maximum_cases a b Ha Hb) as [[-> _]|[-> _]].
Qed.

(** Without NaN, the maximum is above a bound exactly when an element
    is. *)
Lemma gtb_fold_maximum c xs :
  F64.is_nan c = false ->
  forall x, Forall (fun y => F64.is_nan y = false) (x :: xs) ->
  F64.gtb (fold_left F64.np_maximum xs x) c
  = existsb (fun y => F64.gtb y c) (x :: xs).
Proof.
  intros Hc. induction xs as [|a xs IH]; intros x Hall.
  - simpl. now rewrite orb_false_r.
  - inversion Hall as [|? ? Hx Hrest]; subst.
    inversion Hrest as [|? ? Ha Hxs]; subst.
    change (fold_left F64.np_maximum (a :: xs) x)
      with (fold_left F64.np_maximum xs (F64.np_maximum x a)).
    rewrite IH by (constructor; [now apply maximum_not_nan | assumption]).
    simpl. rewrite gtb_maximum by assumption. now rewrite orb_assoc.
Qed.

Lemma within_tolerance_not_above x :
  SFleb (F64.abs x) f90_1 = true -> F64.gtb (F64.abs x) f90_1 = false.
Proof.
  intros Hle. destruct (F64.gtb (F64.abs x) f90_1) eqn:G; trivial.
  apply ltb_true_key in G.
  apply leb_key in Hle;
    [|rewrite abs_not_nan, <- abs_not_nan; eapply leb_not_nan; eassumption
     |reflexivity].
  rewrite key_f90_1 in *. unfold kle, klt in *.
  destruct (key (F64.abs x)) as [[k1 k2] k3].
  destruct Hle as [?|[= -> -> ->]]; lia.
Qed.

(** The array test on a non-empty array without NaN: it raises exactly
    when an element is beyond 90.1. *)
Lemma check_lat_arr_reject a :
  Forall (fun x => F64.is_nan x = false) (data a) ->
  Exists (fun x => F64.gtb (F64.abs x) f90_1 = true) (data a) ->
  check_lat_arr a = Raise (Exn ValueError (Lit "unrealistic latitude")).
Proof.
  intros Hn Hex. unfold check_lat_arr, np_abs_max.
  destruct (data a) as [|x xs] eqn:D; [inversion Hex|].
  change (map F64.abs (x :: xs)) with (F64.abs x :: map F64.abs xs).
  cbv beta iota.
  assert (Hn' : Forall (fun y => F64.is_nan y = false)
                  (F64.abs x :: map F64.abs xs)).
  { change (F64.abs x :: map F64.abs xs) with (map F64.abs (x :: xs)).
    apply Forall_map. eapply Forall_impl; [|exact Hn].
    intros y Hy. now rewrite abs_not_nan. }
  assert (G : F64.gtb (fold_left F64.np_maximum (map F64.abs xs) (F64.abs x))
                f90_1 = true).
  { rewrite gtb_fold_maximum by (trivial; reflexivity).
    change (F64.abs x :: map F64.abs xs) with (map F64.abs (x :: xs)).
    apply existsb_exists. apply Exists_exists in Hex.
    destruct Hex as [y [Hy Gy]]. exists (F64.abs y). split; trivial.
    now apply in_map. }
  now rewrite (above_tolerance_above_90 _ G), G.
Qed.

End Latitude.

(** * Runs of the wrapper *)

Lemma filter_none {A} (f : A -> bool) l :
  Forall (fun x => f x = false) l -> filter f l = [].
Proof.
  induction 1 as [|x l Hx _ IH]; [reflexivity|]. simpl. now rewrite Hx.
Qed.

Section Runs.

Variable E : Engine.

Lemma run_spec_weaken {A} (Q Q' : list event -> res A -> Prop) (m : M E A) :
  run_spec Q m -> (forall evs r, Q evs r -> Q' evs r) -> run_spec Q' m.
Proof.
  intros Hm HQ w r w' Hrun. destruct (Hm w r w' Hrun) as [evs [Ht Hq]].
  eauto.
Qed.

Lemma run_spec_ret {A} (a : A) :
  run_spec (fun evs r => evs = [] /\ r = Ret a) (ret (E := E) a).
Proof.
  intros w r w' [= <- <-]. exists []. now rewrite app_nil_r.
Qed.

Lemma run_spec_raise {A} (e : exn) :
  run_spec (fun evs (r : res A) => evs = [] /\ r = Raise e)
    (raise (E := E) e).
Proof.
  intros w r w' [= <- <-]. exists []. now rewrite app_nil_r.
Qed.

Lemma run_spec_lift {A} (x : res A) :
  run_spec (fun evs r => evs = [] /\ r = x) (lift (E := E) x).
Proof.
  intros w r w' [= <- <-]. exists []. now rewrite app_nil_r.
Qed.

Lemma run_spec_emit (ev : event) :
  run_spec (fun evs r => evs = [ev] /\ r = Ret tt) (emit (E := E) ev).
Proof. intros w r w' [= <- <-]. now exists [ev]. Qed.

Lemma run_spec_native {A} (c : call) (f : estate E -> res A * estate E) :
  run_spec (fun evs r => evs = [EvCall c (returned r)]) (native c f).
Proof.
  intros w r w'. unfold native. destruct (f (engine_state w)) as [r0 st].
  intros [= <- <-]. now exists [EvCall c (returned r0)].
Qed.

Lemma run_spec_bind {A B} (Qm : list event -> res A -> Prop)
    (Qk : A -> list event -> res B -> Prop)
    (Q : list event -> res B -> Prop) (m : M E A) (k : A -> M E B) :
  run_spec Qm m ->
  (forall a, run_spec (Qk a) (k a)) ->
  (forall evs e, Qm evs (Raise e) -> Q evs (Raise e)) ->
  (forall evs1 a evs2 r, Qm evs1 (Ret a) -> Qk a evs2 r -> Q (evs1 ++ evs2) r) ->
  run_spec Q (bind m k).
Proof.
  intros Hm Hk Hraise Hret w r w'. unfold bind.
  destruct (m w) as [[a|e] w1] eqn:Rm; intros Hrun.
  - destruct (Hm _ _ _ Rm) as [evs1 [T1 Q1]].
    destruct (Hk a _ _ _ Hrun) as [evs2 [T2 Q2]].
    exists (evs1 ++ evs2). split; [|eauto].
    now rewrite T2, T1, app_assoc.
  - injection Hrun as <- <-.
    destruct (Hm _ _ _ Rm) as [evs1 [T1 Q1]]. eauto.
Qed.

Lemma run_spec_try {A} (Qm : list event -> res A -> Prop)
    (Qh : exn -> list event -> res A -> Prop)
    (Q : list event -> res A -> Prop) (m : M E A) (h : exn -> M E A) :
  run_spec Qm m ->
  (forall e, run_spec (Qh e) (h e)) ->
  (forall evs a, Qm evs (Ret a) -> Q evs (Ret a)) ->
  (forall evs1 e evs2 r, Qm evs1 (Raise e) -> Qh e evs2 r ->
                         Q (evs1 ++ evs2) r) ->
  run_spec Q (try_except m h).
Proof.
  intros Hm Hh Hret Hraise w r w'. unfold try_except.
  destruct (m w) as [[a|e] w1] eqn:Rm; intros Hrun.
  - injection Hrun as <- <-.
    destruct (Hm _ _ _ Rm) as [evs1 [T1 Q1]]. eauto.
  - destruct (Hm _ _ _ Rm) as [evs1 [T1 Q1]].
    destruct (Hh e _ _ _ Hrun) as [evs2 [T2 Q2]].
    exists (evs1 ++ evs2). split; [|eauto].
    now rewrite T2, T1, app_assoc.
Qed.

(** *** Runs that only add events of one kind *)

Lemma only_ret P {A} (a : A) : only P (ret (E := E) a).
Proof.
  eapply run_spec_weaken; [apply run_spec_ret|]. now intros evs r [-> _].
Qed.

Lemma only_raise P {A} (e : exn) : only P (raise (E := E) (A := A) e).
Proof.
  eapply run_spec_weaken; [apply run_spec_raise|]. now intros evs r [-> _].
Qed.

Lemma only_lift P {A} (x : res A) : only P (lift (E := E) x).
Proof.
  eapply run_spec_weaken; [apply run_spec_lift|]. now intros evs r [-> _].
Qed.

Lemma only_emit (P : event -> Prop) ev : P ev -> only P (emit (E := E) ev).
Proof.
  intros Hp. eapply run_spec_weaken; [apply run_spec_emit|].
  intros evs r [-> _]. now constructor.
Qed.

Lemma only_log (P : event -> Prop) l m :
  P (EvLog l m) -> only P (log (E := E) l m).
Proof. apply only_emit. Qed.

Lemma only_native (P : event -> Prop) {A} c
    (f : estate E -> res A * estate E) :
  (forall b, P (EvCall c b)) -> only P (native c f).
Proof.
  intros Hp. eapply run_spec_weaken; [apply run_spec_native|].
  intros evs r ->. now constructor.
Qed.

Lemma only_bind P {A B} (m : M E A) (k : A -> M E B) :
  only P m -> (forall a, only P (k a)) -> only P (bind m k).
Proof.
  intros Hm Hk.
  eapply run_spec_bind with (Qk := fun _ evs _ => Forall P evs);
    [exact Hm | exact Hk | trivial |].
  intros evs1 a evs2 r H1 H2. apply Forall_app. now split.
Qed.

Lemma only_try P {A} (m : M E A) (h : exn -> M E A) :
  only P m -> (forall e, only P (h e)) -> only P (try_except m h).
Proof.
  intros Hm Hh.
  eapply run_spec_try with (Qh := fun _ evs _ => Forall P evs);
    [exact Hm | exact Hh | trivial |].
  intros evs1 a evs2 r H1 H2. apply Forall_app. now split.
Qed.

End Runs.

(** Decomposes a goal [only P m] along the structure of [m]; what is left
    are the events themselves. *)
Ltac only_steps :=
  repeat first
    [ apply only_ret | apply only_raise | apply only_lift
    | apply only_log | apply only_emit
    | apply only_native; intros
    | apply only_bind; [|intros]
    | apply only_try; [|intros]
    | match goal with
      | |- only _ (if ?b then _ else _) => destruct b
      | |- only _ (match ?x with _ => _ end) => destruct x
      end ].

Section RunsOfTheWrapper.

Variable E : Engine.
Variable lim : float.

Lemma only_test_height (P : event -> Prop) h b :
  (forall l m, P (EvLog l m)) -> only P (test_height E lim h b).
Proof. intros Hlog. unfold test_height. only_steps; apply Hlog. Qed.

Lemma only_set_time (P : event -> Prop) d :
  (forall b, P (EvCall (CSetDatetime d) b)) -> only P (set_time E d).
Proof. intros Hc. unfold set_time. only_steps; apply Hc. Qed.

Lemma only_broadcast_inputs (P : event -> Prop) a b c :
  (forall l m, P (EvLog l m)) -> only P (broadcast_inputs E a b c).
Proof. intros Hlog. unfold broadcast_inputs. only_steps; apply Hlog. Qed.

(** The scalar converter calls no MLT primitive. *)
Lemma convert_latlon_no_mlt in_lat in_lon h dtime method :
  only (fun ev => is_mlt_call ev = false)
    (convert_latlon E lim in_lat in_lon h dtime method).
Proof.
  unfold convert_latlon.
  only_steps;
    try (apply only_test_height; reflexivity);
    try (apply only_set_time; reflexivity);
    reflexivity.
Qed.

End RunsOfTheWrapper.

(** * A failed conversion in the array converter *)

Section FailedConversion.

Variable E : Engine.
Variable lim : float.

Lemma ok_only_ret P {A} (a : A) : ok_only P (ret (E := E) a).
Proof.
  eapply run_spec_weaken; [apply run_spec_ret|]. now intros evs r [-> _] _.
Qed.

Lemma ok_only_raise P {A} (e : exn) : ok_only P (raise (E := E) (A := A) e).
Proof.
  eapply run_spec_weaken; [apply run_spec_raise|]. now intros evs r [-> _] _.
Qed.

Lemma ok_only_native (P : event -> Prop) {A} c
    (f : estate E -> res A * estate E) :
  P (EvCall c true) -> ok_only P (native c f).
Proof.
  intros Hp. eapply run_spec_weaken; [apply run_spec_native|].
  intros evs r -> ->. now constructor.
Qed.

Lemma ok_only_bind P {A B} (m : M E A) (k : A -> M E B) :
  ok_only P m -> (forall a, ok_only P (k a)) -> ok_only P (bind m k).
Proof.
  intros Hm Hk.
  eapply run_spec_bind
    with (Qk := fun _ evs r => returned r = true -> Forall P evs);
    [exact Hm | exact Hk | discriminate |].
  intros evs1 a evs2 r H1 H2 Hr. apply Forall_app. split; auto.
Qed.

Lemma ok_only_convert_each P pts bit_code :
  (forall a b c, P (EvCall (CConvert a b c bit_code) true)) ->
  ok_only P (convert_each E pts bit_code).
Proof.
  intros Hp. induction pts as [|[[a b] c] pts IH]; cbn [convert_each].
  - apply ok_only_ret.
  - apply ok_only_bind; [now apply ok_only_native|]. intros r.
    apply ok_only_bind; [exact IH|]. intros rs. apply ok_only_ret.
Qed.

Lemma ok_only_convert_vectorised P in_lat in_lon height bit_code :
  (forall a b c, P (EvCall (CConvert a b c bit_code) true)) ->
  ok_only P (convert_vectorised E in_lat in_lon height bit_code).
Proof.
  intros Hp. unfold convert_vectorised.
  destruct (data in_lat); [apply ok_only_raise|].
  destruct (data in_lon); [apply ok_only_raise|].
  destruct (data height); [apply ok_only_raise|].
  apply ok_only_bind; [now apply ok_only_native|]. intros _.
  destruct (points in_lat in_lon height) as [[t pts]|];
    [|apply ok_only_raise].
  apply ok_only_bind; [now apply ok_only_convert_each|]. intros rs.
  apply ok_only_ret.
Qed.

Lemma no_failed_convert evs :
  Forall (fun ev => is_failed_convert ev = false) evs ->
  Exists (fun ev => is_failed_convert ev = true) evs -> False.
Proof.
  intros Hall Hex. apply Exists_exists in Hex. destruct Hex as [ev [Hin Ht]].
  rewrite Forall_forall in Hall. specialize (Hall ev Hin). congruence.
Qed.

Lemma failed_then_nan_of_only m :
  only (fun ev => is_failed_convert ev = false) m ->
  failed_then_nan (E := E) m.
Proof.
  intros Hm. eapply run_spec_weaken; [exact Hm|].
  intros evs r Hall Hex. destruct (no_failed_convert evs Hall Hex).
Qed.

Lemma failed_then_nan_bind {A} (m : M E A) k :
  only (fun ev => is_failed_convert ev = false) m ->
  (forall a, failed_then_nan (k a)) ->
  failed_then_nan (bind m k).
Proof.
  intros Hm Hk. unfold failed_then_nan.
  eapply run_spec_bind
    with (Qk := fun _ evs r =>
                  Exists (fun ev => is_failed_convert ev = true) evs ->
                  nan_result r
                  /\ Exists (fun ev => is_vector_warning ev = true) evs);
    [exact Hm | exact Hk | |].
  - intros evs e Hall Hex. destruct (no_failed_convert evs Hall Hex).
  - intros evs1 a evs2 r Hall Hq Hex.
    apply Exists_app in Hex. destruct Hex as [Hex|Hex];
      [destruct (no_failed_convert evs1 Hall Hex)|].
    destruct (Hq Hex) as [Hn Hw]. split; [exact Hn|].
    apply Exists_app. now right.
Qed.

Lemma all_nan_full s : all_nan (np_full s F64.nan).
Proof.
  unfold all_nan, np_full. cbn [data].
  induction (size s); simpl; constructor; auto.
Qed.

(** The [try]/[except] around the vectorised call: a run that returns has
    no failed call; a run that raises ends in the handler, which returns the
    initial outputs. *)
Lemma failed_then_nan_vectorised in_lat in_lon height bit_code d s1 s2 s3 :
  failed_then_nan
    (try_except (convert_vectorised E in_lat in_lon height bit_code)
       (fun err =>
          bind (log Warning (MsgVectorFailed d bit_code (exn_cls err)))
            (fun _ => ret (np_full s1 F64.nan, np_full s2 F64.nan,
                           np_full s3 F64.nan)))).
Proof.
  unfold failed_then_nan.
  eapply run_spec_try
    with (Qh := fun _ evs r =>
                  nan_result r
                  /\ Exists (fun ev => is_vector_warning ev = true) evs).
  - apply (ok_only_convert_vectorised
             (fun ev => is_failed_convert ev = false)). reflexivity.
  - intros e w r w'. unfold bind, log, emit, ret. intros [= <- <-].
    eexists. split; [reflexivity|]. split.
    + do 3 eexists. split; [reflexivity|]. repeat split; apply all_nan_full.
    + constructor. reflexivity.
  - intros evs a Hall Hex.
    destruct (no_failed_convert evs (Hall eq_refl) Hex).
  - intros evs1 e evs2 r _ [Hn Hw] _. split; [exact Hn|].
    apply Exists_app. now right.
Qed.

Lemma failed_then_nan_convert_latlon_arr in_lat in_lon height dtime method :
  failed_then_nan (convert_latlon_arr E lim in_lat in_lon height dtime method).
Proof.
  unfold convert_latlon_arr.
  apply failed_then_nan_bind;
    [apply only_broadcast_inputs; reflexivity|]. intros [[lat lon] h].
  apply failed_then_nan_bind; [apply only_lift|]. intros _.
  apply failed_then_nan_bind; [apply only_lift|]. intros d.
  apply failed_then_nan_bind; [apply only_lift|]. intros bit_code.
  apply failed_then_nan_bind; [apply only_lift|]. intros hmax.
  apply failed_then_nan_bind;
    [apply only_test_height; reflexivity|]. intros good.
  destruct good; cbn [negb].
  - apply failed_then_nan_bind; [apply only_lift|]. intros lat'.
    apply failed_then_nan_bind;
      [apply only_set_time; reflexivity|]. intros _.
    apply failed_then_nan_vectorised.
  - apply failed_then_nan_of_only. apply only_ret.
Qed.

End FailedConversion.

(** * The height gate of the array converter *)

Section HeightGate.

Variable E : Engine.
Variable lim : float.

Lemma no_flag_eqb b :
  negb (truthy (Z.land b (Z.lor (Z.lor TRACE ALLOWTRACE) BADIDEA)))
  = (Z.eqb (Z.land b TRACE) 0 && Z.eqb (Z.land b ALLOWTRACE) 0
     && Z.eqb (Z.land b BADIDEA) 0)%bool.
Proof.
  unfold truthy. rewrite negb_involutive, !Z.land_lor_distr_r.
  destruct (Z.eqb_spec (Z.land b TRACE) 0) as [->|N1];
    destruct (Z.eqb_spec (Z.land b ALLOWTRACE) 0) as [->|N2];
    destruct (Z.eqb_spec (Z.land b BADIDEA) 0) as [->|N3];
    cbn [andb]; try reflexivity;
    apply Z.eqb_neq; intros H; apply Z.lor_eq_0_iff in H;
    destruct H as [H H3]; try apply Z.lor_eq_0_iff in H; try tauto;
    try (rewrite Z.lor_0_l in H; tauto); try (rewrite Z.lor_0_r in H; tauto).
Qed.

(** [test_height] returns the decision of the policy, logs, and leaves the
    engine alone. *)
Lemma test_height_run h b (w : world E) :
  exists logs,
    test_height E lim h b w
    = (Ret (height_policy lim h b),
       mk_world (engine_state w) (trace w ++ logs))
    /\ Forall (fun ev => is_call ev = false) logs.
Proof.
  unfold test_height, height_policy. rewrite no_flag_eqb.
  unfold truthy. rewrite negb_involutive.
  unfold bind, log, emit, ret. destruct w as [st tr]. cbn [engine_state trace].
  destruct (F64.ltb h f0);
    destruct (F64.gtb h high_alt_coeff
              && (Z.eqb (Z.land b TRACE) 0 && Z.eqb (Z.land b ALLOWTRACE) 0
                  && Z.eqb (Z.land b BADIDEA) 0))%bool;
    destruct (F64.gtb h lim && Z.eqb (Z.land b BADIDEA) 0)%bool;
    cbn [negb andb engine_state trace];
    rewrite <- ?app_assoc;
    (eexists; split; [reflexivity | repeat constructor])
    || (exists []; split; [now rewrite app_nil_r | constructor]).
Qed.

Lemma broadcast_inputs_run a b c (w : world E) :
  exists arrs logs,
    broadcast_inputs E a b c w
    = (Ret arrs, mk_world (engine_state w) (trace w ++ logs))
    /\ Forall (fun ev => is_call ev = false) logs.
Proof.
  unfold broadcast_inputs, bind, log, emit, ret. destruct w as [st tr].
  cbn [engine_state trace].
  destruct (Nat.eqb (Nat.min (rank a) (Nat.min (rank b) (rank c))) 0);
    [destruct (Nat.eqb (Nat.max (rank a) (Nat.max (rank b) (rank c))) 0)|];
    cbn [engine_state trace];
    (do 2 eexists; split; [reflexivity | repeat constructor])
    || (eexists; exists []; split; [now rewrite app_nil_r | constructor]).
Qed.

Lemma set_time_cases d (w : world E) :
  (exists w3, set_time E d w = (Ret tt, w3)
              /\ trace w3 = trace w ++ [EvCall (CSetDatetime d) true])
  \/ (exists e w3, set_time E d w = (Raise e, w3)
                   /\ trace w3 = trace w ++ [EvCall (CSetDatetime d) false]).
Proof.
  unfold set_time, try_except, native, raise.
  destruct (set_datetime E d (engine_state w)) as [[[]|[cls t]] st'];
    cbn [returned].
  - left. eexists. split; reflexivity.
  - right.
    destruct (is_type_error cls); [|destruct (is_runtime_error cls)];
      do 2 eexists; split; reflexivity.
Qed.

Lemma convert_each_spec pts bit_code :
  run_spec
    (fun evs r =>
       (returned r = true ->
        forall a b c, In (a, b, c) pts ->
                      In (EvCall (CConvert a b c bit_code) true) evs)
       /\ (returned r = false ->
           Exists (fun ev => is_raised_call ev = true) evs))
    (convert_each E pts bit_code).
Proof.
  induction pts as [|[[a b] c] pts IH]; intros w r w' Hrun.
  - injection Hrun as <- <-. exists []. rewrite app_nil_r.
    split; [reflexivity|]. split; [intros _ ? ? ? []|discriminate].
  - cbn [convert_each] in Hrun. unfold bind, native in Hrun.
    destruct (convert E a b c bit_code (engine_state w)) as [[r1|e] st1];
      cbn [returned] in Hrun.
    + destruct (convert_each E pts bit_code
                  (mk_world st1
                     (trace w ++ [EvCall (CConvert a b c bit_code) true])))
        as [[rs|e] w2] eqn:R;
        destruct (IH _ _ _ R) as [evs [T [Hok Hbad]]];
        cbn [trace] in T; rewrite <- app_assoc in T;
        injection Hrun as <- <-;
        (eexists; split; [exact T|]); split; try discriminate.
      * intros _ x y z [[= <- <- <-]|Hin]; [now left|].
        right. now apply Hok.
      * intros _. apply Exists_cons_tl. now apply Hbad.
    + injection Hrun as <- <-. eexists. split; [reflexivity|].
      split; [discriminate|]. intros _. constructor. reflexivity.
Qed.

Lemma expand_nil s : forall t, expand s t [] = [].
Proof.
  induction s as [|ns s IH]; intros [|nt t]; try reflexivity.
  cbn [expand]. destruct (Nat.eqb ns nt).
  - generalize (size s). intros k. induction ns as [|n IHn]; [reflexivity|].
    cbn [chunks map List.concat]. rewrite firstn_nil, skipn_nil, IH.
    exact IHn.
  - rewrite IH. induction nt as [|n IHn]; [reflexivity|].
    cbn [repeat List.concat app]. exact IHn.
Qed.

Lemma points_of_empty in_lat in_lon height t pts :
  points in_lat in_lon height = Some (t, pts) ->
  data in_lat = [] \/ data in_lon = [] \/ data height = [] ->
  pts = [].
Proof.
  unfold points.
  destruct (broadcast_shapes (shape in_lat) (shape in_lon)) as [t1|];
    [|discriminate].
  destruct (broadcast_shapes t1 (shape height)) as [t2|]; [|discriminate].
  intros [= <- <-]. unfold broadcast_to. cbn [data].
  intros [H|[H|H]]; rewrite H, expand_nil.
  - reflexivity.
  - now destruct (expand _ t2 (data in_lat)).
  - destruct (expand _ t2 (data in_lat)); [reflexivity|].
    now destruct (expand _ t2 (data in_lon)).
Qed.

Lemma convert_vectorised_spec in_lat in_lon height bit_code t pts :
  points in_lat in_lon height = Some (t, pts) ->
  run_spec
    (fun evs r =>
       (returned r = true ->
        forall a b c, In (a, b, c) pts ->
                      In (EvCall (CConvert a b c bit_code) true) evs)
       /\ (returned r = false ->
           Exists (fun ev => is_raised_call ev = true) evs \/ pts = []))
    (convert_vectorised E in_lat in_lon height bit_code).
Proof.
  intros Hp w r w'. unfold convert_vectorised.
  destruct (data in_lat) as [|a la] eqn:Da;
    [|destruct (data in_lon) as [|b lb] eqn:Db;
      [|destruct (data height) as [|c lc] eqn:Dc]];
    try (intros [= <- <-]; exists []; rewrite app_nil_r;
         split; [reflexivity|]; split; [discriminate|]; intros _; right;
         eapply points_of_empty; [exact Hp|]; tauto).
  rewrite Hp. unfold bind, native, raise, ret.
  destruct (convert E a b c bit_code (engine_state w)) as [[r1|e] st1];
    cbn [returned].
  - destruct (convert_each E pts bit_code
                (mk_world st1
                   (trace w ++ [EvCall (CConvert a b c bit_code) true])))
      as [[rs|e] w2] eqn:R;
      destruct (convert_each_spec _ _ _ _ _ R) as [evs [T [Hok Hbad]]];
      cbn [trace] in T; rewrite <- app_assoc in T;
      intros [= <- <-];
      (eexists; split; [exact T|]); split; try discriminate.
    + intros _ x y z Hin. right. now apply Hok.
    + intros _. left. apply Exists_cons_tl. now apply Hbad.
  - intros [= <- <-]. eexists. split; [reflexivity|].
    split; [discriminate|]. intros _. left. constructor. reflexivity.
Qed.

End HeightGate.

(** * The maximum height of a batch *)

Section MaximumHeight.
Import F64Order F64Facts.

Lemma leb_true_not_nan a b :
  F64.leb a b = true -> F64.is_nan a = false /\ F64.is_nan b = false.
Proof. destruct a, b; try discriminate; split; reflexivity. Qed.

Lemma leb_refl a : F64.is_nan a = false -> F64.leb a a = true.
Proof. intros Ha. apply leb_key; trivial. now right. Qed.

Lemma leb_trans a b c :
  F64.leb a b = true -> F64.leb b c = true -> F64.leb a c = true.
Proof.
  intros H1 H2.
  destruct (leb_true_not_nan _ _ H1) as [Ha Hb].
  destruct (leb_true_not_nan _ _ H2) as [_ Hc].
  apply (leb_key a b Ha Hb) in H1. apply (leb_key b c Hb Hc) in H2.
  apply (leb_key a c Ha Hc). unfold kle, klt in *.
  destruct (key a) as [[a1 a2] a3], (key b) as [[b1 b2] b3],
    (key c) as [[c1 c2] c3].
  destruct H1 as [H1|[= -> -> ->]]; destruct H2 as [H2|[= <- <- <-]];
    try (left; lia); try (now left); now right.
Qed.

Lemma ltb_leb a b : F64.ltb a b = true -> F64.leb a b = true.
Proof.
  intros H. pose proof (ltb_true_key _ _ H) as K.
  apply leb_key; [| |now left].
  - destruct a; try reflexivity; discriminate.
  - destruct a, b; try reflexivity; discriminate.
Qed.

Lemma fmax_cases a b :
  (F64.np_fmax a b = a
   /\ (F64.is_nan b = true \/ F64.leb b a = true))
  \/ (F64.np_fmax a b = b /\ F64.is_nan b = false
      /\ (F64.is_nan a = true \/ F64.ltb a b = true)).
Proof.
  unfold F64.np_fmax, F64.geb. fold (F64.leb b a).
  destruct (F64.leb b a) eqn:L; [left; auto|].
  destruct (F64.is_nan b) eqn:Nb; cbn [orb]; [left; auto|].
  right. split; [reflexivity|]. split; [reflexivity|].
  destruct (F64.is_nan a) eqn:Na; [now left|right].
  destruct (maximum_cases a b Na Nb) as [[_ L']|[_ L']]; trivial.
  unfold F64.leb in L. congruence.
Qed.

(** [np.nanmax] is an upper bound of the elements that are not NaN. *)
Lemma fold_fmax_bound xs :
  forall acc,
    (F64.is_nan acc = false ->
     F64.leb acc (fold_left F64.np_fmax xs acc) = true)
    /\ (forall y, In y xs -> F64.is_nan y = false ->
                  F64.leb y (fold_left F64.np_fmax xs acc) = true).
Proof.
  induction xs as [|a xs IH]; intros acc.
  - split; [apply leb_refl | intros y []].
  - cbn [fold_left].
    destruct (IH (F64.np_fmax acc a)) as [IH1 IH2].
    destruct (fmax_cases acc a) as [[Eq Ha]|[Eq [Na Hacc]]]; rewrite Eq in *.
    + split; [exact IH1|].
      intros y [<-|Hin] Hy; [|now apply IH2].
      destruct Ha as [Ha|Ha]; [congruence|].
      apply (leb_trans _ _ _ Ha). apply IH1.
      now destruct (leb_true_not_nan _ _ Ha).
    + split.
      * intros Nacc. destruct Hacc as [Hacc|Hacc]; [congruence|].
        apply (leb_trans _ a); [now apply ltb_leb | now apply IH1].
      * intros y [<-|Hin] Hy; [now apply IH1 | now apply IH2].
Qed.

Lemma np_nanmax_upper_bound h hmax :
  np_nanmax h = Ret hmax ->
  forall y, In y (data h) -> F64.is_nan y = false -> F64.leb y hmax = true.
Proof.
  unfold np_nanmax. destruct (data h) as [|x xs]; [discriminate|].
  intros [= <-] y [Hxy|Hin] Hy.
  - subst y. apply (proj1 (fold_fmax_bound xs x)). assumption.
  - apply (proj2 (fold_fmax_bound xs x)); assumption.
Qed.

End MaximumHeight.

(** * Method strings *)

Section MethodStrings.

Lemma upper_char_pipe c : Ascii.eqb (upper_char c) "|" = Ascii.eqb c "|".
Proof. destruct c as [[] [] [] [] [] [] [] []]; reflexivity. Qed.

Lemma upper_char_space c : Ascii.eqb (upper_char c) " " = Ascii.eqb c " ".
Proof. destruct c as [[] [] [] [] [] [] [] []]; reflexivity. Qed.

Lemma upper_char_idempotent c : upper_char (upper_char c) = upper_char c.
Proof. destruct c as [[] [] [] [] [] [] [] []]; reflexivity. Qed.

Lemma upper_idempotent s : upper (upper s) = upper s.
Proof.
  induction s as [|c s IH]; simpl; [reflexivity|].
  now rewrite upper_char_idempotent, IH.
Qed.

Lemma split_pipe_not_nil s : split_pipe s <> [].
Proof.
  destruct s as [|c s]; simpl; [discriminate|].
  destruct (Ascii.eqb c "|"); [discriminate|].
  destruct (split_pipe s); discriminate.
Qed.

(** Splitting the normalised string gives the normalised tokens of the
    string: neither upper-casing nor dropping spaces touches a pipe. *)
Lemma split_pipe_normalised s :
  split_pipe (remove_spaces (upper s)) = map norm_token (split_pipe s).
Proof.
  induction s as [|c s IH]; [reflexivity|].
  simpl upper. simpl remove_spaces. simpl split_pipe at 2.
  rewrite upper_char_space.
  destruct (Ascii.eqb c "|") eqn:P.
  - apply Ascii.eqb_eq in P. subst c. simpl. now rewrite IH.
  - destruct (Ascii.eqb c " ") eqn:S.
    + rewrite IH. apply Ascii.eqb_eq in S. subst c.
      destruct (split_pipe s) as [|t ts] eqn:T;
        [now apply split_pipe_not_nil in T|].
      reflexivity.
    + simpl split_pipe. rewrite upper_char_pipe, P, IH.
      destruct (split_pipe s) as [|t ts] eqn:T;
        [now apply split_pipe_not_nil in T|].
      simpl. unfold norm_token at 3. simpl.
      now rewrite upper_char_space, S.
Qed.

Lemma sum_codes_filter l :
  sum_codes l
  = fold_right Z.add 0
      (map (fun t => match lookup t convert_code with
                     | Some v => v
                     | None => 0
                     end) (filter recognised l)).
Proof.
  induction l as [|t l IH]; [reflexivity|].
  cbn [sum_codes filter]. unfold recognised at 1.
  destruct (lookup t convert_code) eqn:L; cbn [map fold_right];
    rewrite ?L, IH; reflexivity.
Qed.

Lemma sum_codes_perm l l' : Permutation l l' -> sum_codes l = sum_codes l'.
Proof.
  induction 1 as [|t l l' _ IH|t u l|l l' l'' _ IH1 _ IH2];
    cbn [sum_codes].
  - reflexivity.
  - now rewrite IH.
  - destruct (lookup t convert_code), (lookup u convert_code); lia.
  - congruence.
Qed.

Lemma sum_codes_unrecognised l :
  Forall (fun t => recognised t = false) l -> sum_codes l = 0.
Proof.
  induction 1 as [|t l Ht _ IH]; [reflexivity|].
  cbn [sum_codes]. unfold recognised in Ht.
  destruct (lookup t convert_code); [discriminate | assumption].
Qed.

End MethodStrings.

(** ** The decoder against the independent wording *)

Lemma all_ascii_in c : In c all_ascii.
Proof.
  unfold all_ascii. rewrite <- (ascii_nat_embedding c).
  apply in_map. apply in_seq. pose proof (nat_ascii_bounded c). lia.
Qed.

Lemma same_letter_checked :
  forallb (fun c =>
             forallb (fun d =>
                        implb (plain_char d)
                          (Bool.eqb (same_letter c d)
                             (Ascii.eqb (upper_char c) d)))
               all_ascii)
    all_ascii = true.
Proof. vm_compute. reflexivity. Qed.

Lemma same_letter_upper c d :
  plain_char d = true -> same_letter c d = Ascii.eqb (upper_char c) d.
Proof.
  intros Hd. pose proof same_letter_checked as H.
  rewrite forallb_forall in H. specialize (H c (all_ascii_in c)).
  rewrite forallb_forall in H. specialize (H d (all_ascii_in d)).
  rewrite Hd in H. cbn [implb] in H. now apply Bool.eqb_prop in H.
Qed.

(** A token reads as a plain name exactly when the decoder's normal form of
    the token is the name. *)
Lemma reads_as_norm name :
  plain name = true ->
  forall t, reads_as t name = String.eqb (norm_token t) name.
Proof.
  intros Hn t. revert name Hn. unfold norm_token.
  induction t as [|c t IH]; intros name Hn.
  - destruct name; reflexivity.
  - cbn [upper remove_spaces reads_as]. rewrite upper_char_space.
    destruct (Ascii.eqb c " ") eqn:S; [now apply IH|].
    destruct name as [|d name]; [reflexivity|].
    cbn [plain] in Hn. apply andb_true_iff in Hn. destruct Hn as [Hd Hn].
    cbn [String.eqb]. rewrite (same_letter_upper c d Hd), (IH name Hn).
    now destruct (Ascii.eqb (upper_char c) d).
Qed.

Lemma flag_of_token_lookup t :
  flag_of_token t
  = match lookup (norm_token t) convert_code with Some v => v | None => 0 end.
Proof.
  unfold flag_of_token, flag_values. cbn [find fst snd].
  rewrite !reads_as_norm by reflexivity.
  generalize (norm_token t). intros x. unfold convert_code. cbn [lookup].
  repeat match goal with
         | |- context [String.eqb x ?s] =>
             destruct (String.eqb_spec x s); [subst x; reflexivity|]
         end.
  reflexivity.
Qed.

Lemma sum_codes_tokens ts : sum_codes (map norm_token ts) = decode_tokens ts.
Proof.
  unfold decode_tokens.
  induction ts as [|t ts IH]; [reflexivity|].
  cbn [map sum_codes fold_right]. rewrite flag_of_token_lookup, <- IH.
  now destruct (lookup (norm_token t) convert_code).
Qed.

Lemma split_pipe_token t : no_pipe t = true -> split_pipe t = [t].
Proof.
  induction t as [|c t IH]; [reflexivity|].
  cbn [no_pipe split_pipe]. intros H. apply andb_true_iff in H.
  destruct H as [Hc Ht]. apply negb_true_iff in Hc.
  now rewrite Hc, (IH Ht).
Qed.

Lemma split_pipe_join t s :
  no_pipe t = true ->
  split_pipe (t ++ "|" ++ s)%string = t :: split_pipe s.
Proof.
  induction t as [|c t IH]; [reflexivity|].
  cbn [no_pipe]. intros H. apply andb_true_iff in H.
  destruct H as [Hc Ht]. apply negb_true_iff in Hc.
  change (String c t ++ "|" ++ s)%string
    with (String c (t ++ "|" ++ s)%string).
  cbn [split_pipe]. now rewrite Hc, (IH Ht).
Qed.

(** Splitting undoes joining with pipes. *)
Lemma split_pipe_concat ts :
  ts <> [] -> Forall (fun t => no_pipe t = true) ts ->
  split_pipe (String.concat "|" ts) = ts.
Proof.
  induction ts as [|t ts IH]; [congruence|].
  intros _ H. inversion H as [|? ? Ht Hts]; subst.
  destruct ts as [|u ts]; [now apply split_pipe_token|].
  change (String.concat "|" (t :: u :: ts))
    with (t ++ "|" ++ String.concat "|" (u :: ts))%string.
  rewrite (split_pipe_join _ _ Ht), IH; [reflexivity|discriminate|assumption].
Qed.

(** Joining with pipes undoes splitting, and no token of a split holds a
    pipe: every string is the join of its tokens. *)
Lemma concat_split_pipe s :
  String.concat "|" (split_pipe s) = s
  /\ Forall (fun t => no_pipe t = true) (split_pipe s).
Proof.
  induction s as [|c s [IH1 IH2]]; [split; [reflexivity|repeat constructor]|].
  cbn [split_pipe]. destruct (Ascii.eqb_spec c "|") as [->|N].
  - split; [|constructor; [reflexivity|assumption]].
    pose proof (split_pipe_not_nil s) as Hne.
    destruct (split_pipe s) as [|u us]; [congruence|].
    change (String.concat "|" (EmptyString :: u :: us))
      with (String "|" (String.concat "|" (u :: us))).
    now rewrite IH1.
  - pose proof (split_pipe_not_nil s) as Hne.
    destruct (split_pipe s) as [|u us]; [congruence|].
    apply Forall_cons_iff in IH2. destruct IH2 as [Hu Hus].
    split.
    + rewrite <- IH1. destruct us as [|v us]; reflexivity.
    + constructor; [|assumption]. cbn [no_pipe].
      apply andb_true_iff. split; [|assumption].
      apply negb_true_iff. now apply Ascii.eqb_neq.
Qed.

Lemma decode_tokens_perm ts ts' :
  Permutation ts ts' -> decode_tokens ts = decode_tokens ts'.
Proof.
  unfold decode_tokens.
  induction 1 as [|t l l' _ IH|t u l|l l' l'' _ IH1 _ IH2];
    cbn [map fold_right]; lia.
Qed.

Lemma convert_str_to_bit_tokens ts :
  ts <> [] -> Forall (fun t => no_pipe t = true) ts ->
  convert_str_to_bit (String.concat "|" ts) = decode_tokens ts.
Proof.
  intros Hne Hp. unfold convert_str_to_bit.
  now rewrite split_pipe_normalised, split_pipe_concat, sum_codes_tokens.
Qed.

(** C5.  [convert_str_to_bit] decodes as the specification says.  Every
    string is a list of tokens joined by pipes, and the code of such a join
    is the sum of the values of the flags its tokens read as (G2A 0, A2G 1,
    TRACE 2, ALLOWTRACE 4, BADIDEA 8, GEOCENTRIC 16), the case of the
    letters and the spaces being ignored and a token that reads as no flag
    counting for nothing.  So a string none of whose tokens reads as a flag
    decodes to 0, the value of [G2A]; the order of the tokens does not
    matter; "G2A|TRACE|BADIDEA" and "BADIDEA | trace | g2a" both decode to
    10; upper-casing a string or taking its spaces out keeps its code; and
    the decoder (upper-case, take the spaces out, split) agrees with the
    decoding that splits first and normalises each token. *)
Theorem convert_str_to_bit_decoding :
  (forall s, exists ts,
      ts <> [] /\ Forall (fun t => no_pipe t = true) ts
      /\ String.concat "|" ts = s)
  /\ (forall ts,
        ts <> [] -> Forall (fun t => no_pipe t = true) ts ->
        convert_str_to_bit (String.concat "|" ts) = decode_tokens ts)
  /\ (forall ts,
        ts <> [] -> Forall (fun t => no_pipe t = true) ts ->
        Forall (fun t => forall name v, In (name, v) flag_values ->
                                        reads_as t name = false) ts ->
        convert_str_to_bit (String.concat "|" ts) = 0
        /\ convert_str_to_bit (String.concat "|" ts) = G2A)
  /\ (forall ts ts',
        ts <> [] -> Forall (fun t => no_pipe t = true) ts ->
        Permutation ts ts' ->
        convert_str_to_bit (String.concat "|" ts)
        = convert_str_to_bit (String.concat "|" ts'))
  /\ convert_str_to_bit "G2A|TRACE|BADIDEA" = 10
  /\ convert_str_to_bit "BADIDEA | trace | g2a" = 10
  /\ (forall s, convert_str_to_bit (upper s) = convert_str_to_bit s)
  /\ (forall s, convert_str_to_bit (remove_spaces s) = convert_str_to_bit s)
  /\ (forall s, convert_str_to_bit s = decode_spec s)
  /\ (forall s,
        Forall (fun t => recognised t = false) (map norm_token (split_pipe s))
        -> convert_str_to_bit s = 0 /\ convert_str_to_bit s = G2A)
  /\ (forall s s',
        Permutation (map norm_token (split_pipe s))
                    (map norm_token (split_pipe s'))
        -> convert_str_to_bit s = convert_str_to_bit s').
Proof.
  assert (Hzero : forall ts,
             Forall (fun t => forall name v, In (name, v) flag_values ->
                                             reads_as t name = false) ts ->
             decode_tokens ts = 0).
  { unfold decode_tokens. induction 1 as [|t ts Ht _ IH]; [reflexivity|].
    cbn [map fold_right]. rewrite IH. unfold flag_of_token.
    destruct (find (fun nv => reads_as t (fst nv)) flag_values)
      as [[name v]|] eqn:F; [|reflexivity].
    apply find_some in F. destruct F as [Hin Hr]. cbn [fst] in Hr.
    rewrite (Ht name v Hin) in Hr. discriminate. }
  split.
  { intros s. exists (split_pipe s).
    destruct (concat_split_pipe s) as [H1 H2].
    split; [apply split_pipe_not_nil|]. now split. }
  split; [exact convert_str_to_bit_tokens|].
  split.
  { intros ts Hne Hp Hn. rewrite (convert_str_to_bit_tokens ts Hne Hp).
    rewrite (Hzero ts Hn). now split. }
  split.
  { intros ts ts' Hne Hp P.
    rewrite (convert_str_to_bit_tokens ts Hne Hp).
    rewrite (convert_str_to_bit_tokens ts').
    - now apply decode_tokens_perm.
    - intros ->. apply Permutation_sym, Permutation_nil in P. congruence.
    - eapply Permutation_Forall; eassumption. }
  split; [reflexivity|]. split; [reflexivity|].
  split.
  { intros s. unfold convert_str_to_bit. now rewrite upper_idempotent. }
  split.
  { intros s. unfold convert_str_to_bit. f_equal. f_equal.
    induction s as [|c s IH]; [reflexivity|].
    simpl. destruct (Ascii.eqb c " ") eqn:S.
    + apply Ascii.eqb_eq in S. subst c. simpl. exact IH.
    + simpl. rewrite upper_char_space, S. now rewrite IH. }
  split.
  { intros s. unfold convert_str_to_bit, decode_spec.
    now rewrite split_pipe_normalised, sum_codes_filter. }
  split.
  { intros s H. unfold convert_str_to_bit. rewrite split_pipe_normalised.
    split; now apply sum_codes_unrecognised. }
  intros s s' P. unfold convert_str_to_bit.
  rewrite !split_pipe_normalised. now apply sum_codes_perm.
Qed.

Lemma convert_str_to_bit_decoding_witness :
  convert_str_to_bit (String.concat "|" ["BADIDEA "; " trace "; "g2a"; "x"])
  = decode_tokens ["BADIDEA "; " trace "; "g2a"; "x"]
  /\ decode_tokens ["BADIDEA "; " trace "; "g2a"; "x"] = 10.
Proof.
  split; [|reflexivity].
  apply (proj1 (proj2 convert_str_to_bit_decoding)
           ["BADIDEA "; " trace "; "g2a"; "x"]).
  - discriminate.
  - repeat constructor.
Defined.

(** * The height gate of the scalar converter *)

Lemma above_2000_not_negative h :
  F64.gtb h high_alt_coeff = true -> F64.ltb h f0 = false.
Proof.
  intros H. destruct (F64.ltb h f0) eqn:L; trivial.
  apply ltb_true_key in H, L.
  change (F64Order.key high_alt_coeff) with (1, -42, 8796093022208000) in H.
  change (F64Order.key f0) with (0, 0, 0) in L.
  unfold F64Order.klt in *. destruct (F64Order.key h) as [[k1 k2] k3]. lia.
Qed.

Lemma no_flag_mask b :
  Z.land b TRACE = 0 -> Z.land b ALLOWTRACE = 0 -> Z.land b BADIDEA = 0 ->
  Z.land b (Z.lor (Z.lor TRACE ALLOWTRACE) BADIDEA) = 0.
Proof.
  intros H1 H2 H3. rewrite !Z.land_lor_distr_r, H1, H2, H3. reflexivity.
Qed.

(** C1.  For a height above 2000 km and a method code with none of TRACE,
    ALLOWTRACE and BADIDEA set, [convert_latlon] (called with a date or a
    datetime) returns (NaN, NaN, NaN) without raising; the only event of the
    call is the error record of the height test, so the engine is called
    neither to set the epoch nor to convert, and its state is untouched. *)
Theorem convert_latlon_blocked_above_2000 :
  forall E lim in_lat in_lon h dtime method dt bit_code (st : estate E),
    test_time dtime = Ret dt ->
    method_bits method = Ret bit_code ->
    Z.land bit_code TRACE = 0 ->
    Z.land bit_code ALLOWTRACE = 0 ->
    Z.land bit_code BADIDEA = 0 ->
    F64.gtb h (F64.of_Z 2000) = true ->
    let run := convert_latlon E lim in_lat in_lon h dtime method (w0 E st) in
    fst run = Ret (F64.nan, F64.nan, F64.nan)
    /\ trace (snd run) = [EvLog Error MsgCoeffAltitude]
    /\ engine_calls (trace (snd run)) = []
    /\ engine_state (snd run) = st.
Proof.
  intros E lim in_lat in_lon h dtime method dt b st Ht Hm H1 H2 H3 Hh run.
  change (F64.of_Z 2000) with high_alt_coeff in Hh.
  assert (R : run = (Ret (F64.nan, F64.nan, F64.nan),
                     mk_world st [EvLog Error MsgCoeffAltitude])).
  { unfold run, convert_latlon, bind, lift. rewrite Ht, Hm.
    unfold test_height, bind.
    rewrite (above_2000_not_negative _ Hh), Hh, (no_flag_mask _ H1 H2 H3).
    reflexivity. }
  rewrite R. repeat split.
Qed.

Lemma convert_latlon_blocked_above_2000_witness :
  let run := convert_latlon echo_engine trace_lim (F64.of_Z 45)
               (F64.of_Z (-70)) (F64.of_Z 3000) t2015 (MStr "G2A|GEOCENTRIC")
               (w0 echo_engine None) in
  fst run = Ret (F64.nan, F64.nan, F64.nan)
  /\ trace (snd run) = [EvLog Error MsgCoeffAltitude]
  /\ engine_calls (trace (snd run)) = []
  /\ engine_state (snd run) = None.
Proof.
  apply (convert_latlon_blocked_above_2000 echo_engine trace_lim
           (F64.of_Z 45) (F64.of_Z (-70)) (F64.of_Z 3000) t2015
           (MStr "G2A|GEOCENTRIC") (mk_datetime 2015 1 1 0 0 0) 16 None);
    reflexivity.
Defined.

(** * The coordinate facade *)

(** C6.  Whenever the point conversion of [get_aacgm_coord] returns a NaN
    magnetic longitude, the facade returns that latitude and longitude with
    a NaN MLT and leaves the world as the conversion left it: no MLT
    primitive is called. *)
Theorem get_aacgm_coord_missing_mlon :
  forall E lim glat glon h dtime method (st : estate E) mlat mlon r w1,
    convert_latlon E lim glat glon h dtime (MStr ("G2A|" ++ method))
      (w0 E st) = (Ret (mlat, mlon, r), w1) ->
    F64.is_nan mlon = true ->
    get_aacgm_coord E lim glat glon h dtime method (w0 E st)
    = (Ret (mlat, mlon, VFloat F64.nan), w1)
    /\ filter is_mlt_call (trace w1) = [].
Proof.
  intros E lim glat glon h dtime method st mlat mlon r w1 Hrun Hnan. split.
  - unfold get_aacgm_coord, bind. rewrite Hrun, Hnan. reflexivity.
  - destruct (convert_latlon_no_mlt E lim _ _ _ _ _ _ _ _ Hrun)
      as [evs [Ht Hall]].
    rewrite Ht. simpl. now apply filter_none.
Qed.

Lemma get_aacgm_coord_missing_mlon_witness :
  get_aacgm_coord nan_lon_engine trace_lim (F64.of_Z 45) (F64.of_Z (-70))
    (F64.of_Z 300) t2015 "TRACE" (w0 nan_lon_engine None)
  = (Ret (F64.of_Z 45, F64.nan, VFloat F64.nan),
     snd (convert_latlon nan_lon_engine trace_lim (F64.of_Z 45)
            (F64.of_Z (-70)) (F64.of_Z 300) t2015 (MStr "G2A|TRACE")
            (w0 nan_lon_engine None)))
  /\ filter is_mlt_call
       (trace (snd (convert_latlon nan_lon_engine trace_lim (F64.of_Z 45)
                      (F64.of_Z (-70)) (F64.of_Z 300) t2015
                      (MStr "G2A|TRACE") (w0 nan_lon_engine None)))) = [].
Proof.
  apply (get_aacgm_coord_missing_mlon nan_lon_engine trace_lim
           (F64.of_Z 45) (F64.of_Z (-70)) (F64.of_Z 300) t2015 "TRACE" None
           (F64.of_Z 45) F64.nan (F64.of_Z 300));
    reflexivity.
Defined.

(** Prepending "G2A|" adds the value of [G2A], which is 0: the code that
    reaches the converter is the code of the caller's own string. *)
Lemma g2a_prefix_adds_nothing method :
  method_bits (MStr ("G2A|" ++ method)) = Ret (convert_str_to_bit method).
Proof.
  unfold method_bits, convert_str_to_bit. rewrite upper_idempotent.
  reflexivity.
Qed.

(** C7 (fails on the code).  With the method string "A2G" the facade hands
    the engine the code [A2G]: the direction bit of the code is set, in
    the scalar facade and in the array facade, although "G2A|" was put in
    front of the string. *)
Theorem get_aacgm_coord_a2g_direction :
  method_bits (MStr ("G2A|" ++ "A2G")) = Ret A2G
  /\ Z.land A2G A2G <> G2A
  /\ In (EvCall (CConvert (F64.of_Z 45) (F64.of_Z (-70)) (F64.of_Z 300) A2G)
           true)
       (trace (snd (get_aacgm_coord echo_engine trace_lim (F64.of_Z 45)
                      (F64.of_Z (-70)) (F64.of_Z 300) t2015 "A2G"
                      (w0 echo_engine None))))
  /\ In (EvCall (CConvert (F64.of_Z 45) (F64.of_Z (-70)) (F64.of_Z 300) A2G)
           true)
       (trace (snd (get_aacgm_coord_arr echo_engine trace_lim
                      (vec [45]) (vec [-70]) (vec [300]) t2015 "A2G"
                      (w0 echo_engine None)))).
Proof.
  split; [reflexivity|]. split; [discriminate|].
  split; vm_compute; right; left; reflexivity.
Qed.

(** * Longitudes *)

(** C9 (fails on the code).  At -180.00000000000003, the double just below
    -180, the sum with 180.0 is -2^-45, its remainder modulo 360.0 is
    rounded up to 360.0, and the normalised longitude is 180.0: it is not
    below 180, and normalising it again gives -180.0, a different value.
    The array converter maps every element the same way. *)
Theorem wrap_lon_reaches_180 :
  F64.add lon_edge f180 = S754_finite true 4503599627370496 (-97)
  /\ F64.py_mod (F64.add lon_edge f180) f360 = f360
  /\ wrap_lon lon_edge = f180
  /\ F64.ltb (wrap_lon lon_edge) f180 = false
  /\ wrap_lon (wrap_lon lon_edge) = fm180
  /\ wrap_lon (wrap_lon lon_edge) <> wrap_lon lon_edge
  /\ wrap_lon_arr (mk_ndarray [1%nat] [lon_edge]) = mk_ndarray [1%nat] [f180].
Proof.
  repeat split; try (vm_compute; reflexivity).
  vm_compute. discriminate.
Qed.

(** * Latitudes *)

(** C2 (fails on the code).  The array [[nan, 95.0]] holds a latitude of
    magnitude above 90.1, which the scalar test rejects; the array test
    takes the maximum magnitude, which is NaN, finds it neither above 90
    nor above 90.1, and returns the array unchanged: nothing is raised and
    the engine is asked to convert latitude 95. *)
Theorem check_lat_arr_nan_hides_bad_latitude :
  F64.gtb (F64.abs f95) f90_1 = true
  /\ check_lat f95 = Raise (Exn ValueError (Lit "unrealistic latitude"))
  /\ np_abs_max lat_nan_95 = Ret F64.nan
  /\ check_lat_arr lat_nan_95 = Ret lat_nan_95
  /\ In (EvCall (CConvert f95 (F64.of_Z 10) (F64.of_Z 100) G2A) true)
       (trace (snd (convert_latlon_arr echo_engine trace_lim lat_nan_95
                      (scalar (F64.of_Z 10)) (scalar (F64.of_Z 100)) t2015
                      (MStr "G2A") (w0 echo_engine None)))).
Proof.
  repeat split; try (vm_compute; reflexivity).
  vm_compute. do 3 right. left. reflexivity.
Qed.

(** What holds of the latitude test: the scalar test rejects a magnitude
    above 90.1, clamps a magnitude in (90, 90.1] to +90 or -90 by the sign,
    keeps a magnitude of at most 90 (and NaN), and is idempotent; the array
    test rejects an array without NaN as soon as one magnitude is above
    90.1. *)
Lemma latitude_test_summary :
  (forall x, F64.gtb (F64.abs x) f90_1 = true ->
             check_lat x = Raise (Exn ValueError (Lit "unrealistic latitude")))
  /\ (forall x, F64.gtb (F64.abs x) f90 = true ->
                F64.gtb (F64.abs x) f90_1 = false ->
                check_lat x = Ret (if F64.ltb x f0 then fm90 else f90))
  /\ (forall x, F64.gtb (F64.abs x) f90 = false -> check_lat x = Ret x)
  /\ (forall x y, check_lat x = Ret y -> check_lat y = Ret y)
  /\ (forall a, Forall (fun x => F64.is_nan x = false) (data a) ->
                Exists (fun x => F64.gtb (F64.abs x) f90_1 = true) (data a) ->
                check_lat_arr a
                = Raise (Exn ValueError (Lit "unrealistic latitude"))).
Proof.
  repeat split.
  - apply check_lat_reject.
  - apply check_lat_clamp.
  - apply check_lat_pass.
  - apply check_lat_idempotent.
  - apply check_lat_arr_reject.
Qed.

Lemma existsb_false_forall {A} (f : A -> bool) l :
  existsb f l = false -> Forall (fun x => f x = false) l.
Proof.
  induction l as [|x l IH]; simpl; [constructor|].
  intros H. apply orb_false_iff in H. destruct H. constructor; auto.
Qed.

Lemma forall_existsb_false {A} (f : A -> bool) l :
  Forall (fun x => f x = false) l -> existsb f l = false.
Proof.
  induction 1 as [|x l Hx _ IH]; simpl; [reflexivity|]. now rewrite Hx.
Qed.

(** C10.  On a non-empty array all of whose latitudes have magnitude at
    most 90.1, the array test returns, with the shape kept, exactly the
    values that the scalar test returns element by element: the clip to
    [-90, 90] triggered by the maximum magnitude and the sign-times-90 clamp
    of the scalar path give the same normalised latitude. *)
Theorem lat_clamp_scalar_array_agree :
  forall a : ndarray,
    data a <> [] ->
    Forall (fun x => F64.leb (F64.abs x) f90_1 = true) (data a) ->
    exists ys,
      check_lat_arr a = Ret (mk_ndarray (shape a) ys)
      /\ Forall2 (fun x y => check_lat x = Ret y) (data a) ys.
Proof.
  intros [s d] Hne Hall. simpl in *. unfold check_lat_arr, np_abs_max.
  cbn [data shape].
  destruct d as [|x xs]; [congruence|].
  change (map F64.abs (x :: xs)) with (F64.abs x :: map F64.abs xs).
  cbv beta iota.
  assert (Hn : Forall (fun y => F64.is_nan y = false)
                 (F64.abs x :: map F64.abs xs)).
  { change (F64.abs x :: map F64.abs xs) with (map F64.abs (x :: xs)).
    apply Forall_map. eapply Forall_impl; [|exact Hall].
    intros y Hy. eapply leb_not_nan. exact Hy. }
  assert (G1 : F64.gtb (fold_left F64.np_maximum (map F64.abs xs) (F64.abs x))
                 f90_1 = false).
  { rewrite gtb_fold_maximum by (trivial; reflexivity).
    apply forall_existsb_false.
    change (F64.abs x :: map F64.abs xs) with (map F64.abs (x :: xs)).
    apply Forall_map. eapply Forall_impl; [|exact Hall].
    intros y Hy. now apply within_tolerance_not_above. }
  rewrite G1.
  destruct (F64.gtb (fold_left F64.np_maximum (map F64.abs xs) (F64.abs x))
              f90) eqn:G0.
  - eexists. split; [reflexivity|].
    clear -Hall. induction Hall as [|y ys Hy _ IH]; simpl; constructor; auto.
    now apply check_lat_is_clip.
  - exists (x :: xs). split; [reflexivity|].
    rewrite gtb_fold_maximum in G0 by (trivial; reflexivity).
    apply existsb_false_forall in G0.
    change (F64.abs x :: map F64.abs xs) with (map F64.abs (x :: xs)) in G0.
    apply Forall_map in G0.
    clear -G0. induction G0 as [|y ys Hy _ IH]; constructor; auto.
    now apply check_lat_pass.
Qed.

Lemma lat_clamp_scalar_array_agree_witness :
  exists ys,
    check_lat_arr (mk_ndarray [3%nat] [f90_05; F64.of_Z (-45); fm90])
    = Ret (mk_ndarray [3%nat] ys)
    /\ Forall2 (fun x y => check_lat x = Ret y)
         [f90_05; F64.of_Z (-45); fm90] ys.
Proof.
  apply (lat_clamp_scalar_array_agree
           (mk_ndarray [3%nat] [f90_05; F64.of_Z (-45); fm90])).
  - discriminate.
  - repeat constructor.
Defined.

(** * The shape test of the array converter *)

Lemma shape_eqb_true s t : shape_eqb s t = true <-> s = t.
Proof.
  unfold shape_eqb. destruct (list_eq_dec Nat.eq_dec s t); split;
    congruence.
Qed.

Lemma shape_eqb_false s t : s <> t -> shape_eqb s t = false.
Proof.
  intros H. destruct (shape_eqb s t) eqn:Q; trivial.
  now apply shape_eqb_true in Q.
Qed.

(** C4, as the code has it.  When the three shapes left by the broadcasting
    step are not all the same and none of them is the one-element shape
    [(1,)], [convert_latlon_arr] raises the dimension-mismatch error whose
    text names lat, lon and height, all three, whether the three shapes
    differ from each other or only one differs from the other two; nothing
    else of the call is run. *)
Theorem mismatch_of_three_arrays_names_all :
  forall E lim in_lat in_lon height dtime method (st : estate E)
         lat lon h w1,
    broadcast_inputs E in_lat in_lon height (w0 E st)
    = (Ret (lat, lon, h), w1) ->
    ~ (shape lat = shape lon /\ shape lat = shape h) ->
    shape lat <> [1%nat] -> shape lon <> [1%nat] -> shape h <> [1%nat] ->
    let e := Exn ValueError (Lit "lat, lon, and height arrays are mismatched")
    in
    check_shapes lat lon h = Raise e
    /\ convert_latlon_arr E lim in_lat in_lon height dtime method (w0 E st)
       = (Raise e, w1)
    /\ mentions "lat" e = true /\ mentions "lon" e = true
    /\ mentions "height" e = true.
Proof.
  intros E lim in_lat in_lon height dtime method st lat lon h w1
    Hb Hne H1 H2 H3 e.
  assert (Hc : check_shapes lat lon h = Raise e).
  { unfold check_shapes.
    replace (shape_eqb (shape lat) (shape lon)
             && shape_eqb (shape lat) (shape h)) with false.
    - cbn [negb filter snd].
      rewrite (shape_eqb_false _ _ H1), (shape_eqb_false _ _ H2),
        (shape_eqb_false _ _ H3).
      reflexivity.
    - symmetry. apply andb_false_iff.
      destruct (shape_eqb (shape lat) (shape lon)) eqn:Q1; [|now left].
      destruct (shape_eqb (shape lat) (shape h)) eqn:Q2; [|now right].
      apply shape_eqb_true in Q1, Q2. tauto. }
  split; [exact Hc|]. split; [|repeat split].
  unfold convert_latlon_arr, bind, lift. rewrite Hb, Hc. reflexivity.
Qed.

Lemma mismatch_of_three_arrays_names_all_witness :
  let e := Exn ValueError (Lit "lat, lon, and height arrays are mismatched")
  in
  check_shapes (vec [1; 2; 3]) (vec [4; 5; 6; 7]) (vec [8; 9]) = Raise e
  /\ convert_latlon_arr echo_engine trace_lim (vec [1; 2; 3])
       (vec [4; 5; 6; 7]) (vec [8; 9]) t2015 (MStr "G2A")
       (w0 echo_engine None)
     = (Raise e, w0 echo_engine None)
  /\ mentions "lat" e = true /\ mentions "lon" e = true
  /\ mentions "height" e = true.
Proof.
  apply (mismatch_of_three_arrays_names_all echo_engine trace_lim
           (vec [1; 2; 3]) (vec [4; 5; 6; 7]) (vec [8; 9]) t2015
           (MStr "G2A") None).
  - reflexivity.
  - intros [H _]. discriminate H.
  - discriminate.
  - discriminate.
  - discriminate.
Defined.

(** C4 as stated fails: for lat of shape (3,), lon of shape (3,) and height
    of shape (4,) the call raises the error that names all three inputs,
    not one that names height and only one of lat and lon. *)
Lemma mismatch_3_3_4_names_all_three :
  fst (convert_latlon_arr echo_engine trace_lim (vec [1; 2; 3])
         (vec [10; 20; 30]) (vec [100; 200; 300; 400]) t2015 (MStr "G2A")
         (w0 echo_engine None))
  = Raise (Exn ValueError (Lit "lat, lon, and height arrays are mismatched"))
  /\ ~ (exists e,
          fst (convert_latlon_arr echo_engine trace_lim (vec [1; 2; 3])
                 (vec [10; 20; 30]) (vec [100; 200; 300; 400]) t2015
                 (MStr "G2A") (w0 echo_engine None)) = Raise e
          /\ mentions "height" e = true
          /\ (mentions "lat" e = false \/ mentions "lon" e = false)).
Proof.
  split; [vm_compute; reflexivity|].
  intros [e [He [_ Hn]]]. vm_compute in He. injection He as <-.
  destruct Hn as [Hn|Hn]; vm_compute in Hn; discriminate.
Qed.

(** With exactly two shapes other than [(1,)] the shape test does not get
    to its comparison: it raises [NameError] for the unbound name
    [array_dict]. *)
Lemma mismatch_of_two_arrays_is_name_error :
  check_shapes (vec [1]) (vec [10; 20; 30]) (vec [100; 200; 300; 400])
  = Raise (Exn NameError (Lit "name 'array_dict' is not defined"))
  /\ check_shapes (vec [1]) (vec [10; 20; 30]) (vec [100; 200; 300])
     = Raise (Exn NameError (Lit "name 'array_dict' is not defined")).
Proof. split; reflexivity. Qed.

(** * Engine failures in the array converter *)

(** C3, as the code has it.  When a call of the native convert primitive
    raises during [convert_latlon_arr], for whichever element of the batch,
    the call does not raise: it logs its warning about the vector conversion
    and returns the three initial outputs, in which every element is NaN.
    The whole batch is missing, not only the element on which the engine
    failed. *)
Theorem engine_failure_blanks_the_batch :
  forall E lim in_lat in_lon height dtime method (st : estate E) r w',
    convert_latlon_arr E lim in_lat in_lon height dtime method (w0 E st)
    = (r, w') ->
    Exists (fun ev => is_failed_convert ev = true) (trace w') ->
    (exists lat_out lon_out r_out,
       r = Ret (lat_out, lon_out, r_out)
       /\ all_nan lat_out /\ all_nan lon_out /\ all_nan r_out)
    /\ Exists (fun ev => is_vector_warning ev = true) (trace w').
Proof.
  intros E lim in_lat in_lon height dtime method st r w' Hrun Hex.
  destruct (failed_then_nan_convert_latlon_arr E lim _ _ _ _ _ _ _ _ Hrun)
    as [evs [Ht Hq]].
  simpl in Ht. rewrite Ht in *. exact (Hq Hex).
Qed.

Lemma engine_failure_blanks_the_batch_witness :
  (exists lat_out lon_out r_out,
     fst (convert_latlon_arr (stub_engine (F64.of_Z 2)) trace_lim
            (vec [1; 2; 3]) (vec [10; 20; 30]) (vec [100; 100; 100]) t2015
            (MStr "G2A") (w0 (stub_engine (F64.of_Z 2)) None))
     = Ret (lat_out, lon_out, r_out)
     /\ all_nan lat_out /\ all_nan lon_out /\ all_nan r_out)
  /\ Exists (fun ev => is_vector_warning ev = true)
       (trace (snd (convert_latlon_arr (stub_engine (F64.of_Z 2)) trace_lim
                      (vec [1; 2; 3]) (vec [10; 20; 30])
                      (vec [100; 100; 100]) t2015 (MStr "G2A")
                      (w0 (stub_engine (F64.of_Z 2)) None)))).
Proof.
  apply (engine_failure_blanks_the_batch (stub_engine (F64.of_Z 2)) trace_lim
           (vec [1; 2; 3]) (vec [10; 20; 30]) (vec [100; 100; 100]) t2015
           (MStr "G2A") None).
  - apply surjective_pairing.
  - vm_compute. do 3 apply Exists_cons_tl. apply Exists_cons_hd. reflexivity.
Defined.

(** C3 as stated fails: with an engine that raises on latitude 2 only, the
    batch of latitudes 1, 2, 3 comes back all NaN; the first and the third
    element, which the engine does convert, do not keep their converted
    values. *)
Lemma one_failure_loses_the_other_elements :
  fst (convert (stub_engine (F64.of_Z 2)) (F64.of_Z 1) (F64.of_Z 10)
         (F64.of_Z 100) G2A None)
  = Ret (F64.of_Z 1, F64.of_Z 10, F64.of_Z 100)
  /\ fst (convert (stub_engine (F64.of_Z 2)) (F64.of_Z 3) (F64.of_Z 30)
            (F64.of_Z 100) G2A None)
     = Ret (F64.of_Z 3, F64.of_Z 30, F64.of_Z 100)
  /\ fst (convert_latlon_arr (stub_engine (F64.of_Z 2)) trace_lim
            (vec [1; 2; 3]) (vec [10; 20; 30]) (vec [100; 100; 100]) t2015
            (MStr "G2A") (w0 (stub_engine (F64.of_Z 2)) None))
     = Ret (mk_ndarray [3%nat] [F64.nan; F64.nan; F64.nan],
            mk_ndarray [3%nat] [F64.nan; F64.nan; F64.nan],
            mk_ndarray [3%nat] [F64.nan; F64.nan; F64.nan])
  /\ ~ (exists lat_out lon_out r_out,
          fst (convert_latlon_arr (stub_engine (F64.of_Z 2)) trace_lim
                 (vec [1; 2; 3]) (vec [10; 20; 30]) (vec [100; 100; 100])
                 t2015 (MStr "G2A") (w0 (stub_engine (F64.of_Z 2)) None))
          = Ret (lat_out, lon_out, r_out)
          /\ nth_error (data lat_out) 0 = Some (F64.of_Z 1)
          /\ nth_error (data lat_out) 2 = Some (F64.of_Z 3)).
Proof.
  repeat split; try (vm_compute; reflexivity).
  intros [lat_out [lon_out [r_out [Hr [H0 _]]]]].
  vm_compute in Hr. injection Hr as <- _ _. discriminate H0.
Qed.

(** * Further properties of the method codes *)

Lemma split_pipe_app s s' :
  split_pipe (s ++ String "|" s') = split_pipe s ++ split_pipe s'.
Proof.
  induction s as [|c s IH]; [reflexivity|].
  cbn [String.append split_pipe]. rewrite IH.
  destruct (Ascii.eqb c "|"); [reflexivity|].
  destruct (split_pipe s) as [|t ts] eqn:T;
    [now apply split_pipe_not_nil in T | reflexivity].
Qed.

Lemma upper_app s s' : upper (s ++ s') = (upper s ++ upper s')%string.
Proof. induction s as [|c s IH]; simpl; [reflexivity | now rewrite IH]. Qed.

Lemma remove_spaces_app s s' :
  remove_spaces (s ++ s')
  = (remove_spaces s ++ remove_spaces s')%string.
Proof.
  induction s as [|c s IH]; simpl; [reflexivity|].
  destruct (Ascii.eqb c " "); simpl; now rewrite IH.
Qed.

Lemma sum_codes_app l l' : sum_codes (l ++ l') = sum_codes l + sum_codes l'.
Proof.
  induction l as [|t l IH]; [reflexivity|].
  cbn [app sum_codes]. destruct (lookup t convert_code); lia.
Qed.

(** X1.  Joining two method strings with a pipe adds their codes: the flags
    are summed, not or-ed, so a string joined with itself decodes to twice
    its code. *)
Theorem convert_str_to_bit_pipe :
  (forall s s',
      convert_str_to_bit (s ++ "|" ++ s')
      = convert_str_to_bit s + convert_str_to_bit s')
  /\ (forall s, convert_str_to_bit (s ++ "|" ++ s) = 2 * convert_str_to_bit s).
Proof.
  assert (H : forall s s',
             convert_str_to_bit (s ++ "|" ++ s')
             = convert_str_to_bit s + convert_str_to_bit s').
  { intros s s'. unfold convert_str_to_bit.
    change (s ++ "|" ++ s')%string with (s ++ String "|" s')%string.
    rewrite upper_app, remove_spaces_app.
    change (remove_spaces (upper (String "|" s')))
      with (String "|" (remove_spaces (upper s'))).
    now rewrite split_pipe_app, sum_codes_app. }
  split; [exact H|]. intros s. rewrite H. lia.
Qed.

(** X2.  [convert_bool_to_bit] gives the code of the string that names its
    flags, and each flag can be read back from the code with a bitwise
    and: the five booleans are recovered from the integer. *)
Theorem convert_bool_to_bit_round_trip :
  forall a2g trace allowtrace badidea geocentric,
    let code := convert_bool_to_bit a2g trace allowtrace badidea geocentric
    in
    code = convert_str_to_bit
             (flags_string a2g trace allowtrace badidea geocentric)
    /\ negb (Z.eqb (Z.land code A2G) 0) = a2g
    /\ negb (Z.eqb (Z.land code TRACE) 0) = trace
    /\ negb (Z.eqb (Z.land code ALLOWTRACE) 0) = allowtrace
    /\ negb (Z.eqb (Z.land code BADIDEA) 0) = badidea
    /\ negb (Z.eqb (Z.land code GEOCENTRIC) 0) = geocentric.
Proof.
  intros [] [] [] [] []; repeat split.
Qed.

(** * Further properties of the broadcasting step and of the shape test *)

Lemma same_shapes_eqb (lat lon h : ndarray) :
  shape_eqb (shape lat) (shape lon) && shape_eqb (shape lat) (shape h) = true
  <-> shape lat = shape lon /\ shape lat = shape h.
Proof.
  rewrite andb_true_iff, !shape_eqb_true. tauto.
Qed.

Lemma check_shapes_pass (lat lon h : ndarray) :
  check_shapes lat lon h = Ret tt ->
  (shape lat = shape lon /\ shape lat = shape h)
  \/ (array_keys lat lon h <= 1)%nat.
Proof.
  pose proof (same_shapes_eqb lat lon h) as Hs.
  unfold check_shapes, array_keys. cbn [filter snd].
  destruct (shape_eqb (shape lat) (shape lon)
            && shape_eqb (shape lat) (shape h)) eqn:S.
  - intros _. left. now apply Hs.
  - cbn [negb].
    destruct (shape_eqb (shape lat) [1%nat]),
      (shape_eqb (shape lon) [1%nat]), (shape_eqb (shape h) [1%nat]);
      cbn [negb map fst List.length Nat.eqb];
      intros; try discriminate; right; lia.
Qed.

(** X3.  The three outcomes of the shape test.  It passes exactly when the
    three shapes are the same or at most one of them is not [(1,)]; when
    the shapes are not all the same it raises [NameError] if exactly two of
    them are not [(1,)] (so also for two arrays of the same shape next to a
    one-element array), and the dimension-mismatch [ValueError] if none of
    them is [(1,)]. *)
Theorem check_shapes_outcomes :
  forall lat lon h : ndarray,
    let same := shape lat = shape lon /\ shape lat = shape h in
    (check_shapes lat lon h = Ret tt
     <-> same \/ (array_keys lat lon h <= 1)%nat)
    /\ (check_shapes lat lon h
        = Raise (Exn NameError (Lit "name 'array_dict' is not defined"))
        <-> ~ same /\ array_keys lat lon h = 2%nat)
    /\ (check_shapes lat lon h
        = Raise (Exn ValueError
                   (Lit "lat, lon, and height arrays are mismatched"))
        <-> ~ same /\ array_keys lat lon h = 3%nat).
Proof.
  intros lat lon h same.
  pose proof (same_shapes_eqb lat lon h) as Hs. fold same in Hs.
  unfold check_shapes, array_keys. cbn [filter snd].
  destruct (shape_eqb (shape lat) (shape lon)
            && shape_eqb (shape lat) (shape h)) eqn:S.
  - assert (same) by now apply Hs.
    cbn [negb]. repeat split; intros; try discriminate; tauto.
  - assert (~ same) by (intros K; apply Hs in K; discriminate).
    cbn [negb].
    destruct (shape_eqb (shape lat) [1%nat]),
      (shape_eqb (shape lon) [1%nat]), (shape_eqb (shape h) [1%nat]);
      cbn [negb map fst List.length Nat.eqb];
      repeat split; intros; try discriminate; try tauto; try lia;
      try (right; lia);
      match goal with
      | K : _ \/ _ |- _ => destruct K; [tauto | cbn in *; lia]
      | K : _ /\ _ |- _ => destruct K; cbn in *; lia
      end.
Qed.

Lemma np_full_of_scalar s x : np_full_of s (scalar x) = np_full s x.
Proof.
  unfold np_full_of, np_full, scalar. cbn [data]. f_equal.
  induction (size s) as [|n IH]; [reflexivity|]. cbn. now rewrite IH.
Qed.

(** X4.  The broadcasting step never raises and never touches the engine.
    What it returns has no 0-d array left; an input that was not 0-d is
    returned as it is; a float is turned into an array every element of
    which is that float; and the advice to use the scalar converter is
    logged exactly when all three inputs are floats. *)
Theorem broadcast_inputs_result :
  forall E (a b c : ndarray) (w : world E),
  exists a' b' c' logs,
    broadcast_inputs E a b c w
    = (Ret (a', b', c'), mk_world (engine_state w) (trace w ++ logs))
    /\ (1 <= rank a' /\ 1 <= rank b' /\ 1 <= rank c')%nat
    /\ ((1 <= rank a)%nat -> a' = a)
    /\ ((1 <= rank b)%nat -> b' = b)
    /\ ((1 <= rank c)%nat -> c' = c)
    /\ (forall x, a = scalar x -> a' = np_full (shape a') x)
    /\ (forall x, b = scalar x -> b' = np_full (shape b') x)
    /\ (forall x, c = scalar x -> c' = np_full (shape c') x)
    /\ logs = (if (Nat.eqb (rank a) 0 && Nat.eqb (rank b) 0
                   && Nat.eqb (rank c) 0)%bool
               then [EvLog Warning MsgSingleLocation] else []).
Proof.
  intros E [sa da] [sb db] [sc dc] [st tr].
  unfold broadcast_inputs, rank, bind, log, emit, ret.
  cbn [shape data engine_state trace].
  destruct sa as [|na sa], sb as [|nb sb], sc as [|nc sc];
    cbn [List.length Nat.min Nat.max Nat.eqb Nat.leb andb];
    try (destruct (Nat.leb (List.length sb) (List.length sa)) eqn:L1);
    try (destruct (Nat.leb (List.length sc) (List.length sa)) eqn:L2);
    try (destruct (Nat.leb (List.length sc) (List.length sb)) eqn:L3);
    cbn [andb Nat.eqb shape data];
    do 3 eexists;
    first [ exists [EvLog Warning MsgSingleLocation]; split; [reflexivity|]
          | exists []; split; [rewrite app_nil_r; reflexivity|] ];
    cbn [shape data List.length];
    repeat split; try lia; try reflexivity;
    try (intros; exfalso; cbn in *; lia);
    try (intros x [= ->]; try apply np_full_of_scalar; reflexivity);
    try (intros x [= ? ?]; discriminate);
    try (cbn; lia).
Qed.

Lemma broadcast_rev_same l : broadcast_rev l l = Some l.
Proof.
  induction l as [|x l IH]; [reflexivity|].
  cbn [broadcast_rev]. now rewrite IH, Nat.eqb_refl.
Qed.

Lemma broadcast_rev_nil_r l : broadcast_rev l [] = Some l.
Proof. now destruct l. Qed.

Lemma broadcast_rev_one_l l : l <> [] -> broadcast_rev [1%nat] l = Some l.
Proof.
  destruct l as [|y l]; [congruence|]. intros _. cbn [broadcast_rev].
  destruct (Nat.eqb_spec 1 y) as [<-|N]; reflexivity.
Qed.

Lemma broadcast_rev_one_r l : l <> [] -> broadcast_rev l [1%nat] = Some l.
Proof.
  destruct l as [|x l]; [congruence|]. intros _. cbn [broadcast_rev].
  rewrite broadcast_rev_nil_r.
  destruct (Nat.eqb_spec x 1) as [->|N]; [reflexivity|].
  destruct (Nat.eqb_spec x 1); [contradiction | reflexivity].
Qed.

Lemma rev_not_nil {A} (l : list A) : l <> [] -> rev l <> [].
Proof.
  destruct l as [|x l]; [congruence|]. intros _ H.
  apply (f_equal (@List.length A)) in H. cbn in H.
  rewrite length_app in H. cbn in H. lia.
Qed.

Lemma broadcast_shapes_same s : broadcast_shapes s s = Some s.
Proof.
  unfold broadcast_shapes. rewrite broadcast_rev_same. cbn [option_map].
  now rewrite rev_involutive.
Qed.

Lemma broadcast_shapes_one_l s :
  s <> [] -> broadcast_shapes [1%nat] s = Some s.
Proof.
  intros H. unfold broadcast_shapes. cbn [rev app].
  rewrite broadcast_rev_one_l by now apply rev_not_nil.
  cbn [option_map]. now rewrite rev_involutive.
Qed.

Lemma broadcast_shapes_one_r s :
  s <> [] -> broadcast_shapes s [1%nat] = Some s.
Proof.
  intros H. unfold broadcast_shapes. cbn [rev app].
  rewrite broadcast_rev_one_r by now apply rev_not_nil.
  cbn [option_map]. now rewrite rev_involutive.
Qed.

Lemma check_lat_arr_shape a a' : check_lat_arr a = Ret a' -> shape a' = shape a.
Proof.
  unfold check_lat_arr. destruct (np_abs_max a) as [m|e]; [|discriminate].
  destruct (F64.gtb m f90); [destruct (F64.gtb m f90_1)|];
    try discriminate; now intros [= <-].
Qed.

Lemma rank_not_nil (a : ndarray) : (1 <= rank a)%nat -> shape a <> [].
Proof. unfold rank. destruct (shape a); cbn; [lia | congruence]. Qed.

(** X5.  Once the broadcasting step has left no 0-d array and the shape
    test has passed, the vectorised call cannot fail to broadcast its
    inputs: the points of the batch are defined, their common shape is the
    shape of one of the three arrays, and every array has that shape or is
    a one-element array. *)
Theorem points_defined_after_shape_test :
  forall lat lon h lat' : ndarray,
    (1 <= rank lat)%nat -> (1 <= rank lon)%nat -> (1 <= rank h)%nat ->
    check_shapes lat lon h = Ret tt ->
    check_lat_arr lat = Ret lat' ->
    exists t pts,
      points lat' (wrap_lon_arr lon) h = Some (t, pts)
      /\ (t = shape lat \/ t = shape lon \/ t = shape h)
      /\ (shape lat = t \/ shape lat = [1%nat])
      /\ (shape lon = t \/ shape lon = [1%nat])
      /\ (shape h = t \/ shape h = [1%nat]).
Proof.
  intros lat lon h lat' Ra Rb Rc Hc Hl.
  apply rank_not_nil in Ra, Rb, Rc.
  unfold points. cbn [wrap_lon_arr shape].
  rewrite (check_lat_arr_shape _ _ Hl).
  apply check_shapes_pass in Hc.
  destruct Hc as [[E1 E2]|Hk].
  - rewrite <- E1, <- E2, broadcast_shapes_same, broadcast_shapes_same.
    do 2 eexists. split; [reflexivity|]. tauto.
  - unfold array_keys in Hk. cbn [filter] in Hk.
    destruct (shape_eqb (shape lat) [1%nat]) eqn:A;
      destruct (shape_eqb (shape lon) [1%nat]) eqn:B;
      destruct (shape_eqb (shape h) [1%nat]) eqn:C;
      cbn in Hk; try lia;
      try apply shape_eqb_true in A; try apply shape_eqb_true in B;
      try apply shape_eqb_true in C;
      rewrite ?A, ?B, ?C;
      rewrite ?broadcast_shapes_same, ?broadcast_shapes_one_l,
        ?broadcast_shapes_one_r, ?broadcast_shapes_same,
        ?broadcast_shapes_one_l, ?broadcast_shapes_one_r
        by (assumption || discriminate);
      do 2 eexists; (split; [reflexivity|]); tauto.
Qed.

Lemma points_defined_after_shape_test_witness :
  exists t pts,
    points (vec [1]) (wrap_lon_arr (vec [10])) (vec [100; 200; 300])
    = Some (t, pts)
    /\ (t = shape (vec [1]) \/ t = shape (vec [10])
        \/ t = shape (vec [100; 200; 300]))
    /\ (shape (vec [1]) = t \/ shape (vec [1]) = [1%nat])
    /\ (shape (vec [10]) = t \/ shape (vec [10]) = [1%nat])
    /\ (shape (vec [100; 200; 300]) = t
        \/ shape (vec [100; 200; 300]) = [1%nat]).
Proof.
  apply (points_defined_after_shape_test (vec [1]) (vec [10])
           (vec [100; 200; 300]) (vec [1]));
    try (cbn; lia); reflexivity.
Defined.

(** * Further properties of the height test *)

Lemma test_height_decision E lim h b (w : world E) :
  fst (test_height E lim h b w) = Ret (height_policy lim h b).
Proof.
  destruct (test_height_run E lim h b w) as [logs [Hrun _]]. now rewrite Hrun.
Qed.

(** X6.  [test_height] never raises and never touches the engine: it returns
    the decision of the altitude policy and only writes to the log, a
    warning exactly when the height is below zero and an error record
    exactly when it returns [False]. *)
Theorem test_height_logs :
  forall E lim h b (w : world E),
  exists logs,
    test_height E lim h b w
    = (Ret (height_policy lim h b),
       mk_world (engine_state w) (trace w ++ logs))
    /\ Forall (fun ev => is_call ev = false) logs
    /\ (In (EvLog Warning MsgNegativeAltitude) logs <-> F64.ltb h f0 = true)
    /\ ((exists m, In (EvLog Error m) logs)
        <-> height_policy lim h b = false).
Proof.
  intros E lim h b [st tr].
  unfold test_height, height_policy. rewrite no_flag_eqb.
  unfold truthy. rewrite negb_involutive.
  unfold bind, log, emit, ret. cbn [engine_state trace].
  destruct (F64.ltb h f0);
    destruct (F64.gtb h high_alt_coeff
              && (Z.eqb (Z.land b TRACE) 0 && Z.eqb (Z.land b ALLOWTRACE) 0
                  && Z.eqb (Z.land b BADIDEA) 0))%bool;
    destruct (F64.gtb h lim && Z.eqb (Z.land b BADIDEA) 0)%bool;
    cbn [negb andb engine_state trace];
    rewrite <- ?app_assoc;
    first [ eexists; split; [reflexivity|]
          | exists []; split; [now rewrite app_nil_r|] ];
    (split; [repeat constructor|]);
    split; split; cbn [In app];
    try reflexivity; try discriminate; try tauto;
    try (intros [m Hm];
         repeat (destruct Hm as [Hm|Hm]; [discriminate Hm|]);
         contradiction);
    try (intros K; repeat (destruct K as [K|K]; [discriminate K|]);
         contradiction);
    try (intros _; eexists; left; reflexivity);
    try (intros _; eexists; right; left; reflexivity);
    try (intros _; now left).
Qed.

Lemma gtb_upward y m c :
  F64.leb y m = true -> F64.gtb y c = true -> F64.gtb m c = true.
Proof.
  intros L G. unfold F64.gtb in *.
  destruct (leb_true_not_nan _ _ L) as [Hy Hm].
  assert (Hc : F64.is_nan c = false)
    by (destruct c; try reflexivity; discriminate).
  apply ltb_true_key in G.
  apply (F64Facts.leb_key y m Hy Hm) in L.
  apply (F64Facts.ltb_key c m Hc Hm).
  unfold F64Order.kle, F64Order.klt in *.
  destruct (F64Order.key y) as [[y1 y2] y3],
    (F64Order.key m) as [[m1 m2] m3], (F64Order.key c) as [[c1 c2] c3].
  destruct L as [L|[= <- <- <-]]; lia.
Qed.

Lemma height_policy_downward lim h h' b :
  F64.leb h' h = true ->
  height_policy lim h b = true -> height_policy lim h' b = true.
Proof.
  intros L. unfold height_policy.
  destruct (F64.gtb h' high_alt_coeff) eqn:G1;
    [rewrite (gtb_upward _ _ _ L G1)|];
    (destruct (F64.gtb h' lim) eqn:G2; [rewrite (gtb_upward _ _ _ L G2)|]);
    cbn [andb negb]; try tauto;
    intros H; apply andb_true_iff in H; destruct H as [H1 H2];
    rewrite ?H1, ?H2; reflexivity.
Qed.

Lemma height_policy_nan lim b : height_policy lim F64.nan b = true.
Proof. unfold height_policy. now destruct lim. Qed.

(** X7.  What always passes the height test: any height, however large,
    when BADIDEA is set; a NaN height; a height below zero when the tracing
    ceiling is not negative (it is only warned about); and every height
    below one that passes. *)
Theorem test_height_passes :
  forall E lim b (w : world E),
    (Z.land b BADIDEA <> 0 ->
     forall h, fst (test_height E lim h b w) = Ret true)
    /\ fst (test_height E lim F64.nan b w) = Ret true
    /\ (F64.leb f0 lim = true ->
        forall h, F64.ltb h f0 = true ->
                  fst (test_height E lim h b w) = Ret true)
    /\ (forall h h', F64.leb h' h = true ->
                     fst (test_height E lim h b w) = Ret true ->
                     fst (test_height E lim h' b w) = Ret true).
Proof.
  intros E lim b w. repeat split.
  - intros Hb h. rewrite test_height_decision. f_equal.
    unfold height_policy. apply Z.eqb_neq in Hb. rewrite Hb.
    now rewrite !andb_false_r.
  - rewrite test_height_decision. now rewrite height_policy_nan.
  - intros Hlim h Hneg. rewrite test_height_decision. f_equal.
    assert (G : forall c, F64.leb f0 c = true -> F64.gtb h c = false).
    { intros c Hc. destruct (F64.gtb h c) eqn:G; trivial.
      pose proof (gtb_upward _ _ _ (ltb_leb _ _ Hneg) G) as K.
      pose proof (gtb_upward _ _ _ Hc K) as K'.
      unfold F64.gtb in K'.
      apply ltb_true_key in K'. unfold F64Order.klt in K'.
      destruct (F64Order.key c) as [[c1 c2] c3]. lia. }
    unfold height_policy. rewrite (G lim Hlim), (G high_alt_coeff eq_refl).
    reflexivity.
  - intros h h' L. rewrite !test_height_decision. intros [= H].
    now rewrite (height_policy_downward _ _ _ _ L H).
Qed.

Lemma test_height_passes_witness :
  fst (test_height echo_engine trace_lim (F64.of_Z 100000) BADIDEA
         (w0 echo_engine None)) = Ret true
  /\ fst (test_height echo_engine trace_lim (F64.of_Z (-5)) G2A
            (w0 echo_engine None)) = Ret true
  /\ fst (test_height echo_engine trace_lim (F64.of_Z 1500) G2A
            (w0 echo_engine None)) = Ret true.
Proof.
  destruct (test_height_passes echo_engine trace_lim BADIDEA
              (w0 echo_engine None)) as [H1 _].
  destruct (test_height_passes echo_engine trace_lim G2A
              (w0 echo_engine None)) as [_ [_ [H3 H4]]].
  split; [apply H1; discriminate|].
  split; [apply H3; reflexivity|].
  apply (H4 (F64.of_Z 2000)); reflexivity.
Defined.

(** X8.  The one decision of the array converter is on the safe side: when
    the maximum height of a batch passes the height test, every height of
    the batch passes it on its own, so the engine is never given a point
    that the scalar converter would have blocked for its height. *)
Theorem batch_gate_covers_every_point :
  forall E lim (h : ndarray) hmax b (w : world E),
    np_nanmax h = Ret hmax ->
    fst (test_height E lim hmax b w) = Ret true ->
    forall y, In y (data h) ->
              forall w' : world E, fst (test_height E lim y b w') = Ret true.
Proof.
  intros E lim h hmax b w Hmax Hpass y Hin w'.
  rewrite test_height_decision in *. injection Hpass as Hpass. f_equal.
  destruct (F64.is_nan y) eqn:Ny.
  - destruct y; try discriminate. apply height_policy_nan.
  - apply (height_policy_downward lim hmax); trivial.
    now apply (np_nanmax_upper_bound h).
Qed.

Lemma batch_gate_covers_every_point_witness :
  fst (test_height echo_engine trace_lim (F64.of_Z 200) G2A
         (w0 echo_engine None)) = Ret true.
Proof.
  apply (batch_gate_covers_every_point echo_engine trace_lim
           (vec [100; 1500; 200]) (F64.of_Z 1500) G2A (w0 echo_engine None));
    [reflexivity | reflexivity | right; right; left; reflexivity].
Defined.

(** * The calls a converter makes to the engine *)

Lemma engine_calls_app l l' :
  engine_calls (l ++ l') = engine_calls l ++ engine_calls l'.
Proof. apply filter_app. Qed.

Lemma engine_calls_logs logs :
  Forall (fun ev => is_call ev = false) logs -> engine_calls logs = [].
Proof. apply filter_none. Qed.

(** X9.  The scalar converter and the engine.  A call of [convert_latlon]
    either stops before the engine (it raises, or returns the NaN triple of
    a blocked height); or fails to set the epoch, and then raises without
    converting; or sets the epoch to the tested time once and then calls
    convert exactly once, on the clamped latitude, the wrapped longitude and
    the given height and code.  In that last case it always returns: the
    engine's triple, or the NaN triple if the conversion raised. *)
Theorem convert_latlon_engine_calls :
  forall E lim in_lat in_lon h dtime method (st : estate E) r w',
    convert_latlon E lim in_lat in_lon h dtime method (w0 E st) = (r, w') ->
    (engine_calls (trace w') = []
     /\ engine_state w' = st
     /\ (r = Ret (F64.nan, F64.nan, F64.nan) \/ exists e, r = Raise e))
    \/ (exists d e,
          test_time dtime = Ret d
          /\ engine_calls (trace w') = [EvCall (CSetDatetime d) false]
          /\ r = Raise e)
    \/ (exists d lat' b ok,
          test_time dtime = Ret d
          /\ method_bits method = Ret b
          /\ check_lat in_lat = Ret lat'
          /\ engine_calls (trace w')
             = [EvCall (CSetDatetime d) true;
                EvCall (CConvert lat' (wrap_lon in_lon) h b) ok]
          /\ (exists out, r = Ret out)
          /\ (ok = false -> r = Ret (F64.nan, F64.nan, F64.nan))).
Proof.
  intros E lim in_lat in_lon h dtime method st r w' Hrun.
  unfold convert_latlon, bind, lift in Hrun.
  destruct (test_time dtime) as [d|e] eqn:Ht;
    [|injection Hrun as <- <-; left; repeat split; eauto].
  destruct (method_bits method) as [b|e] eqn:Hm;
    [|injection Hrun as <- <-; left; repeat split; eauto].
  destruct (test_height_run E lim h b (w0 E st)) as [logs [Hth Hlogs]].
  rewrite Hth in Hrun. cbn [w0 engine_state trace app] in Hrun.
  destruct (height_policy lim h b); cbn [negb] in Hrun;
    [|injection Hrun as <- <-; left; cbn [trace engine_state];
      repeat split; auto using engine_calls_logs].
  destruct (check_lat in_lat) as [lat'|e] eqn:Hl;
    [|injection Hrun as <- <-; left; cbn [trace engine_state];
      repeat split; eauto using engine_calls_logs].
  destruct (set_time_cases E d (mk_world st logs))
    as [[w3 [Hs T3]]|[e [w3 [Hs T3]]]]; rewrite Hs in Hrun;
    cbn [trace] in T3.
  - right. right. unfold try_except, native, bind, log, emit, ret in Hrun.
    destruct (convert E lat' (wrap_lon in_lon) h b (engine_state w3))
      as [[out|e] st2]; cbn [returned] in Hrun; injection Hrun as <- <-;
      cbn [trace]; rewrite T3, !engine_calls_app,
        (engine_calls_logs _ Hlogs);
      exists d, lat', b; eexists; repeat split; eauto; discriminate.
  - right. left. injection Hrun as <- <-. exists d, e.
    rewrite T3, engine_calls_app, (engine_calls_logs _ Hlogs). auto.
Qed.

Lemma convert_latlon_engine_calls_witness :
  let run := convert_latlon echo_engine trace_lim (F64.of_Z 45)
               (F64.of_Z (-70)) (F64.of_Z 300) t2015 (MStr "G2A")
               (w0 echo_engine None) in
  (engine_calls (trace (snd run)) = []
   /\ engine_state (snd run) = None
   /\ (fst run = Ret (F64.nan, F64.nan, F64.nan)
       \/ exists e, fst run = Raise e))
  \/ (exists d e,
        test_time t2015 = Ret d
        /\ engine_calls (trace (snd run)) = [EvCall (CSetDatetime d) false]
        /\ fst run = Raise e)
  \/ (exists d lat' b ok,
        test_time t2015 = Ret d
        /\ method_bits (MStr "G2A") = Ret b
        /\ check_lat (F64.of_Z 45) = Ret lat'
        /\ engine_calls (trace (snd run))
           = [EvCall (CSetDatetime d) true;
              EvCall (CConvert lat' (wrap_lon (F64.of_Z (-70)))
                        (F64.of_Z 300) b) ok]
        /\ (exists out, fst run = Ret out)
        /\ (ok = false -> fst run = Ret (F64.nan, F64.nan, F64.nan))).
Proof.
  intros run.
  apply (convert_latlon_engine_calls echo_engine trace_lim (F64.of_Z 45)
           (F64.of_Z (-70)) (F64.of_Z 300) t2015 (MStr "G2A") None).
  apply surjective_pairing.
Defined.

Lemma only_convert_each E (P : event -> Prop) pts bit_code :
  (forall a b c ok, P (EvCall (CConvert a b c bit_code) ok)) ->
  only P (convert_each E pts bit_code).
Proof.
  intros Hp. induction pts as [|[[a b] c] pts IH]; cbn [convert_each].
  - apply only_ret.
  - apply only_bind; [apply only_native; intros; apply Hp|]. intros r.
    apply only_bind; [exact IH|]. intros rs. apply only_ret.
Qed.

Lemma only_convert_vectorised E (P : event -> Prop) in_lat in_lon h bit_code :
  (forall a b c ok, P (EvCall (CConvert a b c bit_code) ok)) ->
  only P (convert_vectorised E in_lat in_lon h bit_code).
Proof.
  intros Hp. unfold convert_vectorised.
  destruct (data in_lat); [apply only_raise|].
  destruct (data in_lon); [apply only_raise|].
  destruct (data h); [apply only_raise|].
  apply only_bind; [apply only_native; intros; apply Hp|]. intros _.
  destruct (points in_lat in_lon h) as [[t pts]|]; [|apply only_raise].
  apply only_bind; [now apply only_convert_each|]. intros rs.
  apply only_ret.
Qed.

Lemma engine_calls_converts evs :
  Forall (fun ev => is_convert_call ev = true) evs -> engine_calls evs = evs.
Proof.
  induction 1 as [|ev evs Hev _ IH]; [reflexivity|].
  unfold engine_calls in *. cbn [filter].
  destruct ev as [[] ?|]; try discriminate. cbn [is_call]. now rewrite IH.
Qed.

(** X10.  The array converter and the engine.  A call of
    [convert_latlon_arr] either stops before the engine (it raises, or
    returns all-NaN outputs for a blocked height); or fails to set the
    epoch, and then raises without converting; or sets the epoch to the
    tested time once and, after that, only calls convert.  In that last
    case it always returns. *)
Theorem convert_latlon_arr_engine_calls :
  forall E lim in_lat in_lon height dtime method (st : estate E) r w',
    convert_latlon_arr E lim in_lat in_lon height dtime method (w0 E st)
    = (r, w') ->
    (engine_calls (trace w') = []
     /\ engine_state w' = st
     /\ (nan_result r \/ exists e, r = Raise e))
    \/ (exists d e,
          test_time dtime = Ret d
          /\ engine_calls (trace w') = [EvCall (CSetDatetime d) false]
          /\ r = Raise e)
    \/ (exists d cs,
          test_time dtime = Ret d
          /\ engine_calls (trace w') = EvCall (CSetDatetime d) true :: cs
          /\ Forall (fun ev => is_convert_call ev = true) cs
          /\ exists out, r = Ret out).
Proof.
  intros E lim in_lat in_lon height dtime method st r w' Hrun.
  unfold convert_latlon_arr in Hrun. unfold bind at 1 in Hrun.
  destruct (broadcast_inputs_run E in_lat in_lon height (w0 E st))
    as [[[lat lon] h] [logs [Hb Hlogs]]].
  rewrite Hb in Hrun. cbn [w0 engine_state trace app] in Hrun.
  unfold bind, lift in Hrun.
  destruct (check_shapes lat lon h) as [[]|e] eqn:Hc;
    [|injection Hrun as <- <-; left; cbn [trace engine_state];
      repeat split; eauto using engine_calls_logs].
  destruct (test_time dtime) as [d|e] eqn:Ht;
    [|injection Hrun as <- <-; left; cbn [trace engine_state];
      repeat split; eauto using engine_calls_logs].
  destruct (method_bits method) as [b|e] eqn:Hm;
    [|injection Hrun as <- <-; left; cbn [trace engine_state];
      repeat split; eauto using engine_calls_logs].
  destruct (np_nanmax h) as [hmax|e] eqn:Hn;
    [|injection Hrun as <- <-; left; cbn [trace engine_state];
      repeat split; eauto using engine_calls_logs].
  destruct (test_height_run E lim hmax b (mk_world st logs))
    as [logs2 [Hth Hlogs2]].
  rewrite Hth in Hrun. cbn [engine_state trace] in Hrun.
  assert (Hl12 : engine_calls (logs ++ logs2) = [])
    by (apply engine_calls_logs, Forall_app; now split).
  destruct (height_policy lim hmax b); cbn [negb] in Hrun.
  2:{ injection Hrun as <- <-. left. cbn [trace engine_state].
      repeat split; trivial. left. do 3 eexists.
      split; [reflexivity|]. repeat split; apply all_nan_full. }
  destruct (check_lat_arr lat) as [lat'|e] eqn:Hl;
    [|injection Hrun as <- <-; left; cbn [trace engine_state];
      repeat split; eauto].
  destruct (set_time_cases E d (mk_world st (logs ++ logs2)))
    as [[w3 [Hs T3]]|[e [w3 [Hs T3]]]]; rewrite Hs in Hrun;
    cbn [trace] in T3.
  - right. right. unfold try_except in Hrun.
    destruct (convert_vectorised E lat' (wrap_lon_arr lon) h b w3)
      as [[res|e] w4] eqn:R;
      destruct (only_convert_vectorised E
                  (fun ev => is_convert_call ev = true) _ _ _ b
                  (fun _ _ _ _ => eq_refl) _ _ _ R) as [evs [T4 Hall]].
    + injection Hrun as <- <-. exists d, evs.
      rewrite T4, T3, !engine_calls_app, (engine_calls_logs _ Hlogs),
        (engine_calls_logs _ Hlogs2), (engine_calls_converts _ Hall). eauto.
    + unfold bind, log, emit, ret in Hrun. injection Hrun as <- <-.
      exists d, evs. cbn [trace].
      rewrite T4, T3, !engine_calls_app, (engine_calls_logs _ Hlogs),
        (engine_calls_logs _ Hlogs2), (engine_calls_converts _ Hall).
      cbn. rewrite app_nil_r. eauto.
  - right. left. injection Hrun as <- <-. exists d, e.
    rewrite T3, engine_calls_app, Hl12. auto.
Qed.

Lemma convert_latlon_arr_engine_calls_witness :
  let run := convert_latlon_arr (stub_engine (F64.of_Z 2)) trace_lim
               (vec [1; 2; 3]) (vec [10; 20; 30]) (vec [100; 100; 100])
               t2015 (MStr "G2A") (w0 (stub_engine (F64.of_Z 2)) None) in
  (engine_calls (trace (snd run)) = []
   /\ engine_state (snd run) = None
   /\ (nan_result (fst run) \/ exists e, fst run = Raise e))
  \/ (exists d e,
        test_time t2015 = Ret d
        /\ engine_calls (trace (snd run)) = [EvCall (CSetDatetime d) false]
        /\ fst run = Raise e)
  \/ (exists d cs,
        test_time t2015 = Ret d
        /\ engine_calls (trace (snd run)) = EvCall (CSetDatetime d) true :: cs
        /\ Forall (fun ev => is_convert_call ev = true) cs
        /\ exists out, fst run = Ret out).
Proof.
  intros run.
  apply (convert_latlon_arr_engine_calls (stub_engine (F64.of_Z 2)) trace_lim
           (vec [1; 2; 3]) (vec [10; 20; 30]) (vec [100; 100; 100]) t2015
           (MStr "G2A") None).
  apply surjective_pairing.
Defined.

(** * The two converters on a single point *)

Lemma not_above_is_within a c :
  F64.is_nan a = false -> F64.is_nan c = false ->
  F64.gtb a c = false -> F64.leb a c = true.
Proof.
  intros Ha Hc G. unfold F64.gtb in G.
  apply (ltb_false_key c a Hc Ha) in G.
  apply (F64Facts.leb_key a c Ha Hc).
  unfold F64Order.kle, F64Order.klt in *.
  destruct (F64Order.key a) as [[a1 a2] a3], (F64Order.key c) as [[c1 c2] c3].
  destruct (Z.eq_dec a1 c1), (Z.eq_dec a2 c2), (Z.eq_dec a3 c3); subst;
    try (now right); left; lia.
Qed.

(** On a one-element array the array test of the latitude is the scalar
    test. *)
Lemma check_lat_arr_vec1 x :
  check_lat_arr (vec1 x)
  = match check_lat x with
    | Ret y => Ret (vec1 y)
    | Raise e => Raise e
    end.
Proof.
  unfold check_lat_arr, np_abs_max, vec1. cbn [data map fold_left shape].
  unfold check_lat at 1.
  destruct (F64.gtb (F64.abs x) f90) eqn:G0; [|reflexivity].
  destruct (F64.gtb (F64.abs x) f90_1) eqn:G1; [reflexivity|].
  assert (Hn : F64.is_nan (F64.abs x) = false)
    by (eapply gtb_not_nan; exact G0).
  pose proof (not_above_is_within _ f90_1 Hn eq_refl G1) as L.
  pose proof (check_lat_is_clip x L) as K.
  unfold check_lat in K. rewrite G0, G1 in K. injection K as K.
  now rewrite K.
Qed.

(** X11.  With an engine whose convert primitive leaves the engine state
    alone, the array converter on three one-element arrays and the scalar
    converter on their elements agree: if the scalar call returns a triple,
    the array call returns the three one-element arrays of its components;
    if the scalar call raises, the array call raises the same exception;
    and both leave the engine in the same state. *)
Theorem converters_agree_on_one_point :
  forall E lim lat lon h dtime method (st : estate E),
    (forall a b c code s, snd (convert E a b c code s) = s) ->
    let scalar_run := convert_latlon E lim lat lon h dtime method (w0 E st) in
    let array_run := convert_latlon_arr E lim (vec1 lat) (vec1 lon) (vec1 h)
                       dtime method (w0 E st) in
    fst array_run
    = match fst scalar_run with
      | Ret (a, b, c) => Ret (vec1 a, vec1 b, vec1 c)
      | Raise e => Raise e
      end
    /\ engine_state (snd array_run) = engine_state (snd scalar_run).
Proof.
  intros E lim lat lon h dtime method st Hpure scalar_run array_run.
  unfold scalar_run, array_run, convert_latlon_arr, convert_latlon.
  clear scalar_run array_run.
  unfold bind, lift.
  change (broadcast_inputs E (vec1 lat) (vec1 lon) (vec1 h) (w0 E st))
    with (@Ret (ndarray * ndarray * ndarray) (vec1 lat, vec1 lon, vec1 h),
          w0 E st).
  cbv beta iota.
  change (check_shapes (vec1 lat) (vec1 lon) (vec1 h)) with (Ret tt).
  cbv beta iota.
  destruct (test_time dtime) as [d|e]; [|split; reflexivity].
  destruct (method_bits method) as [b|e]; [|split; reflexivity].
  change (np_nanmax (vec1 h)) with (Ret h).
  destruct (test_height_run E lim h b (w0 E st)) as [logs [Hth _]].
  rewrite Hth.
  destruct (height_policy lim h b); cbn [negb]; [|split; reflexivity].
  rewrite check_lat_arr_vec1.
  destruct (check_lat lat) as [lat'|e]; [|split; reflexivity].
  change (wrap_lon_arr (vec1 lon)) with (vec1 (wrap_lon lon)).
  destruct (set_time E d
              (mk_world (engine_state (w0 E st)) (trace (w0 E st) ++ logs)))
    as [[[]|e] w2]; [|split; reflexivity].
  unfold try_except, convert_vectorised, bind, native, raise, ret, log, emit.
  cbn [vec1 data].
  change (points (vec1 lat') (vec1 (wrap_lon lon)) (vec1 h))
    with (Some ([1%nat], [(lat', wrap_lon lon, h)])).
  cbn [convert_each]. unfold bind, native, ret. cbn [engine_state trace].
  pose proof (Hpure lat' (wrap_lon lon) h b (engine_state w2)) as Hs.
  destruct (convert E lat' (wrap_lon lon) h b (engine_state w2))
    as [[[[a1 b1] c1]|e] s2] eqn:C; cbn [snd] in Hs; subst s2;
    cbn [returned engine_state trace fst snd].
  - rewrite C. cbn [returned map fst snd]. split; reflexivity.
  - split; reflexivity.
Qed.

Lemma converters_agree_on_one_point_witness :
  let scalar_run := convert_latlon echo_engine trace_lim f90_05
                      (F64.of_Z 190) (F64.of_Z 300) t2015 (MStr "G2A")
                      (w0 echo_engine None) in
  let array_run := convert_latlon_arr echo_engine trace_lim (vec1 f90_05)
                     (vec1 (F64.of_Z 190)) (vec1 (F64.of_Z 300)) t2015
                     (MStr "G2A") (w0 echo_engine None) in
  fst array_run
  = match fst scalar_run with
    | Ret (a, b, c) => Ret (vec1 a, vec1 b, vec1 c)
    | Raise e => Raise e
    end
  /\ engine_state (snd array_run) = engine_state (snd scalar_run).
Proof.
  apply (converters_agree_on_one_point echo_engine trace_lim f90_05
           (F64.of_Z 190) (F64.of_Z 300) t2015 (MStr "G2A") None).
  intros a b c code s. cbn. now destruct (F64.eqb a F64.nan).
Defined.

(** * Further properties of the MLT conversion and of the array facade *)

Lemma convert_latlon_arr_no_mlt E lim in_lat in_lon h dtime method :
  only (fun ev => is_mlt_call ev = false)
    (convert_latlon_arr E lim in_lat in_lon h dtime method).
Proof.
  unfold convert_latlon_arr.
  apply only_bind; [apply only_broadcast_inputs; reflexivity|].
  intros [[lat lon] hh].
  only_steps;
    try (apply only_test_height; reflexivity);
    try (apply only_set_time; reflexivity);
    try (apply only_convert_vectorised; reflexivity);
    reflexivity.
Qed.

(** X12.  Whenever the conversion of [get_aacgm_coord_arr] returns
    longitudes that are all NaN (as it does for a blocked height or a failed
    engine), the facade returns them with an all-NaN MLT array of the shape
    of the latitudes, in the world the conversion left: no MLT primitive is
    called. *)
Theorem get_aacgm_coord_arr_all_missing :
  forall E lim glat glon h dtime method (st : estate E) mlat mlon r w1,
    convert_latlon_arr E lim glat glon h dtime (MStr ("G2A|" ++ method))
      (w0 E st) = (Ret (mlat, mlon, r), w1) ->
    forallb F64.is_nan (data mlon) = true ->
    get_aacgm_coord_arr E lim glat glon h dtime method (w0 E st)
    = (Ret (mlat, mlon, VArray (np_full (shape mlat) F64.nan)), w1)
    /\ filter is_mlt_call (trace w1) = [].
Proof.
  intros E lim glat glon h dtime method st mlat mlon r w1 Hrun Hnan. split.
  - unfold get_aacgm_coord_arr, bind. rewrite Hrun, Hnan. reflexivity.
  - destruct (convert_latlon_arr_no_mlt E lim _ _ _ _ _ _ _ _ Hrun)
      as [evs [Ht Hall]].
    rewrite Ht. simpl. now apply filter_none.
Qed.

Lemma get_aacgm_coord_arr_all_missing_witness :
  get_aacgm_coord_arr echo_engine trace_lim (vec [1; 2]) (vec [10; 20])
    (vec [100; 3000]) t2015 "GEOCENTRIC" (w0 echo_engine None)
  = (Ret (np_full [2%nat] F64.nan, np_full [2%nat] F64.nan,
          VArray (np_full (shape (np_full [2%nat] F64.nan)) F64.nan)),
     mk_world (E := echo_engine) None [EvLog Error MsgCoeffAltitude])
  /\ filter is_mlt_call
       (trace (mk_world (E := echo_engine) None
                 [EvLog Error MsgCoeffAltitude])) = [].
Proof.
  apply (get_aacgm_coord_arr_all_missing echo_engine trace_lim (vec [1; 2])
           (vec [10; 20]) (vec [100; 3000]) t2015 "GEOCENTRIC" None
           (np_full [2%nat] F64.nan) (np_full [2%nat] F64.nan)
           (np_full [2%nat] F64.nan));
    reflexivity.
Defined.

Lemma mlt_each_result E m2a d xs :
  forall (w : world E) out w',
    mlt_each E m2a d xs w = (Ret out, w') ->
    List.length out = List.length xs
    /\ exists evs,
         trace w' = trace w ++ evs
         /\ List.length evs = List.length xs.
Proof.
  induction xs as [|x xs IH]; intros w out w' Hrun.
  - injection Hrun as <- <-. split; [reflexivity|].
    exists []. now rewrite app_nil_r.
  - cbn [mlt_each] in Hrun. unfold bind in Hrun.
    destruct ((if m2a
               then native (CInvMltConvert d x) (inv_mlt_convert E d x)
               else native (CMltConvert d x) (mlt_convert E d x)) w)
      as [[r1|e] w1] eqn:R1; [|discriminate].
    destruct (mlt_each E m2a d xs w1) as [[rs|e] w2] eqn:R2; [|discriminate].
    injection Hrun as <- <-.
    destruct (IH _ _ _ R2) as [Hlen [evs [T2 Hevs]]].
    assert (T1 : exists ev, trace w1 = trace w ++ [ev]).
    { destruct m2a; unfold native in R1.
      - destruct (inv_mlt_convert E d x (engine_state w)) as [r0 s0].
        injection R1 as _ <-. cbn [trace]. eauto.
      - destruct (mlt_convert E d x (engine_state w)) as [r0 s0].
        injection R1 as _ <-. cbn [trace]. eauto. }
    destruct T1 as [ev T1]. split; [cbn; now rewrite Hlen|].
    exists (ev :: evs). split; [|cbn; now rewrite Hevs].
    now rewrite T2, T1, <- app_assoc.
Qed.

(** X13.  What [convert_mlt] returns.  When it returns, the input was not
    empty, the engine was called once to probe and once per element (so one
    call more than there are elements), and the result is a float for a 0-d
    input and otherwise an array of the shape of the input with as many
    elements. *)
Theorem convert_mlt_result :
  forall E (arr : ndarray) dtime m2a (st : estate E) v w',
    convert_mlt E arr dtime m2a (w0 E st) = (Ret v, w') ->
    data arr <> []
    /\ List.length (trace w') = S (List.length (data arr))
    /\ match shape arr with
       | [] => exists x, v = VFloat x
       | _ :: _ =>
           exists out, v = VArray (mk_ndarray (shape arr) out)
                       /\ List.length out = List.length (data arr)
       end.
Proof.
  intros E arr dtime m2a st v w' Hrun.
  unfold convert_mlt, bind, lift in Hrun.
  destruct (test_time dtime) as [d|e]; [|discriminate].
  destruct (data arr) as [|x xs] eqn:D; [discriminate|].
  split; [discriminate|].
  destruct ((if m2a
             then native (CInvMltConvert d x) (inv_mlt_convert E d x)
             else native (CMltConvert d x) (mlt_convert E d x)) (w0 E st))
    as [[r1|e] w1] eqn:R1; [|discriminate].
  assert (T1 : exists ev, trace w1 = [ev]).
  { destruct m2a; unfold native in R1.
    - destruct (inv_mlt_convert E d x (engine_state (w0 E st))) as [r0 s0].
      injection R1 as _ <-. cbn [trace]. eauto.
    - destruct (mlt_convert E d x (engine_state (w0 E st))) as [r0 s0].
      injection R1 as _ <-. cbn [trace]. eauto. }
  destruct T1 as [ev T1].
  destruct (mlt_each E m2a d (x :: xs) w1) as [[out|e] w2] eqn:R2;
    [|discriminate].
  destruct (mlt_each_result _ _ _ _ _ _ _ R2) as [Hlen [evs [T2 Hevs]]].
  assert (Hw : w' = w2 /\
               v = match shape arr, out with
                   | [], y :: _ => VFloat y
                   | _, _ => VArray (mk_ndarray (shape arr) out)
                   end).
  { destruct (shape arr), out; injection Hrun as <- <-; auto. }
  destruct Hw as [-> ->]. split.
  - rewrite T2, T1. cbn. now rewrite Hevs.
  - destruct (shape arr); [|eauto].
    destruct out; [discriminate Hlen | eauto].
Qed.

Lemma convert_mlt_result_witness :
  data (vec [10; 20]) <> []
  /\ List.length
       (trace (snd (convert_mlt echo_engine (vec [10; 20]) t2015 false
                      (w0 echo_engine None))))
     = S (List.length (data (vec [10; 20])))
  /\ exists out,
       VArray (vec [10; 20]) = VArray (mk_ndarray (shape (vec [10; 20])) out)
       /\ List.length out = List.length (data (vec [10; 20])).
Proof.
  apply (convert_mlt_result echo_engine (vec [10; 20]) t2015 false None
           (VArray (vec [10; 20]))
           (snd (convert_mlt echo_engine (vec [10; 20]) t2015 false
                   (w0 echo_engine None)))).
  reflexivity.
Defined.

Lemma only_mlt_each E (P : event -> Prop) (m2a : bool) (d : datetime)
    (xs : list float) :
  (forall x ok, In x xs ->
                P (EvCall (if m2a then CInvMltConvert d x
                           else CMltConvert d x) ok)) ->
  only P (mlt_each E m2a d xs).
Proof.
  induction xs as [|x xs IH]; intros Hp; cbn [mlt_each].
  - apply only_ret.
  - apply only_bind.
    + destruct m2a; apply only_native; intros ok;
        apply (Hp x ok); now left.
    + intros r. apply only_bind; [|intros rs; apply only_ret].
      apply IH. intros y ok Hy. apply Hp. now right.
Qed.

(** X14.  The only events of a call of [convert_mlt] are calls of the one
    primitive that [m2a] selects ([inv_mlt_convert] when it is set,
    [mlt_convert] otherwise), at the tested time and on elements of the
    input: it logs nothing, never sets the epoch, never converts a point and
    never calls the primitive of the other direction. *)
Theorem convert_mlt_calls :
  forall E (arr : ndarray) dtime m2a (st : estate E) r w',
    convert_mlt E arr dtime m2a (w0 E st) = (r, w') ->
    Forall (fun ev =>
              exists d x ok,
                test_time dtime = Ret d /\ In x (data arr)
                /\ ev = EvCall (if m2a then CInvMltConvert d x
                                else CMltConvert d x) ok)
      (trace w').
Proof.
  intros E arr dtime m2a st r w' Hrun.
  unfold convert_mlt, bind at 1, lift in Hrun.
  destruct (test_time dtime) as [d|e] eqn:Ht;
    [|injection Hrun as <- <-; constructor].
  destruct (data arr) as [|x xs] eqn:D;
    [injection Hrun as <- <-; constructor|].
  match type of Hrun with
  | ?m _ = _ =>
      assert (Ho : only (fun ev =>
                           exists d0 y ok,
                             Ret d = Ret d0 /\ In y (x :: xs)
                             /\ ev = EvCall (if m2a then CInvMltConvert d0 y
                                             else CMltConvert d0 y) ok) m)
  end.
  { apply only_bind.
    - destruct m2a; apply only_native; intros ok; exists d, x, ok;
        repeat split; now left.
    - intros _. apply only_bind.
      + apply only_mlt_each. intros y ok Hy. exists d, y, ok. auto.
      + intros out. destruct (shape arr), out; apply only_ret. }
  destruct (Ho _ _ _ Hrun) as [evs [T Hall]]. now rewrite T.
Qed.

Lemma convert_mlt_calls_witness :
  Forall (fun ev =>
            exists d x ok,
              test_time t2015 = Ret d /\ In x (data (vec [10; 20]))
              /\ ev = EvCall (if true then CInvMltConvert d x
                              else CMltConvert d x) ok)
    (trace (snd (convert_mlt echo_engine (vec [10; 20]) t2015 true
                   (w0 echo_engine None)))).
Proof.
  apply (convert_mlt_calls echo_engine (vec [10; 20]) t2015 true None
           (fst (convert_mlt echo_engine (vec [10; 20]) t2015 true
                   (w0 echo_engine None)))).
  symmetry. apply surjective_pairing.
Defined.


(** * The longitude wrap on whole degrees *)

Lemma float_same_eq x y : float_same x y = true -> x = y.
Proof.
  destruct x as [s|s| |s m e], y as [s'|s'| |s' m' e']; try discriminate;
    cbn [float_same]; intros H; try reflexivity.
  - now apply Bool.eqb_prop in H; subst.
  - now apply Bool.eqb_prop in H; subst.
  - apply andb_true_iff in H. destruct H as [H He].
    apply andb_true_iff in H. destruct H as [Hs Hm].
    apply Bool.eqb_prop in Hs. apply Pos.eqb_eq in Hm. apply Z.eqb_eq in He.
    now subst.
Qed.

Lemma whole_numbers_in k n :
  - Z.of_nat k <= n <= Z.of_nat k -> In n (whole_numbers k).
Proof.
  intros H. unfold whole_numbers. apply in_map_iff.
  exists (Z.to_nat (n + Z.of_nat k)). split; [lia|].
  apply in_seq. lia.
Qed.

Lemma wrap_lon_exact_checked :
  forallb wrap_lon_exact_at (whole_numbers 3600) = true.
Proof. vm_compute. reflexivity. Qed.

(** X16.  On every whole-degree longitude from -3600 to 3600 the wrap of
    the two converters is the mathematical one, [((n + 180) mod 360) - 180]
    without any rounding; the result is at least -180 and below 180, and
    wrapping it again changes nothing. *)
Theorem wrap_lon_whole_degrees :
  forall n : Z,
    -3600 <= n <= 3600 ->
    let y := wrap_lon (F64.of_Z n) in
    y = F64.of_Z ((n + 180) mod 360 - 180)
    /\ F64.leb fm180 y = true
    /\ F64.ltb y f180 = true
    /\ wrap_lon y = y.
Proof.
  intros n Hn y.
  pose proof wrap_lon_exact_checked as H.
  rewrite forallb_forall in H.
  specialize (H n (whole_numbers_in 3600 n Hn)).
  unfold wrap_lon_exact_at in H. fold y in H.
  apply andb_true_iff in H. destruct H as [H H4].
  apply andb_true_iff in H. destruct H as [H H3].
  apply andb_true_iff in H. destruct H as [H1 H2].
  repeat split; auto using float_same_eq.
Qed.

Lemma wrap_lon_whole_degrees_witness :
  let y := wrap_lon (F64.of_Z 725) in
  y = F64.of_Z ((725 + 180) mod 360 - 180)
  /\ F64.leb fm180 y = true
  /\ F64.ltb y f180 = true
  /\ wrap_lon y = y.
Proof. apply (wrap_lon_whole_degrees 725). lia. Defined.

(** * What the latitude test lets through *)

Section LatitudeBounds.
Import F64Order F64Facts.

Lemma not_gtb_leb a b :
  F64.is_nan a = false -> F64.is_nan b = false ->
  F64.gtb a b = false -> F64.leb a b = true.
Proof.
  intros Ha Hb H. unfold F64.leb. apply leb_key; trivial.
  unfold F64.gtb in H. change (F64.ltb b a = false) in H.
  apply ltb_false_key in H; trivial.
  unfold kle, klt in *.
  destruct (key a) as [[a1 a2] a3], (key b) as [[b1 b2] b3].
  destruct (Z.eq_dec a1 b1), (Z.eq_dec a2 b2), (Z.eq_dec a3 b3); subst;
    first [ right; reflexivity | left; lia ].
Qed.

Lemma clip_within_90 x :
  F64.is_nan x = false ->
  F64.leb (F64.abs (F64.np_clip x fm90 f90)) f90 = true.
Proof.
  intros Hn. unfold F64.np_clip. rewrite Hn.
  destruct (F64.gtb x fm90) eqn:G1; cbv beta iota zeta.
  - rewrite Hn. destruct (F64.ltb x f90) eqn:G2; [|reflexivity].
    unfold F64.leb. apply leb_key;
      [now rewrite abs_not_nan | reflexivity |].
    apply ltb_true_key in G1. apply ltb_true_key in G2.
    rewrite key_fm90 in G1. rewrite key_f90 in *.
    destruct x as [s|s| |s m e]; try discriminate; destruct s;
      unfold kle, klt in *; simpl in *; lia.
  - reflexivity.
Qed.

Lemma check_lat_within_90 x y :
  F64.is_nan x = false -> check_lat x = Ret y ->
  F64.leb (F64.abs y) f90 = true.
Proof.
  intros Hn. unfold check_lat.
  destruct (F64.gtb (F64.abs x) f90) eqn:H1.
  - destruct (F64.gtb (F64.abs x) f90_1) eqn:H2; [discriminate|].
    rewrite sign_times_90 by assumption.
    intros [= <-]. destruct (F64.ltb x f0); reflexivity.
  - intros [= <-]. apply not_gtb_leb; trivial. now rewrite abs_not_nan.
Qed.

Lemma check_lat_nan x : F64.is_nan x = true -> check_lat x = Ret x.
Proof. destruct x; try discriminate. reflexivity. Qed.

(** X17.  What the two latitude tests let through.  A latitude that is not
    NaN leaves the scalar test with a magnitude of at most 90; NaN is never
    refused and passes unchanged.  An array without NaN leaves the array
    test with its shape and with every magnitude at most 90. *)
Theorem latitude_tests_bound_the_result :
  (forall x y, F64.is_nan x = false -> check_lat x = Ret y ->
               F64.leb (F64.abs y) f90 = true)
  /\ (forall x, F64.is_nan x = true -> check_lat x = Ret x)
  /\ (forall a a', Forall (fun x => F64.is_nan x = false) (data a) ->
                   check_lat_arr a = Ret a' ->
                   shape a' = shape a
                   /\ List.length (data a') = List.length (data a)
                   /\ Forall (fun y => F64.leb (F64.abs y) f90 = true)
                        (data a')).
Proof.
  split; [exact check_lat_within_90|].
  split; [exact check_lat_nan|].
  intros a a' Hn. unfold check_lat_arr, np_abs_max.
  destruct (data a) as [|x xs] eqn:D; [discriminate|].
  change (map F64.abs (x :: xs)) with (F64.abs x :: map F64.abs xs).
  cbv beta iota.
  assert (Hn' : Forall (fun y => F64.is_nan y = false)
                  (F64.abs x :: map F64.abs xs)).
  { change (F64.abs x :: map F64.abs xs) with (map F64.abs (x :: xs)).
    apply Forall_map. eapply Forall_impl; [|exact Hn].
    intros y Hy. now rewrite abs_not_nan. }
  rewrite (gtb_fold_maximum f90 _ eq_refl _ Hn').
  rewrite (gtb_fold_maximum f90_1 _ eq_refl _ Hn').
  destruct (existsb (fun y => F64.gtb y f90) (F64.abs x :: map F64.abs xs))
    eqn:E1.
  - destruct (existsb (fun y => F64.gtb y f90_1)
                (F64.abs x :: map F64.abs xs)); [discriminate|].
    intros [= <-]. cbn [shape data]. split; [reflexivity|].
    split; [cbn [List.length]; now rewrite length_map|].
    change (Forall (fun y => F64.leb (F64.abs y) f90 = true)
              (map (fun x => F64.np_clip x fm90 f90) (x :: xs))).
    apply Forall_map. eapply Forall_impl; [|exact Hn].
    intros y Hy. now apply clip_within_90.
  - intros [= <-]. rewrite D. split; [reflexivity|]. split; [reflexivity|].
    change (F64.abs x :: map F64.abs xs) with (map F64.abs (x :: xs)) in E1.
    apply existsb_false_forall in E1. rewrite Forall_map in E1.
    rewrite Forall_forall in *. intros y Hy.
    apply not_gtb_leb; [rewrite abs_not_nan; now apply Hn | reflexivity
                       | now apply E1].
Qed.

Lemma latitude_tests_bound_the_result_witness :
  F64.leb (F64.abs f90) f90 = true
  /\ check_lat F64.nan = Ret F64.nan
  /\ Forall (fun y => F64.leb (F64.abs y) f90 = true)
       (data (mk_ndarray [2%nat] [f90; fm90])).
Proof.
  destruct latitude_tests_bound_the_result as [H1 [H2 H3]].
  split; [apply (H1 f90_05 f90); reflexivity|].
  split; [apply (H2 F64.nan); reflexivity|].
  refine (proj2 (proj2 (H3 (mk_ndarray [2%nat] [f90_05; fm90])
                          (mk_ndarray [2%nat] [f90; fm90]) _ _))).
  - repeat constructor.
  - vm_compute. reflexivity.
Defined.

End LatitudeBounds.

(** * The height gate of the array converter *)

(** ** Broadcasting, element by element *)

Lemma chunks_concat {A} k : forall n (d : list A),
  List.length d = (n * k)%nat -> List.concat (chunks n k d) = d.
Proof.
  induction n as [|n IH]; intros d H.
  - destruct d; [reflexivity | discriminate].
  - cbn [chunks List.concat]. rewrite IH.
    + apply firstn_skipn.
    + rewrite length_skipn. lia.
Qed.

Lemma chunks_length {A} k : forall n (d : list A),
  List.length d = (n * k)%nat ->
  Forall (fun c => List.length c = k) (chunks n k d).
Proof.
  induction n as [|n IH]; intros d H; cbn [chunks]; constructor.
  - rewrite length_firstn. lia.
  - apply IH. rewrite length_skipn. lia.
Qed.

(** An array seen at its own shape is itself. *)
Lemma expand_same t : forall d,
  List.length d = size t -> expand t t d = d.
Proof.
  induction t as [|n t IH]; intros d H; [reflexivity|].
  cbn [expand]. rewrite Nat.eqb_refl.
  change (size (n :: t)) with (n * size t)%nat in H.
  rewrite <- (chunks_concat (size t) n d H) at 2. f_equal.
  rewrite <- (map_id (chunks n (size t) d)) at 2.
  apply map_ext_in. intros c Hc.
  pose proof (chunks_length (size t) n d H) as F.
  rewrite Forall_forall in F. apply IH. now apply F.
Qed.

Lemma size_ones n : size (repeat 1%nat n) = 1%nat.
Proof.
  induction n as [|n IH]; [reflexivity|].
  change (size (repeat 1%nat (S n))) with (1 * size (repeat 1%nat n))%nat.
  rewrite IH. reflexivity.
Qed.

Lemma concat_repeat_repeat {A} (x : A) k n :
  List.concat (repeat (repeat x k) n) = repeat x (n * k).
Proof.
  induction n as [|n IH]; [reflexivity|].
  cbn [repeat List.concat]. rewrite IH.
  change (S n * k)%nat with (k + n * k)%nat. now rewrite repeat_app.
Qed.

(** A one-element array seen at a shape of its rank lends its element to
    every place. *)
Lemma expand_one x : forall t,
  expand (repeat 1%nat (List.length t)) t [x] = repeat x (size t).
Proof.
  induction t as [|n t IH]; [reflexivity|].
  cbn [List.length repeat expand].
  change (size (n :: t)) with (n * size t)%nat.
  destruct (Nat.eqb_spec 1 n) as [<-|N].
  - rewrite size_ones. cbn [chunks firstn map List.concat].
    rewrite app_nil_r, IH. f_equal. lia.
  - rewrite IH. apply concat_repeat_repeat.
Qed.

Lemma map_nth_seq {A} (d : list A) x :
  map (fun i => nth i d x) (seq 0 (List.length d)) = d.
Proof.
  induction d as [|a d IH]; [reflexivity|].
  cbn [List.length seq map nth]. f_equal.
  rewrite <- seq_shift, map_map. exact IH.
Qed.

Lemma map_const_seq {A} (x : A) n s :
  map (fun _ => x) (seq s n) = repeat x n.
Proof.
  revert s. induction n as [|n IH]; intros s; [reflexivity|].
  cbn [seq map repeat]. now rewrite IH.
Qed.

(** The elements of an array broadcast to the shape of the batch. *)
Lemma broadcast_to_elt (a : ndarray) t :
  well_formed a -> t <> [] ->
  shape a = t \/ shape a = [1%nat] ->
  data (broadcast_to a t) = map (elt a) (seq 0 (size t)).
Proof.
  intros W Ht Hs. unfold broadcast_to, elt, rank, well_formed in *.
  cbn [data].
  destruct (shape_eqb (shape a) [1%nat]) eqn:S1.
  - apply shape_eqb_true in S1. rewrite S1 in *.
    destruct (data a) as [|x [|y d]]; try discriminate.
    cbn [nth List.length]. rewrite map_const_seq.
    replace (repeat 1%nat (List.length t - 1) ++ [1%nat])%list
      with (repeat 1%nat (List.length t)).
    + apply expand_one.
    + destruct t as [|n t]; [congruence|].
      cbn [List.length]. rewrite Nat.sub_succ, Nat.sub_0_r.
      cbn [repeat]. apply repeat_cons.
  - destruct Hs as [Hs|Hs];
      [|rewrite Hs in S1; unfold shape_eqb in S1;
        destruct (list_eq_dec Nat.eq_dec [1%nat] [1%nat]);
        [discriminate | congruence]].
    rewrite Hs in *. rewrite Nat.sub_diag. cbn [repeat app].
    rewrite (expand_same t _ W), <- W. symmetry. apply map_nth_seq.
Qed.

Lemma zip3_map {I A B C} (f : I -> A) (g : I -> B) (h : I -> C) l :
  zip3 (map f l) (map g l) (map h l) = map (fun i => (f i, g i, h i)) l.
Proof.
  induction l as [|i l IH]; [reflexivity|].
  cbn [map zip3]. now rewrite IH.
Qed.

(** Three arrays of one common shape [t], but for those of shape [(1,)],
    broadcast to [t], point by point. *)
Lemma points_common t (lat lon h : ndarray) :
  well_formed lat -> well_formed lon -> well_formed h ->
  t <> [] ->
  shape lat = t \/ shape lat = [1%nat] ->
  shape lon = t \/ shape lon = [1%nat] ->
  shape h = t \/ shape h = [1%nat] ->
  shape lat = t \/ shape lon = t \/ shape h = t ->
  points lat lon h
  = Some (t, map (fun i => (elt lat i, elt lon i, elt h i))
               (seq 0 (size t))).
Proof.
  intros W1 W2 W3 Ht H1 H2 H3 Hsome.
  assert (P : exists t1,
             broadcast_shapes (shape lat) (shape lon) = Some t1
             /\ broadcast_shapes t1 (shape h) = Some t).
  { assert (Hone : [1%nat] <> []) by discriminate.
    destruct H1 as [E1|E1], H2 as [E2|E2], H3 as [E3|E3];
      rewrite E1, E2, E3 in *;
      try (assert (t = [1%nat])
             by (destruct Hsome as [?|[?|?]]; congruence); subst t);
      eexists;
      (split;
       [first [ apply broadcast_shapes_same
              | apply broadcast_shapes_one_l; assumption
              | apply broadcast_shapes_one_r; assumption ]
       |first [ apply broadcast_shapes_same
              | apply broadcast_shapes_one_l; assumption
              | apply broadcast_shapes_one_r; assumption ]]). }
  destruct P as [t1 [P1 P2]]. unfold points. rewrite P1, P2.
  rewrite (broadcast_to_elt lat t W1 Ht H1), (broadcast_to_elt lon t W2 Ht H2),
    (broadcast_to_elt h t W3 Ht H3).
  now rewrite zip3_map.
Qed.

(** After the shape test, the points of the vectorised call are the points
    of the batch. *)
Lemma points_batch (lat lon h : ndarray) :
  well_formed lat -> well_formed lon -> well_formed h ->
  shape lat <> [] -> shape lon <> [] -> shape h <> [] ->
  check_shapes lat lon h = Ret tt ->
  points lat lon h = Some (batch_shape lat lon h, batch_points lat lon h).
Proof.
  intros W1 W2 W3 N1 N2 N3 Hc. unfold batch_points.
  apply check_shapes_pass in Hc. unfold array_keys in Hc.
  cbn [filter] in Hc. unfold batch_shape.
  destruct (shape_eqb (shape lat) [1%nat]) eqn:A;
    destruct (shape_eqb (shape lon) [1%nat]) eqn:B;
    destruct (shape_eqb (shape h) [1%nat]) eqn:C;
    cbn [negb List.length] in *;
    try apply shape_eqb_true in A; try apply shape_eqb_true in B;
    try apply shape_eqb_true in C;
    (destruct Hc as [[E1 E2]|Hk]; [|try lia]);
    try (rewrite A in *); try (rewrite B in *); try (rewrite C in *);
    try (rewrite <- E1 in *); try (rewrite <- E2 in *);
    try discriminate;
    apply points_common; auto; try tauto; try congruence.
Qed.

(** ** The maximum height is a height of the batch *)

Lemma fold_fmax_in xs : forall acc,
  fold_left F64.np_fmax xs acc = acc
  \/ In (fold_left F64.np_fmax xs acc) xs.
Proof.
  induction xs as [|x xs IH]; intros acc; [now left|].
  cbn [fold_left]. destruct (IH (F64.np_fmax acc x)) as [H|H].
  - rewrite H. unfold F64.np_fmax.
    destruct (F64.geb acc x || F64.is_nan x)%bool; [now left|].
    right. now left.
  - right. now right.
Qed.

Lemma np_nanmax_in h hmax : np_nanmax h = Ret hmax -> In hmax (data h).
Proof.
  unfold np_nanmax. destruct (data h) as [|x xs]; [discriminate|].
  intros [= <-]. destruct (fold_fmax_in xs x) as [->|H]; [now left|].
  now right.
Qed.

(** ** The calls of the vectorised conversion, one by one *)

Lemma convert_each_run E pts bit_code : forall (w : world E) r w',
  convert_each E pts bit_code w = (r, w') ->
  (exists rs,
      r = Ret rs /\ List.length rs = List.length pts
      /\ trace w' = trace w ++ map (convert_call bit_code true) pts)
  \/ (exists e k p,
         r = Raise e /\ nth_error pts k = Some p
         /\ trace w'
            = trace w ++ map (convert_call bit_code true) (firstn k pts)
                ++ [convert_call bit_code false p]).
Proof.
  induction pts as [|[[a0 b0] c0] pts IH]; intros w r w' Hrun.
  - injection Hrun as <- <-. left. exists []. rewrite app_nil_r. auto.
  - cbn [convert_each] in Hrun. unfold bind, native in Hrun.
    destruct (convert E a0 b0 c0 bit_code (engine_state w))
      as [[r1|e] st1]; cbn [returned] in Hrun.
    + destruct (convert_each E pts bit_code
                  (mk_world st1
                     (trace w ++ [EvCall (CConvert a0 b0 c0 bit_code) true])))
        as [[rs|e] w2] eqn:R;
        destruct (IH _ _ _ R) as [[rs' [Hr [Hl T]]]|[e' [k [p [Hr [Hn T]]]]]];
        try discriminate;
        cbn [trace] in T; rewrite <- app_assoc in T;
        unfold ret in Hrun; injection Hrun as <- <-.
      * left. exists (r1 :: rs). injection Hr as <-.
        split; [reflexivity|]. split; [cbn [List.length]; congruence|].
        exact T.
      * right. exists e, (S k), p. split; [reflexivity|].
        split; [exact Hn|]. exact T.
    + injection Hrun as <- <-. right. exists e, 0%nat, (a0, b0, c0).
      repeat split.
Qed.

Lemma convert_vectorised_run E lat lon h bit_code t pts
    (w : world E) r w' :
  points lat lon h = Some (t, pts) ->
  (forall a la b lb c lc,
      data lat = a :: la -> data lon = b :: lb -> data h = c :: lc ->
      exists rest, pts = (a, b, c) :: rest) ->
  convert_vectorised E lat lon h bit_code w = (r, w') ->
  (pts = [] /\ trace w' = trace w /\ exists e, r = Raise e)
  \/ (pts <> []
      /\ trace w' = trace w ++ map (convert_call bit_code true) (attempts pts)
      /\ exists rs,
           List.length rs = List.length pts
           /\ r = Ret (mk_ndarray t (map (fun x => fst (fst x)) rs),
                       mk_ndarray t (map (fun x => snd (fst x)) rs),
                       mk_ndarray t (map snd rs)))
  \/ (exists e k p,
         r = Raise e /\ nth_error (attempts pts) k = Some p
         /\ trace w'
            = trace w
                ++ map (convert_call bit_code true) (firstn k (attempts pts))
                ++ [convert_call bit_code false p]).
Proof.
  intros Hp Hhead. unfold convert_vectorised.
  destruct (data lat) as [|a la] eqn:Da;
    [|destruct (data lon) as [|b lb] eqn:Db;
      [|destruct (data h) as [|c lc] eqn:Dc]];
    try (intros [= <- <-]; left;
         split; [eapply points_of_empty; [exact Hp|]; tauto|];
         split; [reflexivity | eexists; reflexivity]).
  destruct (Hhead a la b lb c lc eq_refl eq_refl eq_refl) as [rest ->].
  rewrite Hp. unfold bind, native.
  destruct (convert E a b c bit_code (engine_state w)) as [[r1|e] st1];
    cbn [returned].
  - destruct (convert_each E ((a, b, c) :: rest) bit_code
                (mk_world st1
                   (trace w ++ [EvCall (CConvert a b c bit_code) true])))
      as [[rs|e] w2] eqn:R;
      destruct (convert_each_run E _ _ _ _ _ R)
        as [[rs' [Hr [Hl T]]]|[e' [k [p [Hr [Hn T]]]]]];
      try discriminate;
      cbn [trace] in T; rewrite <- app_assoc in T;
      unfold ret; intros [= <- <-].
    + right. left. split; [discriminate|]. split; [exact T|].
      injection Hr as <-. exists rs. now split.
    + right. right. exists e, (S k), p. split; [reflexivity|].
      split; [exact Hn | exact T].
  - intros [= <- <-]. right. right. exists e, 0%nat, (a, b, c).
    repeat split.
Qed.

(** ** The arrays that reach the vectorised call *)

Lemma length_concat_repeat {A} (d : list A) n :
  List.length (List.concat (repeat d n)) = (n * List.length d)%nat.
Proof.
  induction n as [|n IH]; [reflexivity|].
  cbn [repeat List.concat]. rewrite length_app, IH. reflexivity.
Qed.

(** The broadcasting step hands over well-formed arrays with at least one
    dimension. *)
Lemma broadcast_inputs_well_formed E (a b c : ndarray) (w : world E)
    a' b' c' w' :
  well_formed a -> well_formed b -> well_formed c ->
  broadcast_inputs E a b c w = (Ret (a', b', c'), w') ->
  (well_formed a' /\ well_formed b' /\ well_formed c')
  /\ (shape a' <> [] /\ shape b' <> [] /\ shape c' <> []).
Proof.
  destruct a as [sa da], b as [sb db], c as [sc dc]. destruct w as [st tr].
  unfold well_formed, broadcast_inputs, rank, bind, log, emit, ret,
    np_full_of, np_array1.
  cbn [shape data engine_state trace].
  intros W1 W2 W3.
  destruct sa as [|na sa], sb as [|nb sb], sc as [|nc sc];
    cbn [List.length Nat.min Nat.max Nat.eqb Nat.leb andb];
    try (destruct (Nat.leb (List.length sb) (List.length sa)) eqn:L1);
    try (destruct (Nat.leb (List.length sc) (List.length sa)) eqn:L2);
    try (destruct (Nat.leb (List.length sc) (List.length sb)) eqn:L3);
    cbn [andb Nat.eqb shape data];
    intros [= <- <- <- <-]; cbn [shape data];
    rewrite ?length_concat_repeat, ?W1, ?W2, ?W3;
    change (size []) with 1%nat in *;
    repeat split; try discriminate; try assumption; try lia;
    try (cbn; lia).
  all: match goal with
       | |- context [size (?n :: ?s)] =>
           change (size (n :: s)) with (n * size s)%nat; lia
       end.
Qed.

Lemma check_lat_arr_well_formed a a' :
  well_formed a -> check_lat_arr a = Ret a' ->
  well_formed a' /\ shape a' = shape a.
Proof.
  unfold well_formed, check_lat_arr.
  destruct (np_abs_max a) as [m|e]; [|discriminate].
  destruct (F64.gtb m f90); [destruct (F64.gtb m f90_1)|];
    try discriminate; intros W [= <-]; cbn [shape data];
    rewrite ?length_map; now split.
Qed.

Lemma wrap_lon_arr_well_formed a :
  well_formed a -> well_formed (wrap_lon_arr a).
Proof.
  unfold well_formed, wrap_lon_arr. cbn [shape data].
  now rewrite length_map.
Qed.

Lemma check_shapes_by_shape a b c a' b' c' :
  shape a' = shape a -> shape b' = shape b -> shape c' = shape c ->
  check_shapes a' b' c' = check_shapes a b c.
Proof. unfold check_shapes. now intros -> -> ->. Qed.

(** The first point of a batch none of whose arrays is empty. *)
Lemma batch_points_head (lat lon h : ndarray) a la b lb c lc :
  well_formed lat -> well_formed lon -> well_formed h ->
  data lat = a :: la -> data lon = b :: lb -> data h = c :: lc ->
  exists rest, batch_points lat lon h = (a, b, c) :: rest.
Proof.
  unfold well_formed. intros W1 W2 W3 Da Db Dc.
  assert (Hpos : (1 <= size (batch_shape lat lon h))%nat).
  { unfold batch_shape.
    destruct (negb (shape_eqb (shape lat) [1%nat]));
      [|destruct (negb (shape_eqb (shape lon) [1%nat]))];
      [rewrite <- W1, Da | rewrite <- W2, Db | rewrite <- W3, Dc];
      cbn [List.length]; lia. }
  unfold batch_points.
  destruct (size (batch_shape lat lon h)) as [|n]; [lia|].
  cbn [seq map]. eexists. f_equal. unfold elt. rewrite Da, Db, Dc.
  now destruct (shape_eqb (shape lat) [1%nat]),
    (shape_eqb (shape lon) [1%nat]), (shape_eqb (shape h) [1%nat]).
Qed.

(** C8.  [convert_latlon_arr] takes one height decision for the whole batch,
    on the maximum height, and tests no height again.  For well-formed
    arrays that pass the broadcasting step, the shape test, the time test
    and the method decoding: the height tested is [np.nanmax] of the
    heights, a height of the batch that bounds every height that is not
    NaN; up to the end of that one test the engine has not been called.
    If the policy refuses that height, the call returns the three outputs
    filled with NaN and does nothing more.  If the policy accepts it,
    nothing but the following happens after the test.  The latitudes are
    refused, and the call raises; or setting the epoch fails, and the call
    raises; or the epoch is set and the engine is asked to convert the
    points of the batch in order, each with its own height, the first
    point once more in front as the probe of [np.vectorize]: either every
    call returns and so does the batch, or the first call that raises ends
    the conversion, the later points are not sent and the outputs are all
    NaN with a warning, as they are for an empty batch. *)
Theorem batch_height_decision :
  forall E lim in_lat in_lon height dtime method (st : estate E)
         lat lon h w1 dt bit_code hmax,
    well_formed in_lat -> well_formed in_lon -> well_formed height ->
    broadcast_inputs E in_lat in_lon height (w0 E st)
    = (Ret (lat, lon, h), w1) ->
    check_shapes lat lon h = Ret tt ->
    test_time dtime = Ret dt ->
    method_bits method = Ret bit_code ->
    np_nanmax h = Ret hmax ->
    let w2 := snd (test_height E lim hmax bit_code w1) in
    let run := convert_latlon_arr E lim in_lat in_lon height dtime method
                 (w0 E st) in
    let blank := (np_full (shape lat) F64.nan, np_full (shape lon) F64.nan,
                  np_full (shape h) F64.nan) in
    (In hmax (data h)
     /\ forall y, In y (data h) -> F64.is_nan y = false ->
                  F64.leb y hmax = true)
    /\ (engine_calls (trace w2) = [] /\ engine_state w2 = st)
    /\ (height_policy lim hmax bit_code = false ->
        fst run = Ret blank /\ snd run = w2)
    /\ (height_policy lim hmax bit_code = true ->
        (exists e,
            check_lat_arr lat = Raise e /\ fst run = Raise e /\ snd run = w2)
        \/ (exists lat',
              check_lat_arr lat = Ret lat'
              /\ let pts := batch_points lat' (wrap_lon_arr lon) h in
                 let t := batch_shape lat lon h in
                 let epoch := EvCall (CSetDatetime dt) true in
                 ((exists e, fst run = Raise e)
                  /\ trace (snd run)
                     = trace w2 ++ [EvCall (CSetDatetime dt) false])
                 \/ (pts <> []
                     /\ trace (snd run)
                        = trace w2
                            ++ epoch
                               :: map (convert_call bit_code true)
                                    (attempts pts)
                     /\ exists rs,
                          List.length rs = List.length pts
                          /\ fst run
                             = Ret (mk_ndarray t
                                      (map (fun x => fst (fst x)) rs),
                                    mk_ndarray t
                                      (map (fun x => snd (fst x)) rs),
                                    mk_ndarray t (map snd rs)))
                 \/ (exists k p cls,
                        nth_error (attempts pts) k = Some p
                        /\ trace (snd run)
                           = trace w2
                               ++ epoch
                                  :: map (convert_call bit_code true)
                                       (firstn k (attempts pts))
                               ++ [convert_call bit_code false p;
                                   EvLog Warning
                                     (MsgVectorFailed dt bit_code cls)]
                        /\ fst run = Ret blank)
                 \/ (exists cls,
                        pts = []
                        /\ trace (snd run)
                           = trace w2
                               ++ [epoch;
                                   EvLog Warning
                                     (MsgVectorFailed dt bit_code cls)]
                        /\ fst run = Ret blank))).
Proof.
  intros E lim in_lat in_lon height dtime method st lat lon h w1 dt b hmax
    W1 W2 W3 Hb Hc Ht Hm Hn w2 run blank.
  destruct (broadcast_inputs_well_formed E _ _ _ _ _ _ _ _ W1 W2 W3 Hb)
    as [[Wa [Wb Wc]] [Na [Nb Nc]]].
  destruct (broadcast_inputs_run E in_lat in_lon height (w0 E st))
    as [arrs [logs [Hb' Hlogs]]].
  rewrite Hb in Hb'. injection Hb' as <- Hw1.
  cbn [w0 engine_state trace app] in Hw1.
  destruct (test_height_run E lim hmax b w1) as [logs2 [Hth Hlogs2]].
  assert (Hw2 : w2 = mk_world st (logs ++ logs2)).
  { unfold w2. rewrite Hth, Hw1. reflexivity. }
  assert (Hrun0 :
    run
    = (if negb (height_policy lim hmax b) then ret blank
       else bind (lift (check_lat_arr lat))
              (fun in_lat' =>
                 bind (set_time E dt)
                   (fun _ =>
                      try_except
                        (convert_vectorised E in_lat' (wrap_lon_arr lon) h b)
                        (fun err =>
                           bind (log Warning
                                   (MsgVectorFailed dt b (exn_cls err)))
                             (fun _ => ret blank))))) w2).
  { unfold run, convert_latlon_arr. unfold bind at 1. rewrite Hb.
    unfold bind at 1, lift at 1. rewrite Hc.
    unfold bind at 1, lift at 1. rewrite Ht.
    unfold bind at 1, lift at 1. rewrite Hm.
    unfold bind at 1, lift at 1. rewrite Hn.
    unfold bind at 1. rewrite Hth, Hw2, Hw1. reflexivity. }
  clearbody run w2. rewrite Hrun0.
  split; [split; [now apply np_nanmax_in | now apply np_nanmax_upper_bound]|].
  split.
  { rewrite Hw2. split; [|reflexivity]. cbn [trace].
    apply filter_none. apply Forall_app. now split. }
  split.
  { intros ->. cbn [negb]. unfold ret. now split. }
  intros ->. cbn [negb]. unfold bind, lift, try_except, log, emit, ret.
  destruct (check_lat_arr lat) as [lat'|e] eqn:Hlat; cbv beta iota.
  2:{ left. exists e. repeat split. }
  right. exists lat'. split; [reflexivity|].
  destruct (check_lat_arr_well_formed _ _ Wa Hlat) as [Wl Sl].
  pose proof (wrap_lon_arr_well_formed _ Wb) as Wo.
  assert (Hpts : points lat' (wrap_lon_arr lon) h
                 = Some (batch_shape lat lon h,
                         batch_points lat' (wrap_lon_arr lon) h)).
  { rewrite (points_batch lat' (wrap_lon_arr lon) h); trivial.
    - do 2 f_equal. unfold batch_shape. cbn [wrap_lon_arr shape].
      now rewrite Sl.
    - now rewrite Sl.
    - now rewrite (check_shapes_by_shape lat lon h). }
  assert (Hhead : forall a0 la b0 lb c0 lc,
             data lat' = a0 :: la -> data (wrap_lon_arr lon) = b0 :: lb ->
             data h = c0 :: lc ->
             exists rest,
               batch_points lat' (wrap_lon_arr lon) h = (a0, b0, c0) :: rest).
  { intros. eapply batch_points_head; eassumption. }
  cbv zeta.
  destruct (set_time_cases E dt w2) as [[w3 [Hs T3]]|[e [w3 [Hs T3]]]];
    rewrite Hs; cbv beta iota.
  2:{ left. cbn [fst snd]. split; [now exists e | exact T3]. }
  right.
  destruct (convert_vectorised E lat' (wrap_lon_arr lon) h b w3)
    as [res w4] eqn:R.
  destruct (convert_vectorised_run E _ _ _ b _ _ w3 res w4 Hpts Hhead R)
    as [[Hnil [T4 [e He]]]
       |[[Hne [T4 [rs [Hl Hr]]]]|[e [k [p [Hr [Hk T4]]]]]]]; subst res;
    cbv beta iota; cbn [fst snd trace].
  - right. right. exists (exn_cls e). split; [exact Hnil|].
    rewrite T4, T3, <- app_assoc. now split.
  - left. split; [exact Hne|]. rewrite T4, T3, <- app_assoc.
    split; [reflexivity|]. exists rs. now split.
  - right. left. exists k, p, (exn_cls e). split; [exact Hk|].
    rewrite T4, T3, <- !app_assoc. now split.
Qed.

Lemma batch_height_decision_witness :
  let lat := vec [1; 2; 3] in
  let lon := vec [10; 20; 30] in
  let h := vec [100; 300; 200] in
  let run := convert_latlon_arr echo_engine trace_lim lat lon h t2015
               (MStr "G2A") (w0 echo_engine None) in
  let pts := batch_points lat (wrap_lon_arr lon) h in
  height_policy trace_lim (F64.of_Z 300) G2A = true
  /\ pts <> []
  /\ trace (snd run)
     = EvCall (CSetDatetime (mk_datetime 2015 1 1 0 0 0)) true
       :: map (convert_call G2A true) (attempts pts)
  /\ exists rs,
       List.length rs = List.length pts
       /\ fst run
          = Ret (mk_ndarray [3%nat] (map (fun x => fst (fst x)) rs),
                 mk_ndarray [3%nat] (map (fun x => snd (fst x)) rs),
                 mk_ndarray [3%nat] (map snd rs)).
Proof.
  intros lat lon h run pts. split; [reflexivity|].
  destruct (batch_height_decision echo_engine trace_lim lat lon h t2015
              (MStr "G2A") None lat lon h (w0 echo_engine None)
              (mk_datetime 2015 1 1 0 0 0) G2A (F64.of_Z 300)
              eq_refl eq_refl eq_refl eq_refl eq_refl eq_refl eq_refl
              eq_refl)
    as [_ [_ [_ Hpass]]].
  destruct (Hpass eq_refl) as [[e [Hlat _]]|[lat' [Hlat Hrun]]];
    [vm_compute in Hlat; discriminate Hlat|].
  assert (lat' = lat)
    by (vm_compute in Hlat; injection Hlat as <-; reflexivity).
  subst lat'. cbv zeta in Hrun.
  destruct Hrun as [[[e He] _]|[Hall|[[k [p [cls [_ [_ Hr]]]]]
                                      |[cls [Hnil _]]]]].
  - vm_compute in He. discriminate He.
  - exact Hall.
  - vm_compute in Hr. discriminate Hr.
  - vm_compute in Hnil. discriminate Hnil.
Defined.

(** C8 as stated fails: a batch whose maximum height passes the policy does
    not always have the engine asked about every point.  With an engine
    that raises on latitude 2, the heights 100, 100, 100 pass, the engine
    is asked about the first point (twice) and the second, and the third
    point, latitude 3, is never sent. *)
Lemma passing_height_does_not_reach_every_point :
  let E := stub_engine (F64.of_Z 2) in
  let lat := vec [1; 2; 3] in
  let lon := vec [10; 20; 30] in
  let h := vec [100; 100; 100] in
  let run := convert_latlon_arr E trace_lim lat lon h t2015 (MStr "G2A")
               (w0 E None) in
  np_nanmax h = Ret (F64.of_Z 100)
  /\ height_policy trace_lim (F64.of_Z 100) G2A = true
  /\ In (F64.of_Z 3, F64.of_Z 30, F64.of_Z 100)
       (batch_points lat (wrap_lon_arr lon) h)
  /\ engine_calls (trace (snd run))
     = [EvCall (CSetDatetime (mk_datetime 2015 1 1 0 0 0)) true;
        EvCall (CConvert (F64.of_Z 1) (F64.of_Z 10) (F64.of_Z 100) G2A) true;
        EvCall (CConvert (F64.of_Z 1) (F64.of_Z 10) (F64.of_Z 100) G2A) true;
        EvCall (CConvert (F64.of_Z 2) (F64.of_Z 20) (F64.of_Z 100) G2A)
          false]
  /\ forall ok,
       ~ In (EvCall (CConvert (F64.of_Z 3) (F64.of_Z 30) (F64.of_Z 100) G2A)
               ok)
           (trace (snd run)).
Proof.
  intros E lat lon h run.
  split; [reflexivity|]. split; [reflexivity|].
  split; [vm_compute; tauto|].
  split; [vm_compute; reflexivity|].
  intros ok H. vm_compute in H.
  repeat (destruct H as [H|H]; [discriminate H|]). exact H.
Qed.
